(** * Memristor learning: device laws, differential pairs, array controller
      and pulse quantizer

    A shallow embedding of [memristor_learning/MemristorModels.py] and
    [memristor_learning/MemristorControllers.py].

    Conventions of the embedding.
    - A Python float is a real number ([R]); rounding is not modelled, so
      an equality proved here is the exact-arithmetic reading of an equality
      "up to floating-point epsilon".
    - A Python exception is a value [Raise e] of type [result]; an object
      that is mutated is threaded explicitly, and the state reached when an
      exception escapes is kept (Python does not roll back).
    - An arithmetic operation that leaves the real numbers (division by
      zero, a zero or negative base of a real power) stops the computation
      with [ZeroDivisionError] or [FloatDomain]: Python raises, or carries
      on with a complex number, an infinity or a nan. *)

From Stdlib Require Import String.
From Stdlib Require Import Reals Lra Lia ZArith List Bool Arith.
Import ListNotations.

Local Open Scope R_scope.

(** ** Python results *)

Inductive exn : Type :=
| TypeError
| IndexError
| ValueError
| UnboundLocalError
| ZeroDivisionError
| NotImplementedError
| FloatDomain.

Inductive result (A : Type) : Type :=
| Ok (a : A)
| Raise (e : exn).

Arguments Ok {A} a.
Arguments Raise {A} e.

Definition bind {A B : Type} (r : result A) (k : A -> result B) : result B :=
  match r with
  | Ok a => k a
  | Raise e => Raise e
  end.

Notation "x <- r ;; k" := (bind r (fun x => k))
  (at level 61, r at next level, right associativity).

Definition is_ok {A : Type} (r : result A) : bool :=
  match r with Ok _ => true | Raise _ => false end.

(** ** Float comparisons, as booleans *)

Definition Rlt_b (x y : R) : bool := if Rlt_dec x y then true else false.
Definition Rle_b (x y : R) : bool := if Rle_dec x y then true else false.
Definition Req_b (x y : R) : bool := if Req_dec_T x y then true else false.

(** [a / b] on floats. *)
Definition py_div (a b : R) : result R :=
  if Req_b b 0 then Raise ZeroDivisionError else Ok (a / b).

(** [x ** y] on floats.  A positive base gives the real power; a zero base
    gives 0, 1 or [ZeroDivisionError] by the sign of the exponent; a
    negative base is outside the embedding (Python gives a complex number
    unless the exponent is integral). *)
Definition py_pow (x y : R) : result R :=
  if Rlt_b 0 x then Ok (Rpower x y)
  else if Req_b x 0 then
    if Rlt_b 0 y then Ok 0
    else if Req_b y 0 then Ok 1
    else Raise ZeroDivisionError
  else Raise FloatDomain.

(** [np.sign]. *)
Definition np_sign (x : R) : R :=
  if Rlt_b 0 x then 1 else if Rlt_b x 0 then -1 else 0.

(** [np.finfo(float).eps], the spacing of binary64 at 1. *)
Definition epsilon : R := / 2 ^ 52.

(** ** numpy helpers of the quantizer *)

(** The samples of [np.linspace] for [div = num - 1 >= 1]:
    [start + i * step] with [step = (stop - start) / div], the last one
    set to [stop] itself. *)
Definition linspace_samples (start stop : R) (div : nat) : list R :=
  let step := (stop - start) / INR div in
  map (fun i => start + INR i * step) (seq 0 div) ++ [stop].

(** [np.linspace(start, stop, num)], end point included: a negative [num]
    is refused, no sample for 0, [start] alone for 1. *)
Definition np_linspace (start stop : R) (num : Z) : result (list R) :=
  if (num <? 0)%Z then Raise ValueError
  else
    match Z.to_nat num with
    | O => Ok []
    | S O => Ok [start]
    | S div => Ok (linspace_samples start stop div)
    end.

(** The binary search of [np.searchsorted(a, key, side="right")]: the
    interval [min_idx, max_idx) is halved, going right when
    [a[mid] <= key].  [fuel] bounds the number of halvings. *)
Fixpoint binsearch_right (fuel : nat) (a : list R) (key : R)
    (min_idx max_idx : nat) : nat :=
  match fuel with
  | O => min_idx
  | S fuel' =>
      if (min_idx <? max_idx)%nat then
        let mid := (min_idx + (max_idx - min_idx) / 2)%nat in
        if Rle_b (nth mid a 0) key
        then binsearch_right fuel' a key (mid + 1) max_idx
        else binsearch_right fuel' a key min_idx mid
      else min_idx
  end.

Definition np_searchsorted_right (a : list R) (key : R) : nat :=
  binsearch_right (length a) a key 0 (length a).

(** ** PulseQuantizer: [VoltageConverter] and [LevelsVoltageConverter] *)

Record LevelsVoltageConverter : Type := {
  levels : Z;
  smallest_seen : R;
  largest_seen : R
}.

(** [LevelsVoltageConverter.__init__]. *)
Definition LevelsVoltageConverter_init (levels : Z) : LevelsVoltageConverter :=
  {| levels := levels; smallest_seen := 0; largest_seen := 0 |}.

(** The two updates of the running extremes at the head of
    [LevelsVoltageConverter.__call__]. *)
Definition observe (self : LevelsVoltageConverter) (signal : R)
    : LevelsVoltageConverter :=
  let self1 :=
    if Rlt_b signal (smallest_seen self)
    then {| levels := levels self; smallest_seen := signal;
            largest_seen := largest_seen self |}
    else self in
  if Rlt_b (largest_seen self1) signal
  then {| levels := levels self1; smallest_seen := smallest_seen self1;
          largest_seen := signal |}
  else self1.

(** [LevelsVoltageConverter.__call__]: the count and the updated object. *)
Definition LevelsVoltageConverter_call (self : LevelsVoltageConverter)
    (signal : R) : result Z * LevelsVoltageConverter :=
  let self' := observe self signal in
  (steps <- np_linspace (smallest_seen self') (largest_seen self') (levels self') ;;
   Ok (Z.of_nat (np_searchsorted_right steps signal)),
   self').

(** The object bound to [voltage_converter]: [None] (the default of
    [Memristor]), [lambda x: x] (the default of [MemristorController]),
    a [VoltageConverter] or a [LevelsVoltageConverter]. *)
Inductive converter : Type :=
| NoConverter
| IdentityLambda
| VoltageConverter (levels : Z)
| Levels (c : LevelsVoltageConverter).

(** What [range(self.voltage_converter(signal))] iterates over: the number
    of update steps, and the converter after the call. *)
Definition convert (vc : converter) (signal : R) : result Z * converter :=
  match vc with
  | NoConverter => (Raise TypeError, vc)
  | IdentityLambda => (Raise TypeError, vc)
  | VoltageConverter _ => (Ok 1%Z, vc)
  | Levels c =>
      let '(n, c') := LevelsVoltageConverter_call c signal in (n, Levels c')
  end.

(** The spec's reading of the adaptive quantizer: the 1-based rank of
    [signal] in the partition, the number of partition points that do not
    exceed it. *)
Definition rank_in_partition (steps : list R) (signal : R) : nat :=
  length (filter (fun s => Rle_b s signal) steps).

(** A list of floats in ascending order, by index. *)
Definition ascending (a : list R) : Prop :=
  forall i j, (i <= j)%nat -> (j < length a)%nat -> nth i a 0 <= nth j a 0.

(** [r] splits [a] for [key]: everything before index [r] is at most [key],
    everything from [r] on exceeds it. *)
Definition splits_at (a : list R) (key : R) (r : nat) : Prop :=
  (r <= length a)%nat /\
  (forall i, (i < r)%nat -> nth i a 0 <= key) /\
  (forall i, (r <= i)%nat -> (i < length a)%nat -> key < nth i a 0).

(** The samples of [np.linspace] with at least two points, by index. *)
Definition sample (start stop : R) (div i : nat) : R :=
  if (i =? div)%nat then stop else start + INR i * ((stop - start) / INR div).

(** ** Device laws

    The four subclasses of [Memristor], each with the parameters its
    [__init__] stores.  [r_3] is the upper anchor of the negative branch of
    the two bidirectional laws ([self.r_3 = 1e9], and the local [r3 = 1e9]). *)

Definition r_3 : R := 1e9.

Inductive law : Type :=
| OnedirectionalPowerlawMemristor (a r_0 r_1 : R)
| BidirectionalPowerlawMemristor (a c r_0 r_1 : R)
| MemristorAnouk (r0 r1 a b : R)
| MemristorAnoukBidirectional (r0 r1 a b c d : R).

(** [MemristorAnouk()] and [MemristorAnoukBidirectional()] with the default
    parameters of their [__init__]. *)
Definition MemristorAnouk_default : law :=
  MemristorAnouk 100 (2.5 * 10 ^ 8) (-0.128) (-0.522).

Definition MemristorAnoukBidirectional_default : law :=
  MemristorAnoukBidirectional 100 (2.5 * 10 ^ 8) (-0.128) (-0.522) (-0.128) (-0.522).

(** The attributes [self.r_0] and [self.r_1]. *)
Definition law_r_0 (l : law) : R :=
  match l with
  | OnedirectionalPowerlawMemristor _ r_0 _ => r_0
  | BidirectionalPowerlawMemristor _ _ r_0 _ => r_0
  | MemristorAnouk r0 _ _ _ => r0
  | MemristorAnoukBidirectional r0 _ _ _ _ _ => r0
  end.

Definition law_r_1 (l : law) : R :=
  match l with
  | OnedirectionalPowerlawMemristor _ _ r_1 => r_1
  | BidirectionalPowerlawMemristor _ _ _ r_1 => r_1
  | MemristorAnouk _ r1 _ _ => r1
  | MemristorAnoukBidirectional _ r1 _ _ _ _ => r1
  end.

(** The lower-anchored inversion [((R - r_0) / r_1) ** (1 / e)] and the
    upper-anchored one [((r3 - R) / r3) ** (1 / e)], evaluated left to
    right. *)
Definition invert_lower (Res r_0 r_1 e : R) : result R :=
  x <- py_div (Res - r_0) r_1 ;;
  y <- py_div 1 e ;;
  py_pow x y.

Definition invert_upper (Res e : R) : result R :=
  x <- py_div (r_3 - Res) r_3 ;;
  y <- py_div 1 e ;;
  py_pow x y.

(** [compute_pulse_number(R, V)], the resistance argument written [Res].
    [Ok None] is Python's [None]: the one-directional law has no [return]
    for [V < 0]. *)
Definition compute_pulse_number (self : law) (Res V : R) : result (option R) :=
  match self with
  | OnedirectionalPowerlawMemristor a r_0 r_1 =>
      if Rle_b 0 V
      then n <- invert_lower Res r_0 r_1 a ;; Ok (Some n)
      else Ok None
  | BidirectionalPowerlawMemristor a c r_0 r_1 =>
      if Rle_b 0 V
      then n <- invert_lower Res r_0 r_1 a ;; Ok (Some n)
      else n <- invert_upper Res c ;; Ok (Some n)
  | MemristorAnouk r0 r1 a b =>
      n <- invert_lower Res r0 r1 (a + b * V) ;; Ok (Some n)
  | MemristorAnoukBidirectional r0 r1 a b c d =>
      if Rle_b 0 V
      then n <- invert_lower Res r0 r1 (a + b * V) ;; Ok (Some n)
      else n <- invert_upper Res (c + d * - V) ;; Ok (Some n)
  end.

(** [compute_resistance(n, V)]; [r_curr] is the [self.r_curr] that the
    [else] branches return. *)
Definition compute_resistance (self : law) (r_curr n V : R) : result R :=
  match self with
  | OnedirectionalPowerlawMemristor a r_0 r_1 =>
      if Rlt_b 0 V
      then p <- py_pow n a ;; Ok (r_0 + r_1 * p)
      else Ok r_curr
  | BidirectionalPowerlawMemristor a c r_0 r_1 =>
      if Rlt_b 0 V
      then p <- py_pow n a ;; Ok (r_0 + r_1 * p)
      else if Rlt_b V 0
      then p <- py_pow n c ;; Ok (r_3 - r_3 * p)
      else Ok r_curr
  | MemristorAnouk r0 r1 a b =>
      p <- py_pow n (a + b * V) ;; Ok (r0 + r1 * p)
  | MemristorAnoukBidirectional r0 r1 a b c d =>
      if Rlt_b 0 V
      then p <- py_pow n (a + b * V) ;; Ok (r0 + r1 * p)
      else if Rlt_b V 0
      then p <- py_pow n (c + d * - V) ;; Ok (r_3 - r_3 * p)
      else Ok r_curr
  end.

(** ** Device: [Memristor] *)

Record Memristor : Type := {
  history : list R;
  r_curr : R;
  seed : option Z;
  base_voltage : R;
  gain : R;
  model : law
}.

Definition r_0 (self : Memristor) : R := law_r_0 (model self).
Definition r_1 (self : Memristor) : R := law_r_1 (model self).

Definition set_r_curr (self : Memristor) (r : R) : Memristor :=
  {| history := history self; r_curr := r; seed := seed self;
     base_voltage := base_voltage self; gain := gain self;
     model := model self |}.

(** [get_state(value, scaled, gain)].  [ret_val] is bound only under one of
    the two selectors; reading it unbound raises [UnboundLocalError]. *)
Definition get_state (self : Memristor) (value : string) (scaled : bool)
    (gain : R) : result R :=
  ret_val <-
    (if String.eqb value "conductance" then
       g_curr <- py_div 1 (r_curr self) ;;
       g_min <- py_div 1 (r_1 self) ;;
       g_max <- py_div 1 (r_0 self) ;;
       if scaled
       then q <- py_div (g_curr - g_min) (g_max - g_min) ;; Ok (Some (q + epsilon))
       else Ok (Some (g_curr + epsilon))
     else Ok None) ;;
  ret_val <-
    (if String.eqb value "resistance" then
       if scaled
       then q <- py_div (r_curr self - r_0 self) (r_1 self - r_0 self) ;;
            Ok (Some (q + epsilon))
       else Ok (Some (r_curr self + epsilon))
     else Ok ret_val) ;;
  match ret_val with
  | Some v => Ok (gain * v)
  | None => Raise UnboundLocalError
  end.

(** The default [gain=1e5] of [Memristor.get_state] and the default
    [gain=10**4] of [MemristorPair.get_state]. *)
Definition gain_default : R := 1e5.
Definition pair_gain_default : R := 10 ^ 4.

(** [get_state()] with the defaults of [Memristor.get_state]. *)
Definition get_state_default (self : Memristor) : result R :=
  get_state self "conductance" true gain_default.

(** [save_state()]. *)
Definition save_state (self : Memristor) : Memristor :=
  {| history := history self ++ [r_curr self]; r_curr := r_curr self;
     seed := seed self; base_voltage := base_voltage self;
     gain := gain self; model := model self |}.

(** The body of the [for] loop of [pulse], run [num_steps] times; the
    device is returned as the last assignment left it. *)
Fixpoint pulse_steps (num_steps : nat) (V : R) (self : Memristor)
    : result unit * Memristor :=
  match num_steps with
  | O => (Ok tt, self)
  | S k =>
      match compute_pulse_number (model self) (r_curr self) V with
      | Raise e => (Raise e, self)
      | Ok None => (Raise TypeError, self)
      | Ok (Some pulse_number) =>
          match compute_resistance (model self) (r_curr self) (pulse_number + 1) V with
          | Raise e => (Raise e, self)
          | Ok r => pulse_steps k V (set_r_curr self r)
          end
      end
  end.

(** [pulse(signal)]: the returned state, the device and the shared
    quantizer after the call.  [base_voltage] is a float; a device left
    with [base_voltage=None], the default of the two power-law classes,
    raises [TypeError] at the product for every signal and is outside the
    model. *)
Definition pulse (self : Memristor) (signal : R) (vc : converter)
    : result R * Memristor * converter :=
  let V := np_sign signal * base_voltage self in
  let '(num_steps, vc') :=
    if Req_b signal 0 then (Ok 0%Z, vc) else convert vc signal in
  match num_steps with
  | Raise e => (Raise e, self, vc')
  | Ok n =>
      match pulse_steps (Z.to_nat n) V self with
      | (Raise e, self') => (Raise e, self', vc')
      | (Ok _, self') => (get_state self' "conductance" true (gain self'), self', vc')
      end
  end.

(** ** DifferentialPair: [MemristorPair] and its two policies *)

Inductive pair_class : Type :=
| MemristorPairBase
| MemristorPlusMinus
| MemristorComplementary.

Record MemristorPair : Type := {
  policy : pair_class;
  mem_one : Memristor;
  mem_two : Memristor;
  pair_seed : option Z
}.

Definition set_mem_one (self : MemristorPair) (m : Memristor) : MemristorPair :=
  {| policy := policy self; mem_one := m; mem_two := mem_two self;
     pair_seed := pair_seed self |}.

Definition set_mem_two (self : MemristorPair) (m : Memristor) : MemristorPair :=
  {| policy := policy self; mem_one := mem_one self; mem_two := m;
     pair_seed := pair_seed self |}.

(** [MemristorPair.get_state(value, scaled, gain)]. *)
Definition pair_get_state (self : MemristorPair) (value : string)
    (scaled : bool) (gain : R) : result R :=
  g_one <- get_state (mem_one self) value scaled gain ;;
  g_two <- get_state (mem_two self) value scaled gain ;;
  Ok (g_one - g_two).

(** [get_state()] with the defaults of [MemristorPair.get_state]. *)
Definition pair_get_state_default (self : MemristorPair) : result R :=
  pair_get_state self "conductance" true pair_gain_default.

(** [MemristorPair.save_state()]. *)
Definition pair_save_state (self : MemristorPair) : MemristorPair :=
  {| policy := policy self; mem_one := save_state (mem_one self);
     mem_two := save_state (mem_two self); pair_seed := pair_seed self |}.

(** [self.mem_one.pulse(signal)] and [self.mem_two.pulse(signal)], the
    returned state dropped. *)
Definition pulse_one (signal : R) (st : MemristorPair * converter)
    : result unit * (MemristorPair * converter) :=
  let '(self, vc) := st in
  let '(r, m, vc') := pulse (mem_one self) signal vc in
  (_ <- r ;; Ok tt, (set_mem_one self m, vc')).

Definition pulse_two (signal : R) (st : MemristorPair * converter)
    : result unit * (MemristorPair * converter) :=
  let '(self, vc) := st in
  let '(r, m, vc') := pulse (mem_two self) signal vc in
  (_ <- r ;; Ok tt, (set_mem_two self m, vc')).

(** Statement sequencing with a threaded state: the second statement runs
    only when the first did not raise. *)
Definition seq_ {S : Type} (f g : S -> result unit * S) (s : S)
    : result unit * S :=
  match f s with
  | (Ok _, s') => g s'
  | (Raise e, s') => (Raise e, s')
  end.

Definition skip {S : Type} (s : S) : result unit * S := (Ok tt, s).

(** The [return] of both policies:
    [self.mem_one.get_state() - self.mem_two.get_state()]. *)
Definition pair_difference (self : MemristorPair) : result R :=
  g_one <- get_state_default (mem_one self) ;;
  g_two <- get_state_default (mem_two self) ;;
  Ok (g_one - g_two).

(** The statements of [pulse] before its [return], by class. *)
Definition pair_pulse_body (c : pair_class) (signal : R)
    : MemristorPair * converter -> result unit * (MemristorPair * converter) :=
  match c with
  | MemristorPairBase => fun st => (Raise NotImplementedError, st)
  | MemristorPlusMinus =>
      seq_ (if Rlt_b 0 signal then pulse_one signal else skip)
           (if Rlt_b signal 0 then pulse_two (- signal) else skip)
  | MemristorComplementary =>
      seq_ (if Rlt_b 0 signal
            then seq_ (pulse_one signal) (pulse_two (- signal)) else skip)
           (if Rlt_b signal 0
            then seq_ (pulse_one (- signal)) (pulse_two signal) else skip)
  end.

(** [MemristorPair.pulse(signal)], dispatched on the class. *)
Definition pair_pulse (self : MemristorPair) (signal : R) (vc : converter)
    : result R * MemristorPair * converter :=
  match pair_pulse_body (policy self) signal (self, vc) with
  | (Raise e, (self', vc')) => (Raise e, self', vc')
  | (Ok _, (self', vc')) => (pair_difference self', self', vc')
  end.

(** ** Vocabulary of the device properties *)

(** A device whose read-out divides by nothing that is zero. *)
Definition nondegenerate (self : Memristor) : Prop :=
  r_curr self <> 0 /\ r_0 self <> 0 /\ r_1 self <> 0 /\ r_0 self <> r_1 self.

(** The scaled conductance of a device, before the gain is applied. *)
Definition scaled_conductance (self : Memristor) : R :=
  (1 / r_curr self - 1 / r_1 self) / (1 / r_0 self - 1 / r_1 self).

(** The voltage [pulse] computes for a signal. *)
Definition voltage (self : Memristor) (signal : R) : R :=
  np_sign signal * base_voltage self.

(** The direction a law moves the resistance in under voltage [V], read off
    the branches of [compute_pulse_number] and [compute_resistance]:
    falling towards a lower anchor, rising towards an upper anchor, or not
    moving at all. *)
Inductive trend : Type :=
| Falling (lower : R)
| Rising (upper : R)
| Frozen.

Definition law_trend (l : law) (V : R) : trend :=
  match l with
  | OnedirectionalPowerlawMemristor _ r_0 _ =>
      if Rlt_b 0 V then Falling r_0 else Frozen
  | BidirectionalPowerlawMemristor _ _ r_0 _ =>
      if Rlt_b 0 V then Falling r_0
      else if Rlt_b V 0 then Rising r_3 else Frozen
  | MemristorAnouk r0 _ _ _ => Falling r0
  | MemristorAnoukBidirectional r0 _ _ _ _ _ =>
      if Rlt_b 0 V then Falling r0
      else if Rlt_b V 0 then Rising r_3 else Frozen
  end.

(** The law is a fit of negative exponent with a positive scale: the
    exponent of the branch that voltage [V] selects is negative. *)
Definition law_ok (l : law) (V : R) : Prop :=
  match l with
  | OnedirectionalPowerlawMemristor a _ r_1 => 0 < r_1 /\ a < 0
  | BidirectionalPowerlawMemristor a c _ r_1 => 0 < r_1 /\ a < 0 /\ c < 0
  | MemristorAnouk _ r1 a b => 0 < r1 /\ a + b * V < 0
  | MemristorAnoukBidirectional _ r1 a b c d =>
      0 < r1 /\ (0 < V -> a + b * V < 0) /\ (V < 0 -> c + d * - V < 0)
  end.

(** The resistance is on the inner side of the anchor it moves towards. *)
Definition within (t : trend) (r : R) : Prop :=
  match t with
  | Falling lower => lower < r
  | Rising upper => r < upper
  | Frozen => True
  end.

(** [r'] follows [r] in direction [t] without crossing the anchor. *)
Definition follows (t : trend) (r r' : R) : Prop :=
  match t with
  | Falling lower => lower < r' <= r
  | Rising upper => r <= r' < upper
  | Frozen => r' = r
  end.

(** Repeated calls of [pulse], one per signal: the resistance after each
    call. *)
Fixpoint pulse_train (signals : list R) (self : Memristor) (vc : converter)
    : list R :=
  match signals with
  | [] => []
  | signal :: rest =>
      let '(_, self', vc') := pulse self signal vc in
      r_curr self' :: pulse_train rest self' vc'
  end.

(** Every element of the list is related to the next one. *)
Fixpoint chain (rel : R -> R -> Prop) (l : list R) : Prop :=
  match l with
  | x :: (y :: _) as rest => rel x y /\ chain rel rest
  | _ => True
  end.

(** ** Concrete devices used as examples *)

(** A [MemristorAnouk()] at the low end of the initial range. *)
Definition anouk_device : Memristor :=
  {| history := []; r_curr := 1e8; seed := Some 0%Z; base_voltage := 1e-1;
     gain := 1e5; model := MemristorAnouk_default |}.

(** A plus-minus pair of two default [MemristorAnouk] devices. *)
Definition anouk_pair : MemristorPair :=
  {| policy := MemristorPlusMinus; mem_one := anouk_device;
     mem_two := anouk_device; pair_seed := Some 0%Z |}.

(** An [OnedirectionalPowerlawMemristor(a=-0.1, r_0=100, r_1=2.5e8)]. *)
Definition onedirectional_device : Memristor :=
  {| history := []; r_curr := 1e8; seed := Some 0%Z; base_voltage := 1e-1;
     gain := 1e5; model := OnedirectionalPowerlawMemristor (-0.1) 100 2.5e8 |}.

(** ** Weight initialisation: the module-level generator of [random]

    [random.seed(s)] with an int [s] makes the next [random.random()] a
    function of [s]; [random.seed(None)] reseeds from the operating system,
    so the next draw is whatever the system supplies at that moment.  The
    two sources are inputs of the embedding: [seeded s] is the draw that
    follows [random.seed(s)], [unseeded k] the draw that follows the [k]-th
    [random.seed(None)] of the run, and [reseeds] counts those. *)

Record randomness : Type := {
  seeded : Z -> R;
  unseeded : nat -> R;
  reseeds : nat
}.

(** [random.seed(seed); random.uniform(a, b)], which is
    [a + (b - a) * random.random()]. *)
Definition seed_uniform (seed : option Z) (a b : R) (w : randomness)
    : R * randomness :=
  match seed with
  | Some s => (a + (b - a) * seeded w s, w)
  | None =>
      (a + (b - a) * unseeded w (reseeds w),
       {| seeded := seeded w; unseeded := unseeded w; reseeds := S (reseeds w) |})
  end.

(** [Memristor.__init__], reached through the [__init__] of the law [l]. *)
Definition Memristor_init (l : law) (seed : option Z) (base_voltage gain : R)
    (w : randomness) : Memristor * randomness :=
  let '(r, w') := seed_uniform seed 1e8 1.1e8 w in
  ({| history := []; r_curr := r; seed := seed; base_voltage := base_voltage;
      gain := gain; model := l |}, w').

(** [MemristorPair.__init__], reached through the [__init__] of the class
    [c]: two devices of the same law, made one after the other with the
    same arguments. *)
Definition MemristorPair_init (c : pair_class) (l : law) (seed : option Z)
    (base_voltage gain : R) (w : randomness) : MemristorPair * randomness :=
  let '(one, w1) := Memristor_init l seed base_voltage gain w in
  let '(two, w2) := Memristor_init l seed base_voltage gain w1 in
  ({| policy := c; mem_one := one; mem_two := two; pair_seed := seed |}, w2).

(** ** ArrayController: [MemristorController] and [MemristorArray] *)

(** An element of [memristors]: a device or a pair. *)
Inductive component : Type :=
| Device (m : Memristor)
| Pair (p : MemristorPair).

(** The callable passed as [model]: a device class with its law
    parameters bound, or a pair class with its device class bound. *)
Inductive memristor_model : Type :=
| DeviceModel (l : law)
| PairModel (c : pair_class) (l : law).

(** [self.memristor_model(seed=..., voltage_converter=..., base_voltage=...,
    gain=...)]. *)
Definition make_component (mm : memristor_model) (seed : option Z)
    (base_voltage gain : R) (w : randomness) : component * randomness :=
  match mm with
  | DeviceModel l =>
      let '(m, w') := Memristor_init l seed base_voltage gain w in (Device m, w')
  | PairModel c l =>
      let '(p, w') := MemristorPair_init c l seed base_voltage gain w in (Pair p, w')
  end.

(** Method dispatch on an element. *)
Definition component_pulse (c : component) (signal : R) (vc : converter)
    : result R * component * converter :=
  match c with
  | Device m => let '(r, m', vc') := pulse m signal vc in (r, Device m', vc')
  | Pair p => let '(r, p', vc') := pair_pulse p signal vc in (r, Pair p', vc')
  end.

Definition component_get_state (c : component) (value : string)
    (scaled : bool) (gain : R) : result R :=
  match c with
  | Device m => get_state m value scaled gain
  | Pair p => pair_get_state p value scaled gain
  end.

(** [get_state()]: each class fills in its own defaults. *)
Definition component_get_state_default (c : component) : result R :=
  match c with
  | Device m => get_state_default m
  | Pair p => pair_get_state_default p
  end.

Definition component_save_state (c : component) : component :=
  match c with
  | Device m => Device (save_state m)
  | Pair p => Pair (pair_save_state p)
  end.

(** *** Two-dimensional arrays *)

Definition matrix (A : Type) : Type := list (list A).

(** [m[j, i]] as an expression. *)
Definition mat_get {A : Type} (m : matrix A) (j i : nat) : result A :=
  match nth_error m j with
  | Some row =>
      match nth_error row i with
      | Some v => Ok v
      | None => Raise IndexError
      end
  | None => Raise IndexError
  end.

Fixpoint list_set {A : Type} (l : list A) (i : nat) (v : A) : list A :=
  match l, i with
  | [], _ => []
  | _ :: rest, O => v :: rest
  | x :: rest, S i' => x :: list_set rest i' v
  end.

(** [m[j, i] = v]. *)
Definition mat_set {A : Type} (m : matrix A) (j i : nat) (v : A)
    : result (matrix A) :=
  match nth_error m j with
  | Some row =>
      if (i <? length row)%nat then Ok (list_set m j (list_set row i v))
      else Raise IndexError
  | None => Raise IndexError
  end.

(** [np.zeros((rows, cols))]. *)
Definition np_zeros (rows cols : nat) : matrix R := repeat (repeat 0 cols) rows.

(** The inner product of a row with a vector of the same length. *)
Definition dot (row v : list R) : R :=
  fold_right Rplus 0 (map (fun p => fst p * snd p) (combine row v)).

(** [np.dot(m, v)] for [m] of shape [(rows, cols)]: the shapes must be
    aligned. *)
Definition np_dot (cols : nat) (m : matrix R) (v : list R) : result (list R) :=
  if (cols =? length v)%nat then Ok (map (fun row => dot row v) m)
  else Raise ValueError.

(** [np.rint]: round to the nearest integer, halves to the even one. *)
Definition np_rint (x : R) : Z :=
  let n := Int_part x in
  let f := frac_part x in
  if Rlt_b f (1 / 2) then n
  else if Rlt_b (1 / 2) f then (n + 1)%Z
  else if Z.even n then n else (n + 1)%Z.

(** A [for] loop over a list of indices with a threaded state; an
    exception ends it. *)
Fixpoint for_each {S : Type} (idx : list nat) (body : nat -> S -> result unit * S)
    (s : S) : result unit * S :=
  match idx with
  | [] => (Ok tt, s)
  | k :: rest =>
      match body k s with
      | (Ok _, s') => for_each rest body s'
      | (Raise e, s') => (Raise e, s')
      end
  end.

(** [range(n)]. *)
Definition range (n : nat) : list nat := seq 0 n.

(** *** The learning rule

    The rule is an external collaborator.  It shares three objects with the
    controller, [weights], [memristors] and the quantizer, and has
    attributes of its own. *)

Record shared : Type := {
  weights : matrix R;
  memristors : matrix component;
  voltage_converter : converter
}.

Class LearningRule (rule : Type) : Type := {
  has_learning_signal : rule -> bool;
  has_error_signal : rule -> bool;
  rule_call : rule -> R -> list R -> shared -> result (list R) * (rule * shared);
  get_error_signal : rule -> result (list R)
}.

(** *** The controller *)

Record MemristorArray (rule : Type) : Type := {
  memristor_model_ : memristor_model;
  input_size : nat;
  output_size : nat;
  dt : R;
  store : shared;
  array_base_voltage : R;
  array_gain : R;
  learning_rule : rule;
  logging : bool;
  weight_history : list (matrix R);
  error_history : list (list R);
  conductance_history : list (matrix R);
  array_seed : option Z
}.

Arguments memristor_model_ {rule} _.
Arguments input_size {rule} _.
Arguments output_size {rule} _.
Arguments dt {rule} _.
Arguments store {rule} _.
Arguments array_base_voltage {rule} _.
Arguments array_gain {rule} _.
Arguments learning_rule {rule} _.
Arguments logging {rule} _.
Arguments weight_history {rule} _.
Arguments error_history {rule} _.
Arguments conductance_history {rule} _.
Arguments array_seed {rule} _.

(** The inner loop of [MemristorArray.__init__] for one row: the devices
    and their initial weights, in column order. *)
Fixpoint init_row (cols : nat) (mm : memristor_model) (seed : option Z)
    (base_voltage gain : R) (w : randomness)
    : result (list component * list R) * randomness :=
  match cols with
  | O => (Ok ([], []), w)
  | S cols' =>
      let '(c, w1) := make_component mm seed base_voltage gain w in
      match component_get_state_default c with
      | Raise e => (Raise e, w1)
      | Ok g =>
          match init_row cols' mm seed base_voltage gain w1 with
          | (Ok (cs, gs), w2) => (Ok (c :: cs, g :: gs), w2)
          | (Raise e, w2) => (Raise e, w2)
          end
      end
  end.

(** The outer loop: the rows in order. *)
Fixpoint init_rows (rows cols : nat) (mm : memristor_model) (seed : option Z)
    (base_voltage gain : R) (w : randomness)
    : result (matrix component * matrix R) * randomness :=
  match rows with
  | O => (Ok ([], []), w)
  | S rows' =>
      match init_row cols mm seed base_voltage gain w with
      | (Raise e, w1) => (Raise e, w1)
      | (Ok (cs, gs), w1) =>
          match init_rows rows' cols mm seed base_voltage gain w1 with
          | (Ok (ms, ws), w2) => (Ok (cs :: ms, gs :: ws), w2)
          | (Raise e, w2) => (Raise e, w2)
          end
      end
  end.

(** [MemristorArray.__init__].  The two loops fill the preallocated
    [memristors] and [weights] in row-major order; the embedding builds the
    rows in that order.  [logging] and [dt] keep the defaults of
    [MemristorController.__init__], which [MemristorArray] does not
    forward.  The constructor also writes [input_size], [output_size],
    [logging], [weight_modifier] and [dt] onto the rule object; these are
    attributes of the rule, not of the array, and [learning_rule] stands
    for the rule with them written: a rule of the model carries the sizes
    it is bound to. *)
Definition MemristorArray_init {rule : Type} (mm : memristor_model)
    (learning_rule : rule) (in_size out_size : nat) (seed : option Z)
    (vc : converter) (base_voltage gain : R) (w : randomness)
    : result (MemristorArray rule) * randomness :=
  match init_rows out_size in_size mm seed base_voltage gain w with
  | (Raise e, w') => (Raise e, w')
  | (Ok (ms, ws), w') =>
      (Ok {| memristor_model_ := mm; input_size := in_size;
             output_size := out_size; dt := 0.001;
             store := {| weights := ws; memristors := ms; voltage_converter := vc |};
             array_base_voltage := base_voltage; array_gain := gain;
             learning_rule := learning_rule; logging := true;
             weight_history := []; error_history := [];
             conductance_history := []; array_seed := seed |}, w')
  end.

Definition with_rule_store {rule : Type} (self : MemristorArray rule)
    (lr : rule) (st : shared) : MemristorArray rule :=
  {| memristor_model_ := memristor_model_ self; input_size := input_size self;
     output_size := output_size self; dt := dt self; store := st;
     array_base_voltage := array_base_voltage self; array_gain := array_gain self;
     learning_rule := lr; logging := logging self;
     weight_history := weight_history self; error_history := error_history self;
     conductance_history := conductance_history self;
     array_seed := array_seed self |}.

Definition with_memristors {rule : Type} (self : MemristorArray rule)
    (ms : matrix component) : MemristorArray rule :=
  with_rule_store self (learning_rule self)
    {| weights := weights (store self); memristors := ms;
       voltage_converter := voltage_converter (store self) |}.

Definition with_histories {rule : Type} (self : MemristorArray rule)
    (wh : list (matrix R)) (eh : list (list R)) (ch : list (matrix R))
    : MemristorArray rule :=
  {| memristor_model_ := memristor_model_ self; input_size := input_size self;
     output_size := output_size self; dt := dt self; store := store self;
     array_base_voltage := array_base_voltage self; array_gain := array_gain self;
     learning_rule := learning_rule self; logging := logging self;
     weight_history := wh; error_history := eh; conductance_history := ch;
     array_seed := array_seed self |}.

(** [x[-1]]. *)
Definition last_item (x : list R) : result R :=
  match x with
  | [] => Raise IndexError
  | _ => Ok (last x 0)
  end.

(** The first half of [MemristorArray.__call__]: the [if]/[else] that
    computes [ret]. *)
Definition forward {rule : Type} `{LearningRule rule}
    (self : MemristorArray rule) (t : R) (x : list R)
    : result (list R) * MemristorArray rule :=
  let lr := learning_rule self in
  if has_learning_signal lr then
    let input_activities := removelast x in
    match last_item x with
    | Raise e => (Raise e, self)
    | Ok flag =>
        let learning := np_rint flag in
        if negb (learning =? 0)%Z then
          let '(ret, (lr', st')) := rule_call lr t input_activities (store self) in
          (ret, with_rule_store self lr' st')
        else if has_error_signal lr then
          (np_dot (input_size self) (weights (store self))
                  (firstn (input_size self) input_activities), self)
        else
          (np_dot (input_size self) (weights (store self)) input_activities, self)
    end
  else
    let '(ret, (lr', st')) := rule_call lr t x (store self) in
    (ret, with_rule_store self lr' st').

(** [self.memristors[j, i].save_state()]. *)
Definition save_state_at (j i : nat) (ms : matrix component)
    : result unit * matrix component :=
  match mat_get ms j i with
  | Raise e => (Raise e, ms)
  | Ok c =>
      match mat_set ms j i (component_save_state c) with
      | Ok ms' => (Ok tt, ms')
      | Raise e => (Raise e, ms)
      end
  end.

(** [MemristorController.save_state]: [j] runs over the rows, [i] over the
    columns. *)
Definition controller_save_state (out_size in_size : nat) (ms : matrix component)
    : result unit * matrix component :=
  for_each (range out_size)
    (fun j => for_each (range in_size) (fun i => save_state_at j i)) ms.

(** [conductances[j, i] = self.memristors[j, i].get_state(
    value="conductance", scaled=False, gain=1)]. *)
Definition conductance_at (ms : matrix component) (j i : nat) (acc : matrix R)
    : result unit * matrix R :=
  match mat_get ms j i with
  | Raise e => (Raise e, acc)
  | Ok c =>
      match component_get_state c "conductance" false 1 with
      | Raise e => (Raise e, acc)
      | Ok g =>
          match mat_set acc j i g with
          | Ok acc' => (Ok tt, acc')
          | Raise e => (Raise e, acc)
          end
      end
  end.

(** The loop that fills [conductances]: here [i] runs over
    [range(self.output_size)] and [j] over [range(self.input_size)], and the
    element read and written is [[j, i]]. *)
Definition read_conductances (out_size in_size : nat) (ms : matrix component)
    : result (matrix R) :=
  match
    for_each (range out_size)
      (fun i => for_each (range in_size) (fun j => conductance_at ms j i))
      (np_zeros out_size in_size)
  with
  | (Ok _, acc) => Ok acc
  | (Raise e, _) => Raise e
  end.

(** The second half of [__call__]: the [if self.logging:] block. *)
Definition log_call {rule : Type} `{LearningRule rule} (self : MemristorArray rule)
    : result unit * MemristorArray rule :=
  if logging self then
    let self1 :=
      match get_error_signal (learning_rule self) with
      | Ok e => with_histories self (weight_history self) (error_history self ++ [e])
                               (conductance_history self)
      | Raise _ => self
      end in
    let self2 :=
      with_histories self1 (weight_history self1 ++ [weights (store self1)])
                     (error_history self1) (conductance_history self1) in
    match controller_save_state (output_size self2) (input_size self2)
                                (memristors (store self2)) with
    | (Raise e, ms) => (Raise e, with_memristors self2 ms)
    | (Ok _, ms) =>
        let self3 := with_memristors self2 ms in
        match read_conductances (output_size self3) (input_size self3)
                                (memristors (store self3)) with
        | Raise e => (Raise e, self3)
        | Ok conductances =>
            (Ok tt,
             with_histories self3 (weight_history self3) (error_history self3)
                            (conductance_history self3 ++ [conductances]))
        end
    end
  else (Ok tt, self).

(** [MemristorArray.__call__(t, x)]. *)
Definition MemristorArray_call {rule : Type} `{LearningRule rule}
    (self : MemristorArray rule) (t : R) (x : list R)
    : result (list R) * MemristorArray rule :=
  match forward self t x with
  | (Raise e, self1) => (Raise e, self1)
  | (Ok ret, self1) =>
      match log_call self1 with
      | (Raise e, self2) => (Raise e, self2)
      | (Ok _, self2) => (Ok ret, self2)
      end
  end.

(** What [get_history] can return: one of the three histories, or [None]
    when control falls off the end of the function. *)
Inductive history_value : Type :=
| Weights (h : list (matrix R))
| Errors (h : list (list R))
| Conductances (h : list (matrix R))
| PyNone.

(** [MemristorController.get_history(select)]. *)
Definition get_history {rule : Type} (self : MemristorArray rule)
    (select : string) : result history_value :=
  if String.eqb select "weight" then Ok (Weights (weight_history self))
  else if String.eqb select "error" then Ok (Errors (error_history self))
  else if String.eqb select "conductance" then Ok (Conductances (conductance_history self))
  else Ok PyNone.

(** *** The learning rule, from the spec

    Modelled from the spec: the learning rule, whose module
    [MemristorLearningRules] is not among the sources.  The spec has the
    rule compute per-element drive signals, invoke [pulse] on the
    corresponding devices or pairs, update [weights[j, i]] synchronously
    with every device it pulses, and return an output-sized vector, "e.g. by
    a forward pass using updated weights".  The drive signals are a
    parameter; each command [(j, i, signal)] runs
    [weights[j, i] = memristors[j, i].pulse(signal)]. *)

Record PulsingRule : Type := {
  consumes_flag : bool;
  produces_error : bool;
  rule_input_size : nat;
  drive : R -> list R -> matrix R -> list (nat * nat * R);
  error_signal : result (list R)
}.

Definition pulse_element (cmd : nat * nat * R) (st : shared)
    : result unit * shared :=
  let '(j, i, signal) := cmd in
  match mat_get (memristors st) j i with
  | Raise e => (Raise e, st)
  | Ok c =>
      let '(r, c', vc') := component_pulse c signal (voltage_converter st) in
      match mat_set (memristors st) j i c' with
      | Raise e => (Raise e, st)
      | Ok ms' =>
          let st1 := {| weights := weights st; memristors := ms';
                        voltage_converter := vc' |} in
          match r with
          | Raise e => (Raise e, st1)
          | Ok w =>
              match mat_set (weights st1) j i w with
              | Raise e => (Raise e, st1)
              | Ok ws' =>
                  (Ok tt, {| weights := ws'; memristors := ms';
                             voltage_converter := vc' |})
              end
          end
      end
  end.

Fixpoint pulse_elements (cmds : list (nat * nat * R)) (st : shared)
    : result unit * shared :=
  match cmds with
  | [] => (Ok tt, st)
  | cmd :: rest =>
      match pulse_element cmd st with
      | (Ok _, st') => pulse_elements rest st'
      | (Raise e, st') => (Raise e, st')
      end
  end.

Definition PulsingRule_call (self : PulsingRule) (t : R) (x : list R)
    (st : shared) : result (list R) * (PulsingRule * shared) :=
  match pulse_elements (drive self t x (weights st)) st with
  | (Raise e, st') => (Raise e, (self, st'))
  | (Ok _, st') =>
      (np_dot (rule_input_size self) (weights st')
              (firstn (rule_input_size self) x), (self, st'))
  end.

#[export] Instance PulsingRule_LearningRule : LearningRule PulsingRule := {
  has_learning_signal := consumes_flag;
  has_error_signal := produces_error;
  rule_call := PulsingRule_call;
  get_error_signal := error_signal
}.

(** ** Vocabulary of the array invariant *)

(** What a pulse reports as the state of an element: the scaled
    conductance at the device's own gain, or the difference of the two
    members' scaled conductances at the default gain. *)
Definition reported_state (c : component) : result R :=
  match c with
  | Device m => get_state m "conductance" true (gain m)
  | Pair p => pair_difference p
  end.

(** The gain of a single device is the default gain of [get_state]. *)
Definition gain_is_default (c : component) : Prop :=
  match c with
  | Device m => gain m = gain_default
  | Pair _ => True
  end.

(** Weight [w] is the live read-out of element [c]. *)
Definition in_step (c : component) (w : R) : Prop :=
  reported_state c = Ok w /\ gain_is_default c.

(** The array invariant: [weights] and [memristors] have one shape, and
    every weight is the live read-out of its element. *)
Definition synced (st : shared) : Prop :=
  Forall2 (Forall2 in_step) (memristors st) (weights st).

(** ** Concrete arrays and generators used as examples *)

(** A generator whose seeded draws are all 0 and whose [k]-th unseeded draw
    is [k / 2]: the first two devices made without a seed start at [1e8] and
    [1.05e8]. *)
Definition two_draws : randomness :=
  {| seeded := fun _ => 0; unseeded := fun k => INR k / 2; reseeds := 0 |}.

(** A rule with a learning-phase flag and no error signal that pulses
    nothing. *)
Definition idle_rule : PulsingRule :=
  {| consumes_flag := true; produces_error := false; rule_input_size := 2;
     drive := fun _ _ _ => []; error_signal := Raise NotImplementedError |}.

(** A rule without a learning-phase flag that pulses element [(0, 0)] with
    signal 1 at every call. *)
Definition one_pulse_rule : PulsingRule :=
  {| consumes_flag := false; produces_error := false; rule_input_size := 1;
     drive := fun _ _ _ => [(0%nat, 0%nat, 1)];
     error_signal := Raise NotImplementedError |}.

(** A 2x2 array whose weights have been set to [[1, 2], [3, 4]]. *)
Definition square_array : MemristorArray PulsingRule :=
  {| memristor_model_ := DeviceModel MemristorAnouk_default;
     input_size := 2; output_size := 2; dt := 0.001;
     store := {| weights := [[1; 2]; [3; 4]];
                 memristors := [[Device anouk_device; Device anouk_device];
                                [Device anouk_device; Device anouk_device]];
                 voltage_converter := VoltageConverter 1 |};
     array_base_voltage := 1e-1; array_gain := 1e5;
     learning_rule := idle_rule; logging := true;
     weight_history := []; error_history := []; conductance_history := [];
     array_seed := Some 0%Z |}.

(** An array with one input and two outputs. *)
Definition tall_array : MemristorArray PulsingRule :=
  {| memristor_model_ := DeviceModel MemristorAnouk_default;
     input_size := 1; output_size := 2; dt := 0.001;
     store := {| weights := [[1]; [2]];
                 memristors := [[Device anouk_device]; [Device anouk_device]];
                 voltage_converter := VoltageConverter 1 |};
     array_base_voltage := 1e-1; array_gain := 1e5;
     learning_rule := idle_rule; logging := true;
     weight_history := []; error_history := []; conductance_history := [];
     array_seed := Some 0%Z |}.

(** The seed pins the initial read-out of an element: a single device
    always reads what [get_state()] says, a pair needs an int seed for its
    two members to start from the same draw. *)
Definition seed_pins (mm : memristor_model) (seed : option Z) : Prop :=
  match mm with
  | DeviceModel _ => True
  | PairModel _ _ => seed <> None
  end.

(** The controllers under consideration: built with the default gain [1e5]
    around a rule that pulses, and then invoked any number of times, every
    invocation getting as far as producing its value. *)
Inductive reachable : MemristorArray PulsingRule -> Prop :=
| after_init (mm : memristor_model) (lr : PulsingRule) (in_size out_size : nat)
    (seed : option Z) (vc : converter) (base_voltage : R) (w : randomness)
    (arr : MemristorArray PulsingRule) :
    seed_pins mm seed ->
    fst (MemristorArray_init mm lr in_size out_size seed vc base_voltage gain_default w) = Ok arr ->
    reachable arr
| after_call (arr : MemristorArray PulsingRule) (t : R) (x : list R) :
    reachable arr ->
    is_ok (fst (forward arr t x)) = true ->
    reachable (snd (MemristorArray_call arr t x)).

(** The device [MemristorAnouk(seed=0, base_voltage=1e-1, gain=g)] when the
    seeded draw is 0, and the 1x1 array that [MemristorArray] builds around
    it. *)
Definition built_device (g : R) : Memristor :=
  {| history := []; r_curr := 1e8 + (1.1e8 - 1e8) * 0; seed := Some 0%Z;
     base_voltage := 1e-1; gain := g; model := MemristorAnouk_default |}.

Definition built_array (g : R) : MemristorArray PulsingRule :=
  {| memristor_model_ := DeviceModel MemristorAnouk_default;
     input_size := 1; output_size := 1; dt := 0.001;
     store := {| weights := [[gain_default * (scaled_conductance (built_device g) + epsilon)]];
                 memristors := [[Device (built_device g)]];
                 voltage_converter := VoltageConverter 1 |};
     array_base_voltage := 1e-1; array_gain := g;
     learning_rule := one_pulse_rule; logging := true;
     weight_history := []; error_history := []; conductance_history := [];
     array_seed := Some 0%Z |}.

(** A trend that moves. *)
Definition moving (t : trend) : Prop :=
  match t with
  | Frozen => False
  | _ => True
  end.

(** ** Vocabulary of the Infer mode *)

(** The resistances an element holds. *)
Definition resistances (c : component) : list R :=
  match c with
  | Device m => [r_curr m]
  | Pair p => [r_curr (mem_one p); r_curr (mem_two p)]
  end.

Definition same_resistances (c' c : component) : Prop :=
  resistances c' = resistances c.

(** The input vector without its trailing flag, and without the error
    components when the rule has an error signal. *)
Definition stripped {rule : Type} `{LearningRule rule}
    (self : MemristorArray rule) (x : list R) : list R :=
  if has_error_signal (learning_rule self)
  then firstn (input_size self) (removelast x)
  else removelast x.

(** ** Vocabulary of further device properties *)

(** [r'] is strictly further than [r] in direction [t], short of the
    anchor. *)
Definition advances (t : trend) (r r' : R) : Prop :=
  match t with
  | Falling lower => lower < r' < r
  | Rising upper => r < r' < upper
  | Frozen => False
  end.

(** The device a call of [pulse] leaves, and the quantizer it leaves. *)
Definition device_after (x : result R * Memristor * converter) : Memristor :=
  snd (fst x).

Definition converter_after {A B : Type} (x : A * B * converter) : converter :=
  snd x.

(** ** Vocabulary of further quantizer properties *)

(** Successive calls of one [LevelsVoltageConverter], one per signal: the
    counts returned, and the object after the last call. *)
Fixpoint feed (signals : list R) (self : LevelsVoltageConverter)
    : list (result Z) * LevelsVoltageConverter :=
  match signals with
  | [] => ([], self)
  | signal :: rest =>
      let '(n, self') := LevelsVoltageConverter_call self signal in
      let '(ns, self'') := feed rest self' in
      (n :: ns, self'')
  end.

(** ** Vocabulary of further array properties *)

(** The draw that the next [random.seed(seed); random.uniform(...)] uses. *)
Definition next_draw (seed : option Z) (w : randomness) : R :=
  match seed with
  | Some s => seeded w s
  | None => unseeded w (reseeds w)
  end.

(** A matrix of [rows] rows of [cols] entries each. *)
Definition shape {A : Type} (rows cols : nat) (m : matrix A) : Prop :=
  length m = rows /\ Forall (fun row => length row = cols) m.

(** The logging block can read the element: its unscaled conductance is
    defined. *)
Definition readable (c : component) : Prop :=
  exists g, component_get_state c "conductance" false 1 = Ok g.

(** ** Vocabulary of the signed update of a pair *)

(** A device in working order under positive pulses: a positive base
    voltage, anchors [0 < r_0 < r_1], a resistance above [r_0], and a law
    that is a fit of negative exponent at the base voltage. *)
Definition working (m : Memristor) : Prop :=
  0 < base_voltage m /\ 0 < r_0 m /\ r_0 m < r_1 m /\ r_0 m < r_curr m /\
  law_ok (model m) (base_voltage m).

(** ** A law whose anchors coincide, used as an example *)

(** The law of [MemristorAnouk(r0=100, r1=100)]. *)
Definition flat_anouk : law := MemristorAnouk 100 100 (-0.128) (-0.522).

Lemma Rlt_b_true x y : x < y -> Rlt_b x y = true.
Proof. intros H. unfold Rlt_b. destruct (Rlt_dec x y); [reflexivity | contradiction]. Qed.

Lemma Rlt_b_false x y : ~ x < y -> Rlt_b x y = false.
Proof. intros H. unfold Rlt_b. destruct (Rlt_dec x y); [contradiction | reflexivity]. Qed.

Lemma Rle_b_true x y : x <= y -> Rle_b x y = true.
Proof. intros H. unfold Rle_b. destruct (Rle_dec x y); [reflexivity | contradiction]. Qed.

Lemma Rle_b_false x y : ~ x <= y -> Rle_b x y = false.
Proof. intros H. unfold Rle_b. destruct (Rle_dec x y); [contradiction | reflexivity]. Qed.

Lemma Req_b_true x y : x = y -> Req_b x y = true.
Proof. intros H. unfold Req_b. destruct (Req_dec_T x y); [reflexivity | contradiction]. Qed.

Lemma Req_b_false x y : x <> y -> Req_b x y = false.
Proof. intros H. unfold Req_b. destruct (Req_dec_T x y); [contradiction | reflexivity]. Qed.

Lemma Rlt_b_spec x y : Rlt_b x y = true <-> x < y.
Proof.
  unfold Rlt_b. destruct (Rlt_dec x y); split; intros; try assumption;
    try reflexivity; try discriminate; contradiction.
Qed.

Lemma Rle_b_spec x y : Rle_b x y = true <-> x <= y.
Proof.
  unfold Rle_b. destruct (Rle_dec x y); split; intros; try assumption;
    try reflexivity; try discriminate; contradiction.
Qed.

Lemma epsilon_pos : 0 < epsilon.
Proof. unfold epsilon. apply Rinv_0_lt_compat. apply pow_lt. lra. Qed.

(** ** Facts about the quantizer *)

Section Quantizer.

Lemma binsearch_right_step (fuel : nat) (a : list R) (key : R) (lo hi : nat) :
  binsearch_right (S fuel) a key lo hi =
  if (lo <? hi)%nat then
    if Rle_b (nth (lo + (hi - lo) / 2) a 0) key
    then binsearch_right fuel a key (lo + (hi - lo) / 2 + 1) hi
    else binsearch_right fuel a key lo (lo + (hi - lo) / 2)
  else lo.
Proof. reflexivity. Qed.

Lemma binsearch_right_splits (fuel : nat) :
  forall (a : list R) (key : R) (lo hi : nat),
    ascending a ->
    (lo <= hi)%nat -> (hi <= length a)%nat -> (hi - lo <= fuel)%nat ->
    (forall i, (i < lo)%nat -> nth i a 0 <= key) ->
    (forall i, (hi <= i)%nat -> (i < length a)%nat -> key < nth i a 0) ->
    splits_at a key (binsearch_right fuel a key lo hi).
Proof.
  induction fuel as [|fuel IH]; intros a key lo hi Hasc Hle Hhi Hfuel Hlow Hhigh.
  - simpl. assert (lo = hi) by lia. subst hi.
    repeat split; [lia | exact Hlow | exact Hhigh].
  - rewrite binsearch_right_step. destruct (lo <? hi)%nat eqn:Hcmp.
    + apply Nat.ltb_lt in Hcmp.
      set (mid := (lo + (hi - lo) / 2)%nat).
      assert (Hhalf : ((hi - lo) / 2 < hi - lo)%nat)
        by (apply Nat.div_lt; lia).
      assert (Hmid : (lo <= mid < hi)%nat) by (unfold mid; lia).
      destruct (Rle_b (nth mid a 0) key) eqn:Htest.
      * apply Rle_b_spec in Htest.
        apply IH; try assumption; try lia.
        intros i Hi. apply Rle_trans with (nth mid a 0); [|exact Htest].
        apply Hasc; lia.
      * assert (Hgt : key < nth mid a 0).
        { apply Rnot_le_lt. intros Hc. apply Rle_b_true in Hc. congruence. }
        apply IH; try assumption; try lia.
        intros i Hi Hlen. apply Rlt_le_trans with (nth mid a 0); [exact Hgt|].
        apply Hasc; lia.
    + apply Nat.ltb_ge in Hcmp. assert (lo = hi) by lia. subst hi.
      repeat split; [lia | exact Hlow | exact Hhigh].
Qed.

Lemma rank_of_split (a : list R) (key : R) :
  forall r, splits_at a key r -> rank_in_partition a key = r.
Proof.
  unfold rank_in_partition.
  induction a as [|x a IH]; intros r (Hlen & Hlow & Hhigh); simpl in *.
  - lia.
  - destruct r as [|r].
    + assert (Hx : key < x) by (apply (Hhigh 0%nat); lia).
      rewrite Rle_b_false by lra.
      apply IH. repeat split; [lia | intros i Hi; lia |].
      intros i _ Hi. apply (Hhigh (S i)); lia.
    + assert (Hx : x <= key) by (apply (Hlow 0%nat); lia).
      rewrite Rle_b_true by exact Hx. simpl. f_equal.
      apply IH. repeat split; [lia | |].
      * intros i Hi. apply (Hlow (S i)); lia.
      * intros i Hi Hl. apply (Hhigh (S i)); lia.
Qed.

(** On an ascending array the binary search returns the rank. *)
Lemma np_searchsorted_right_rank (a : list R) (key : R) :
  ascending a -> np_searchsorted_right a key = rank_in_partition a key.
Proof.
  intros Hasc. symmetry. apply rank_of_split.
  unfold np_searchsorted_right.
  apply binsearch_right_splits; try assumption; try lia.
Qed.

Lemma nth_linspace_samples (start stop : R) (div i : nat) :
  (i <= div)%nat ->
  nth i (linspace_samples start stop div) 0 = sample start stop div i.
Proof.
  intros Hi. unfold sample, linspace_samples.
  set (f := fun i : nat => start + INR i * ((stop - start) / INR div)).
  destruct (i =? div)%nat eqn:E.
  - apply Nat.eqb_eq in E. subst i.
    rewrite app_nth2; rewrite length_map, length_seq; [|lia].
    rewrite Nat.sub_diag. reflexivity.
  - apply Nat.eqb_neq in E.
    rewrite app_nth1 by (rewrite length_map, length_seq; lia).
    rewrite (nth_indep _ 0 (f 0%nat))
      by (rewrite length_map, length_seq; lia).
    rewrite map_nth. rewrite seq_nth by lia. reflexivity.
Qed.

Lemma sample_le (start stop : R) (div i j : nat) :
  start <= stop -> (0 < div)%nat -> (i <= j)%nat -> (j <= div)%nat ->
  sample start stop div i <= sample start stop div j.
Proof.
  intros Hss Hdiv Hij Hj.
  assert (Hd : 0 < INR div) by (apply lt_0_INR; exact Hdiv).
  assert (Hstep : 0 <= (stop - start) / INR div).
  { apply Rmult_le_pos; [lra | apply Rlt_le, Rinv_0_lt_compat, Hd]. }
  assert (Htop : forall k, (k <= div)%nat ->
            start + INR k * ((stop - start) / INR div) <= stop).
  { intros k Hk. apply le_INR in Hk.
    assert (INR k * ((stop - start) / INR div) <= INR div * ((stop - start) / INR div))
      by (apply Rmult_le_compat_r; assumption).
    replace (INR div * ((stop - start) / INR div)) with (stop - start) in H
      by (field; lra).
    lra. }
  unfold sample.
  destruct (Nat.eqb_spec i div) as [Ei|Ei], (Nat.eqb_spec j div) as [Ej|Ej].
  - lra.
  - lia.
  - apply Htop. lia.
  - apply Rplus_le_compat_l. apply Rmult_le_compat_r; [exact Hstep|].
    apply le_INR. exact Hij.
Qed.

Lemma linspace_samples_length (start stop : R) (div : nat) :
  length (linspace_samples start stop div) = S div.
Proof.
  unfold linspace_samples. rewrite length_app, length_map, length_seq.
  simpl. lia.
Qed.

Lemma np_linspace_length (start stop : R) (num : Z) (steps : list R) :
  np_linspace start stop num = Ok steps -> length steps = Z.to_nat num.
Proof.
  unfold np_linspace. destruct (num <? 0)%Z; [discriminate|].
  destruct (Z.to_nat num) as [|[|d]]; intros [= <-];
    try reflexivity.
  apply linspace_samples_length.
Qed.

Lemma np_linspace_ok (start stop : R) (num : Z) :
  (0 <= num)%Z -> exists steps, np_linspace start stop num = Ok steps.
Proof.
  intros H. unfold np_linspace.
  destruct (num <? 0)%Z eqn:E; [apply Z.ltb_lt in E; lia|].
  destruct (Z.to_nat num) as [|[|d]]; eexists; reflexivity.
Qed.

Lemma np_linspace_ascending (start stop : R) (num : Z) (steps : list R) :
  start <= stop -> np_linspace start stop num = Ok steps -> ascending steps.
Proof.
  intros Hss. unfold np_linspace. destruct (num <? 0)%Z; [discriminate|].
  destruct (Z.to_nat num) as [|[|d]]; intros [= <-];
    intros i j Hij Hj.
  - simpl in Hj. lia.
  - simpl in Hj. assert (i = 0%nat) by lia. assert (j = 0%nat) by lia.
    subst. lra.
  - rewrite linspace_samples_length in Hj.
    rewrite !nth_linspace_samples by lia.
    apply sample_le; try assumption; lia.
Qed.

(** Every sample lies between the end points. *)
Lemma np_linspace_bounds (start stop : R) (num : Z) (steps : list R) :
  start <= stop -> np_linspace start stop num = Ok steps ->
  forall i, (i < length steps)%nat -> start <= nth i steps 0 <= stop.
Proof.
  intros Hss. unfold np_linspace. destruct (num <? 0)%Z; [discriminate|].
  destruct (Z.to_nat num) as [|[|d]]; intros [= <-];
    intros i Hi.
  - simpl in Hi. lia.
  - simpl in Hi. assert (i = 0%nat) by lia. subst. simpl. lra.
  - rewrite linspace_samples_length in Hi.
    rewrite nth_linspace_samples by lia. split.
    + apply Rle_trans with (sample start stop (S d) 0).
      * unfold sample. simpl. lra.
      * apply sample_le; try assumption; lia.
    + apply Rle_trans with (sample start stop (S d) (S d)).
      * apply sample_le; try assumption; lia.
      * unfold sample. rewrite Nat.eqb_refl. lra.
Qed.

(** After [observe] the signal lies within the running range. *)
Lemma observe_range (self : LevelsVoltageConverter) (signal : R) :
  smallest_seen (observe self signal) <= signal <= largest_seen (observe self signal).
Proof.
  unfold observe.
  destruct (Rlt_b signal (smallest_seen self)) eqn:E1; simpl;
    [ destruct (Rlt_b (largest_seen self) signal) eqn:E2
    | destruct (Rlt_b (largest_seen self) signal) eqn:E2 ]; simpl;
    repeat match goal with
           | H : Rlt_b _ _ = true |- _ => apply Rlt_b_spec in H
           | H : Rlt_b ?x ?y = false |- _ =>
               assert (~ x < y) by (intros Hc; apply Rlt_b_true in Hc; congruence);
               clear H
           end; lra.
Qed.

Lemma observe_levels (self : LevelsVoltageConverter) (signal : R) :
  levels (observe self signal) = levels self.
Proof.
  unfold observe.
  destruct (Rlt_b signal (smallest_seen self)); simpl;
    destruct (Rlt_b _ signal); reflexivity.
Qed.

(** A key that no sample exceeds has rank [length steps]. *)
Lemma rank_top (steps : list R) (key : R) :
  (forall i, (i < length steps)%nat -> nth i steps 0 <= key) ->
  rank_in_partition steps key = length steps.
Proof.
  intros H. apply rank_of_split. repeat split; [lia | exact H | intros; lia].
Qed.

End Quantizer.

(** ** The closed-form laws on the real line *)

Section PowerLaw.

Lemma py_div_ok (a b : R) : b <> 0 -> py_div a b = Ok (a / b).
Proof. intros H. unfold py_div. rewrite Req_b_false by exact H. reflexivity. Qed.

Lemma py_div_zero (a : R) : py_div a 0 = Raise ZeroDivisionError.
Proof. unfold py_div. rewrite Req_b_true by reflexivity. reflexivity. Qed.

Lemma py_pow_pos (x y : R) : 0 < x -> py_pow x y = Ok (Rpower x y).
Proof. intros H. unfold py_pow. rewrite Rlt_b_true by exact H. reflexivity. Qed.

Lemma Rpower_pos (x y : R) : 0 < Rpower x y.
Proof. unfold Rpower. apply exp_pos. Qed.

(** Inverting a power and raising again gives the base back. *)
Lemma Rpower_inverse (x e : R) : 0 < x -> e <> 0 -> Rpower (Rpower x (1 / e)) e = x.
Proof.
  intros Hx He. rewrite Rpower_mult.
  replace (1 / e * e) with 1 by (field; exact He).
  apply Rpower_1. exact Hx.
Qed.

(** A negative exponent makes the power strictly decreasing in its base. *)
Lemma Rpower_neg_decreasing (x y e : R) :
  0 < x -> x < y -> e < 0 -> Rpower y e < Rpower x e.
Proof.
  intros Hx Hxy He. unfold Rpower. apply exp_increasing.
  assert (Hln : ln x < ln y) by (apply ln_increasing; assumption).
  nra.
Qed.

(** One step past the inverted pulse number lowers a power of negative
    exponent. *)
Lemma one_more_pulse (x e : R) :
  0 < x -> e < 0 ->
  0 < Rpower (Rpower x (1 / e) + 1) e < x.
Proof.
  intros Hx He. split; [apply Rpower_pos|].
  rewrite <- (Rpower_inverse x e) at 2 by lra.
  apply Rpower_neg_decreasing; [apply Rpower_pos | | exact He].
  lra.
Qed.

Lemma r_3_pos : 0 < r_3.
Proof. unfold r_3. lra. Qed.

(** The lower-anchored branch: invert, then advance by one pulse. *)
Lemma lower_branch (Res r0 r1 e : R) :
  0 < r1 -> e < 0 -> r0 < Res ->
  exists n p,
    invert_lower Res r0 r1 e = Ok n /\
    py_pow (n + 1) e = Ok p /\
    r0 < r0 + r1 * p < Res.
Proof.
  intros Hr1 He Hres.
  set (x := (Res - r0) / r1).
  assert (Hx : 0 < x) by (unfold x; apply Rdiv_lt_0_compat; lra).
  exists (Rpower x (1 / e)), (Rpower (Rpower x (1 / e) + 1) e).
  destruct (one_more_pulse x e Hx He) as [Hp1 Hp2].
  split; [|split].
  - unfold invert_lower. rewrite py_div_ok by lra. simpl.
    rewrite py_div_ok by lra. simpl. apply py_pow_pos. exact Hx.
  - apply py_pow_pos. pose proof (Rpower_pos x (1 / e)). lra.
  - fold x. split; [nra|].
    assert (r1 * x = Res - r0) by (unfold x; field; lra).
    nra.
Qed.

(** The upper-anchored branch. *)
Lemma upper_branch (Res e : R) :
  e < 0 -> Res < r_3 ->
  exists n p,
    invert_upper Res e = Ok n /\
    py_pow (n + 1) e = Ok p /\
    Res < r_3 - r_3 * p < r_3.
Proof.
  intros He Hres. pose proof r_3_pos as H3.
  set (x := (r_3 - Res) / r_3).
  assert (Hx : 0 < x) by (unfold x; apply Rdiv_lt_0_compat; lra).
  exists (Rpower x (1 / e)), (Rpower (Rpower x (1 / e) + 1) e).
  destruct (one_more_pulse x e Hx He) as [Hp1 Hp2].
  split; [|split].
  - unfold invert_upper. rewrite py_div_ok by lra. simpl.
    rewrite py_div_ok by lra. simpl. apply py_pow_pos. exact Hx.
  - apply py_pow_pos. pose proof (Rpower_pos x (1 / e)). lra.
  - fold x. split; [|nra].
    assert (r_3 * x = r_3 - Res) by (unfold x; field; lra).
    nra.
Qed.

End PowerLaw.


(** ** Facts about a single device *)

Section Device.

Lemma np_sign_pos (x : R) : 0 < x -> np_sign x = 1.
Proof. intros H. unfold np_sign. rewrite Rlt_b_true by exact H. reflexivity. Qed.

Lemma np_sign_neg (x : R) : x < 0 -> np_sign x = -1.
Proof.
  intros H. unfold np_sign. rewrite Rlt_b_false by lra.
  rewrite Rlt_b_true by exact H. reflexivity.
Qed.

Lemma set_r_curr_model (self : Memristor) (r : R) :
  model (set_r_curr self r) = model self.
Proof. reflexivity. Qed.

Lemma set_r_curr_same (self : Memristor) : set_r_curr self (r_curr self) = self.
Proof. destruct self; reflexivity. Qed.

(** The read-out of a non-degenerate device. *)
Lemma get_state_conductance_scaled (self : Memristor) (g : R) :
  nondegenerate self ->
  get_state self "conductance" true g = Ok (g * (scaled_conductance self + epsilon)).
Proof.
  intros (Hc & H0 & H1 & Hne). unfold get_state, scaled_conductance. simpl.
  rewrite !py_div_ok; try assumption. simpl.
  rewrite py_div_ok; [reflexivity|].
  intros Heq. apply Hne.
  assert (/ r_0 self = / r_1 self) by lra.
  apply Rinv_eq_reg. exact H.
Qed.

Lemma get_state_resistance_scaled (self : Memristor) (g : R) :
  r_0 self <> r_1 self ->
  get_state self "resistance" true g =
  Ok (g * ((r_curr self - r_0 self) / (r_1 self - r_0 self) + epsilon)).
Proof.
  intros Hne. unfold get_state. simpl.
  rewrite py_div_ok by lra. reflexivity.
Qed.

(** An unknown selector leaves [ret_val] unbound. *)
Lemma get_state_unknown (self : Memristor) (value : string) (scaled : bool) (g : R) :
  value <> "conductance"%string -> value <> "resistance"%string ->
  get_state self value scaled g = Raise UnboundLocalError.
Proof.
  intros Hc Hr. unfold get_state.
  apply String.eqb_neq in Hc. apply String.eqb_neq in Hr.
  rewrite Hc, Hr. reflexivity.
Qed.

(** A signal of zero: no step, no call of the quantizer. *)
Lemma pulse_zero (self : Memristor) (vc : converter) :
  pulse self 0 vc = (get_state self "conductance" true (gain self), self, vc).
Proof.
  unfold pulse. rewrite Req_b_true by reflexivity. reflexivity.
Qed.

(** The loop never touches anything but [r_curr]. *)
Lemma pulse_steps_frame (k : nat) (V : R) :
  forall self,
    let self' := snd (pulse_steps k V self) in
    history self' = history self /\ seed self' = seed self /\
    base_voltage self' = base_voltage self /\ gain self' = gain self /\
    model self' = model self.
Proof.
  induction k as [|k IH]; intros self; simpl.
  - repeat split.
  - destruct (compute_pulse_number (model self) (r_curr self) V) as [[n|]|e];
      simpl; try (repeat split; fail).
    destruct (compute_resistance (model self) (r_curr self) (n + 1) V) as [r|e];
      simpl; try (repeat split; fail).
    apply (IH (set_r_curr self r)).
Qed.

Lemma follows_refl (t : trend) (r : R) : within t r -> follows t r r.
Proof. destruct t; simpl; intros; lra. Qed.

Lemma follows_trans (t : trend) (r1 r2 r3 : R) :
  follows t r1 r2 -> follows t r2 r3 -> follows t r1 r3.
Proof. destruct t; simpl; intros; lra. Qed.

Lemma follows_within (t : trend) (r r' : R) : follows t r r' -> within t r'.
Proof. destruct t; simpl; intros; try lra. Qed.

(** One iteration of the loop, when it completes, moves the resistance in
    the direction of the law. *)
Lemma one_step_follows (l : law) (r V : R) :
  law_ok l V -> within (law_trend l V) r ->
  forall n r',
    compute_pulse_number l r V = Ok (Some n) ->
    compute_resistance l r (n + 1) V = Ok r' ->
    follows (law_trend l V) r r'.
Proof.
  intros Hok Hin n r' Hn Hr.
  destruct l as [a r0 r1 | a c r0 r1 | r0 r1 a b | r0 r1 a b c d];
    simpl in *.
  - destruct (Rlt_b 0 V) eqn:EV.
    + apply Rlt_b_spec in EV. rewrite Rle_b_true in Hn by lra.
      destruct Hok as [H1 Ha].
      destruct (lower_branch r r0 r1 a H1 Ha Hin) as (n0 & p & E1 & E2 & Hb).
      rewrite E1 in Hn. simpl in Hn. injection Hn as <-.
      rewrite E2 in Hr. simpl in Hr. injection Hr as <-. simpl. lra.
    + injection Hr as <-. reflexivity.
  - destruct Hok as (H1 & Ha & Hc).
    destruct (Rlt_b 0 V) eqn:EV.
    + apply Rlt_b_spec in EV. rewrite Rle_b_true in Hn by lra.
      destruct (lower_branch r r0 r1 a H1 Ha Hin) as (n0 & p & E1 & E2 & Hb).
      rewrite E1 in Hn. simpl in Hn. injection Hn as <-.
      rewrite E2 in Hr. simpl in Hr. injection Hr as <-. simpl. lra.
    + destruct (Rlt_b V 0) eqn:EV'.
      * apply Rlt_b_spec in EV'. rewrite Rle_b_false in Hn by lra.
        destruct (upper_branch r c Hc Hin) as (n0 & p & E1 & E2 & Hb).
        rewrite E1 in Hn. simpl in Hn. injection Hn as <-.
        rewrite E2 in Hr. simpl in Hr. injection Hr as <-. simpl. lra.
      * injection Hr as <-. reflexivity.
  - destruct Hok as [H1 He].
    destruct (lower_branch r r0 r1 (a + b * V) H1 He Hin) as (n0 & p & E1 & E2 & Hb).
    rewrite E1 in Hn. simpl in Hn. injection Hn as <-.
    rewrite E2 in Hr. simpl in Hr. injection Hr as <-. simpl. lra.
  - destruct Hok as (H1 & Hp & Hm).
    destruct (Rlt_b 0 V) eqn:EV.
    + apply Rlt_b_spec in EV. rewrite Rle_b_true in Hn by lra.
      destruct (lower_branch r r0 r1 (a + b * V) H1 (Hp EV) Hin)
        as (n0 & p & E1 & E2 & Hb).
      rewrite E1 in Hn. simpl in Hn. injection Hn as <-.
      rewrite E2 in Hr. simpl in Hr. injection Hr as <-. simpl. lra.
    + destruct (Rlt_b V 0) eqn:EV'.
      * apply Rlt_b_spec in EV'. rewrite Rle_b_false in Hn by lra.
        destruct (upper_branch r (c + d * - V) (Hm EV') Hin)
          as (n0 & p & E1 & E2 & Hb).
        rewrite E1 in Hn. simpl in Hn. injection Hn as <-.
        rewrite E2 in Hr. simpl in Hr. injection Hr as <-. simpl. lra.
      * injection Hr as <-. reflexivity.
Qed.

(** Any number of iterations, completed or cut short by an exception. *)
Lemma pulse_steps_follows (k : nat) (V : R) :
  forall self,
    law_ok (model self) V ->
    within (law_trend (model self) V) (r_curr self) ->
    follows (law_trend (model self) V) (r_curr self)
            (r_curr (snd (pulse_steps k V self))).
Proof.
  induction k as [|k IH]; intros self Hok Hin; simpl.
  - apply follows_refl. exact Hin.
  - destruct (compute_pulse_number (model self) (r_curr self) V) as [[n|]|e] eqn:En;
      simpl; try (apply follows_refl; exact Hin).
    destruct (compute_resistance (model self) (r_curr self) (n + 1) V) as [r|e] eqn:Er;
      simpl; try (apply follows_refl; exact Hin).
    pose proof (one_step_follows _ _ _ Hok Hin _ _ En Er) as Hstep.
    apply follows_trans with r; [exact Hstep|].
    apply (IH (set_r_curr self r)); simpl.
    + exact Hok.
    + apply follows_within with (r_curr self). exact Hstep.
Qed.

(** What a call of [pulse] leaves of the device. *)
Lemma pulse_device (self : Memristor) (signal : R) (vc : converter) :
  exists k,
    snd (fst (pulse self signal vc)) =
    snd (pulse_steps k (voltage self signal) self).
Proof.
  unfold pulse, voltage.
  destruct (Req_b signal 0).
  - exists 0%nat. reflexivity.
  - destruct (convert vc signal) as [[n|e] vc'].
    + exists (Z.to_nat n).
      destruct (pulse_steps (Z.to_nat n) (np_sign signal * base_voltage self) self)
        as [[u|e] self']; reflexivity.
    + exists 0%nat. reflexivity.
Qed.

Lemma pulse_frame (self : Memristor) (signal : R) (vc : converter) :
  let self' := snd (fst (pulse self signal vc)) in
  history self' = history self /\ seed self' = seed self /\
  base_voltage self' = base_voltage self /\ gain self' = gain self /\
  model self' = model self.
Proof.
  destruct (pulse_device self signal vc) as [k ->].
  apply pulse_steps_frame.
Qed.

Lemma pulse_follows (self : Memristor) (signal : R) (vc : converter) :
  law_ok (model self) (voltage self signal) ->
  within (law_trend (model self) (voltage self signal)) (r_curr self) ->
  follows (law_trend (model self) (voltage self signal)) (r_curr self)
          (r_curr (snd (fst (pulse self signal vc)))).
Proof.
  intros Hok Hin. destruct (pulse_device self signal vc) as [k ->].
  apply pulse_steps_follows; assumption.
Qed.

End Device.

(** ** The adaptive quantizer as a rank *)

Section Levels.

Lemma np_linspace_many (start stop : R) (num : Z) :
  (2 <= num)%Z ->
  np_linspace start stop num =
  Ok (linspace_samples start stop (Z.to_nat num - 1)).
Proof.
  intros H. unfold np_linspace.
  destruct (num <? 0)%Z eqn:E; [apply Z.ltb_lt in E; lia|].
  destruct (Z.to_nat num) as [|[|d]] eqn:En; try lia.
  replace (S (S d) - 1)%nat with (S d) by lia. reflexivity.
Qed.

(** With two samples or more, the samples are equally spaced. *)
Lemma sample_equal_steps (start stop : R) (div i : nat) :
  (0 < div)%nat -> (i <= div)%nat ->
  sample start stop div i = start + INR i * ((stop - start) / INR div).
Proof.
  intros Hdiv Hi. unfold sample.
  destruct (Nat.eqb_spec i div) as [->|Hne]; [|reflexivity].
  assert (0 < INR div) by (apply lt_0_INR; exact Hdiv).
  field. lra.
Qed.

Lemma np_linspace_equal_steps (start stop : R) (num : Z) (steps : list R) :
  np_linspace start stop num = Ok steps ->
  (2 <= length steps)%nat ->
  forall i, (i < length steps)%nat ->
    nth i steps 0 = start + INR i * ((stop - start) / INR (length steps - 1)).
Proof.
  intros Hlin Hlen i Hi.
  pose proof (np_linspace_length _ _ _ _ Hlin) as Hn.
  assert (Hnum : (2 <= num)%Z) by lia.
  rewrite (np_linspace_many _ _ _ Hnum) in Hlin. injection Hlin as <-.
  rewrite linspace_samples_length in *.
  replace (S (Z.to_nat num - 1) - 1)%nat with (Z.to_nat num - 1)%nat by lia.
  rewrite nth_linspace_samples by lia.
  apply sample_equal_steps; lia.
Qed.

(** The call computes the rank of the signal among the samples of the
    running range. *)
Lemma levels_call_rank (self : LevelsVoltageConverter) (signal : R) (steps : list R) :
  np_linspace (smallest_seen (observe self signal))
              (largest_seen (observe self signal)) (levels self) = Ok steps ->
  LevelsVoltageConverter_call self signal =
    (Ok (Z.of_nat (rank_in_partition steps signal)), observe self signal).
Proof.
  intros Hlin. unfold LevelsVoltageConverter_call.
  rewrite observe_levels, Hlin. cbn [bind].
  rewrite np_searchsorted_right_rank; [reflexivity|].
  apply (np_linspace_ascending _ _ _ _ (Rle_trans _ _ _ (proj1 (observe_range self signal))
                                                  (proj2 (observe_range self signal))) Hlin).
Qed.

Lemma observe_fresh_zero (n : Z) :
  observe (LevelsVoltageConverter_init n) 0 = LevelsVoltageConverter_init n.
Proof.
  unfold observe, LevelsVoltageConverter_init. cbn.
  rewrite (Rlt_b_false 0 0) by lra. cbn.
  rewrite (Rlt_b_false 0 0) by lra. reflexivity.
Qed.

Lemma observe_fresh_pos (n : Z) (signal : R) :
  0 < signal ->
  observe (LevelsVoltageConverter_init n) signal =
  {| levels := n; smallest_seen := 0; largest_seen := signal |}.
Proof.
  intros H. unfold observe, LevelsVoltageConverter_init. cbn.
  rewrite (Rlt_b_false signal 0) by lra. cbn.
  rewrite (Rlt_b_true 0 signal) by lra. reflexivity.
Qed.

Lemma observe_fresh_neg (n : Z) (signal : R) :
  signal < 0 ->
  observe (LevelsVoltageConverter_init n) signal =
  {| levels := n; smallest_seen := signal; largest_seen := 0 |}.
Proof.
  intros H. unfold observe, LevelsVoltageConverter_init. cbn.
  rewrite (Rlt_b_true signal 0) by lra. cbn.
  rewrite (Rlt_b_false 0 signal) by lra. reflexivity.
Qed.

(** The new running minimum has rank 1 when the range is not degenerate. *)
Lemma rank_of_minimum (start stop : R) (div : nat) :
  start < stop -> (0 < div)%nat ->
  rank_in_partition (linspace_samples start stop div) start = 1%nat.
Proof.
  intros Hss Hdiv. apply rank_of_split.
  assert (Hd : 0 < INR div) by (apply lt_0_INR; exact Hdiv).
  assert (Hstep : 0 < (stop - start) / INR div)
    by (apply Rdiv_lt_0_compat; lra).
  unfold splits_at. rewrite linspace_samples_length.
  repeat split; [lia | |].
  - intros i Hi. assert (i = 0%nat) by lia. subst i.
    rewrite nth_linspace_samples by lia.
    rewrite sample_equal_steps by lia. simpl. lra.
  - intros i Hi Hlen.
    rewrite nth_linspace_samples by lia.
    rewrite sample_equal_steps by lia.
    assert (1 <= INR i) by (change 1 with (INR 1); apply le_INR; lia).
    nra.
Qed.

End Levels.

(** ** Facts about read-outs and pairs *)

Section ReadOut.

(** Whether [get_state] returns does not depend on the gain, and the gain
    only scales what it returns. *)
Lemma get_state_gain (self : Memristor) (value : string) (scaled : bool) (g k : R) :
  forall x, get_state self value scaled g = Ok x ->
  exists u, x = g * u /\ get_state self value scaled k = Ok (k * u).
Proof.
  unfold get_state. intros x.
  destruct (String.eqb value "conductance");
    destruct (String.eqb value "resistance");
    destruct scaled;
    repeat match goal with
           | |- context [py_div ?a ?b] => destruct (py_div a b); cbn [bind]
           end;
    cbn [bind]; intros Hx; try discriminate;
    injection Hx as <-; eexists; split; reflexivity.
Qed.

(** Two devices that agree on law and resistance read the same. *)
Lemma pair_of_equals (p : MemristorPair) (value : string) (scaled : bool) (g : R) :
  mem_one p = mem_two p ->
  forall x, get_state (mem_one p) value scaled g = Ok x ->
  pair_get_state p value scaled g = Ok 0.
Proof.
  intros Heq x Hx. unfold pair_get_state. rewrite <- Heq, Hx. cbn.
  f_equal. lra.
Qed.

Lemma get_state_conductance_unscaled (self : Memristor) (g : R) :
  r_curr self <> 0 -> r_0 self <> 0 -> r_1 self <> 0 ->
  get_state self "conductance" false g = Ok (g * (1 / r_curr self + epsilon)).
Proof.
  intros Hc H0 H1. unfold get_state. simpl.
  rewrite !py_div_ok; try assumption. reflexivity.
Qed.

Lemma get_state_resistance_unscaled (self : Memristor) (g : R) :
  get_state self "resistance" false g = Ok (g * (r_curr self + epsilon)).
Proof. reflexivity. Qed.

(** The scaled conductance falls as the resistance rises. *)
Lemma scaled_conductance_antitone (a b : Memristor) :
  model a = model b -> 0 < r_0 a -> r_0 a < r_1 a ->
  0 < r_curr a -> r_curr a < r_curr b ->
  scaled_conductance b < scaled_conductance a.
Proof.
  intros Hm H0 H01 Ha Hab. unfold scaled_conductance, r_0, r_1 in *.
  rewrite <- Hm.
  set (lo := law_r_0 (model a)) in *. set (hi := law_r_1 (model a)) in *.
  assert (Hden : 0 < 1 / lo - 1 / hi).
  { assert (/ hi < / lo) by (apply Rinv_lt_contravar; nra). lra. }
  assert (Hnum : 1 / r_curr b < 1 / r_curr a).
  { assert (/ r_curr b < / r_curr a) by (apply Rinv_lt_contravar; nra). lra. }
  unfold Rdiv at 1 4.
  apply Rmult_lt_compat_r; [apply Rinv_0_lt_compat; exact Hden | lra].
Qed.

(** Inside the range of the law the scaled conductance is positive. *)
Lemma scaled_conductance_pos (a : Memristor) :
  0 < r_0 a -> r_0 a < r_1 a -> 0 < r_curr a -> r_curr a < r_1 a ->
  0 < scaled_conductance a.
Proof.
  intros H0 H01 Hc H1. unfold scaled_conductance.
  apply Rdiv_lt_0_compat.
  - assert (/ r_1 a < / r_curr a) by (apply Rinv_lt_contravar; nra). lra.
  - assert (/ r_1 a < / r_0 a) by (apply Rinv_lt_contravar; nra). lra.
Qed.

Lemma Memristor_init_seeded (l : law) (s : Z) (bv g : R) (w : randomness) :
  Memristor_init l (Some s) bv g w =
  ({| history := []; r_curr := 1e8 + (1.1e8 - 1e8) * seeded w s;
      seed := Some s; base_voltage := bv; gain := g; model := l |}, w).
Proof. reflexivity. Qed.

(** With an int seed the two members of a pair are the same device. *)
Lemma MemristorPair_init_seeded (c : pair_class) (l : law) (s : Z) (bv g : R)
    (w : randomness) :
  let p := fst (MemristorPair_init c l (Some s) bv g w) in
  mem_one p = mem_two p /\ snd (MemristorPair_init c l (Some s) bv g w) = w.
Proof.
  unfold MemristorPair_init. rewrite !Memristor_init_seeded. cbn.
  split; reflexivity.
Qed.

End ReadOut.

(** ** Facts about two-dimensional arrays *)

Section Arrays.

Context {A B : Type}.

Lemma Forall2_nth_error_left (P : A -> B -> Prop) (l1 : list A) (l2 : list B) :
  Forall2 P l1 l2 ->
  forall i a, nth_error l1 i = Some a ->
  exists b, nth_error l2 i = Some b /\ P a b.
Proof.
  induction 1 as [|x y l1 l2 Hxy Hrest IH]; intros [|i] a Hn; simpl in *;
    try discriminate.
  - injection Hn as <-. exists y. split; [reflexivity | exact Hxy].
  - apply IH. exact Hn.
Qed.

Lemma Forall2_list_set (P : A -> B -> Prop) (l1 : list A) (l2 : list B) (a : A) (b : B) :
  Forall2 P l1 l2 -> P a b ->
  forall i, Forall2 P (list_set l1 i a) (list_set l2 i b).
Proof.
  induction 1 as [|x y l1 l2 Hxy Hrest IH]; intros Hab [|i]; simpl;
    constructor; auto.
Qed.

Lemma Forall2_list_set_left (P : A -> B -> Prop) (l1 : list A) (l2 : list B) (a' : A) :
  Forall2 P l1 l2 ->
  forall i a, nth_error l1 i = Some a ->
  (forall b, P a b -> P a' b) ->
  Forall2 P (list_set l1 i a') l2.
Proof.
  induction 1 as [|x y l1 l2 Hxy Hrest IH]; intros [|i] a Hn Himp; simpl in *;
    try discriminate.
  - injection Hn as <-. constructor; auto.
  - constructor; [exact Hxy|]. apply (IH i a Hn Himp).
Qed.

Lemma list_set_length (l : list A) (i : nat) (v : A) :
  length (list_set l i v) = length l.
Proof.
  revert i. induction l as [|x l IH]; intros [|i]; simpl; auto.
Qed.

Lemma nth_error_list_set_same (l : list A) (i : nat) (v : A) :
  (i < length l)%nat -> nth_error (list_set l i v) i = Some v.
Proof.
  revert i. induction l as [|x l IH]; intros [|i] Hi; simpl in *;
    try lia; auto. apply IH. lia.
Qed.

End Arrays.

Section MatrixAccess.

Context {A : Type}.

(** What [m[j, i]] succeeding means. *)
Lemma mat_get_ok (m : matrix A) (j i : nat) (v : A) :
  mat_get m j i = Ok v <->
  exists row, nth_error m j = Some row /\ nth_error row i = Some v.
Proof.
  unfold mat_get. split.
  - destruct (nth_error m j) as [row|]; [|discriminate].
    destruct (nth_error row i) as [x|] eqn:E; [|discriminate].
    intros [= <-]. exists row. split; [reflexivity | exact E].
  - intros (row & Hr & Hv). rewrite Hr, Hv. reflexivity.
Qed.

(** An element that can be read can be written. *)
Lemma mat_set_after_get (m : matrix A) (j i : nat) (v v' : A) :
  mat_get m j i = Ok v ->
  exists row, nth_error m j = Some row /\ nth_error row i = Some v /\
    mat_set m j i v' = Ok (list_set m j (list_set row i v')).
Proof.
  intros Hg. apply mat_get_ok in Hg. destruct Hg as (row & Hr & Hv).
  exists row. split; [exact Hr|]. split; [exact Hv|].
  unfold mat_set. rewrite Hr.
  assert (Hlt : (i < length row)%nat)
    by (apply nth_error_Some; rewrite Hv; discriminate).
  apply Nat.ltb_lt in Hlt. rewrite Hlt. reflexivity.
Qed.

End MatrixAccess.

Section Matrices.

Context {A B : Type}.

(** Writing related values at the same place of two related matrices. *)
Lemma Forall2_mat_set (P : A -> B -> Prop) (ma : matrix A) (mb : matrix B)
    (j i : nat) (a a' : A) (b' : B) :
  Forall2 (Forall2 P) ma mb ->
  mat_get ma j i = Ok a -> P a' b' ->
  exists ma' mb',
    mat_set ma j i a' = Ok ma' /\ mat_set mb j i b' = Ok mb' /\
    Forall2 (Forall2 P) ma' mb'.
Proof.
  intros Hrel Hget Hab.
  destruct (mat_set_after_get ma j i a a' Hget) as (rowa & Hra & Hva & Hseta).
  destruct (Forall2_nth_error_left _ _ _ Hrel j rowa Hra) as (rowb & Hrb & Hrows).
  destruct (Forall2_nth_error_left _ _ _ Hrows i a Hva) as (b & Hvb & _).
  assert (Hgetb : mat_get mb j i = Ok b)
    by (apply mat_get_ok; exists rowb; split; assumption).
  destruct (mat_set_after_get mb j i b b' Hgetb) as (rowb' & Hrb' & _ & Hsetb).
  rewrite Hrb in Hrb'. injection Hrb' as <-.
  exists (list_set ma j (list_set rowa i a')), (list_set mb j (list_set rowb i b')).
  split; [exact Hseta|]. split; [exact Hsetb|].
  apply Forall2_list_set; [exact Hrel|].
  apply Forall2_list_set; assumption.
Qed.

(** Writing on the left a value that relates to whatever the old one
    related to. *)
Lemma Forall2_mat_set_left (P : A -> B -> Prop) (ma : matrix A) (mb : matrix B)
    (j i : nat) (a a' : A) :
  Forall2 (Forall2 P) ma mb ->
  mat_get ma j i = Ok a -> (forall b, P a b -> P a' b) ->
  exists ma', mat_set ma j i a' = Ok ma' /\ Forall2 (Forall2 P) ma' mb.
Proof.
  intros Hrel Hget Himp.
  destruct (mat_set_after_get ma j i a a' Hget) as (rowa & Hra & Hva & Hseta).
  exists (list_set ma j (list_set rowa i a')). split; [exact Hseta|].
  apply (Forall2_list_set_left _ _ _ _ Hrel j rowa Hra).
  intros rowb Hrows.
  apply (Forall2_list_set_left _ _ _ _ Hrows i a Hva Himp).
Qed.

End Matrices.

(** A property that every iteration keeps is kept by the loop, however it
    ends. *)
Lemma for_each_keeps {S : Type} (P : S -> Prop) (body : nat -> S -> result unit * S) :
  (forall k s, P s -> P (snd (body k s))) ->
  forall idx s, P s -> P (snd (for_each idx body s)).
Proof.
  intros Hbody idx. induction idx as [|k rest IH]; intros s Hs; simpl.
  - exact Hs.
  - pose proof (Hbody k s Hs) as Hk.
    destruct (body k s) as [[u|e] s']; simpl in *.
    + apply IH. exact Hk.
    + exact Hk.
Qed.

(** ** Facts about the array invariant *)

Section Invariant.

(** What [pulse] returns is the read-out of the device it leaves. *)
Lemma pulse_reports (m : Memristor) (signal : R) (vc : converter) (w : R) :
  fst (fst (pulse m signal vc)) = Ok w ->
  let m' := snd (fst (pulse m signal vc)) in
  get_state m' "conductance" true (gain m') = Ok w.
Proof.
  unfold pulse.
  destruct (if Req_b signal 0 then (Ok 0%Z, vc) else convert vc signal)
    as [[n|e] vc']; cbn; [|discriminate].
  destruct (pulse_steps (Z.to_nat n) (np_sign signal * base_voltage m) m)
    as [[u|e] m']; cbn; [|discriminate].
  intros H. exact H.
Qed.

Lemma pair_pulse_reports (p : MemristorPair) (signal : R) (vc : converter) (w : R) :
  fst (fst (pair_pulse p signal vc)) = Ok w ->
  pair_difference (snd (fst (pair_pulse p signal vc))) = Ok w.
Proof.
  unfold pair_pulse.
  destruct (pair_pulse_body (policy p) signal (p, vc)) as [[u|e] [p' vc']]; cbn;
    [|discriminate].
  intros H. exact H.
Qed.

(** A pulse that returns leaves the element in step with what it
    returned. *)
Lemma component_pulse_in_step (c : component) (signal : R) (vc : converter) (w : R) :
  gain_is_default c ->
  fst (fst (component_pulse c signal vc)) = Ok w ->
  in_step (snd (fst (component_pulse c signal vc))) w.
Proof.
  intros Hg. destruct c as [m|p]; cbn [component_pulse].
  - pose proof (pulse_reports m signal vc w) as Hrep.
    pose proof (pulse_frame m signal vc) as Hframe.
    destruct (pulse m signal vc) as [[r m'] vc']. cbn in *.
    intros Hr. split; [apply Hrep; exact Hr|].
    destruct Hframe as (_ & _ & _ & Hgain & _).
    unfold gain_is_default in *. rewrite Hgain. exact Hg.
  - pose proof (pair_pulse_reports p signal vc w) as Hrep.
    destruct (pair_pulse p signal vc) as [[r p'] vc']. cbn in *.
    intros Hr. split; [apply Hrep; exact Hr | exact I].
Qed.

(** Saving the state changes no read-out. *)
Lemma save_state_in_step (c : component) (w : R) :
  in_step c w -> in_step (component_save_state c) w.
Proof.
  destruct c as [m|p]; intros [Hr Hg]; split; try exact Hg; exact Hr.
Qed.

(** One command of the rule, when it completes, keeps the invariant. *)
Lemma pulse_element_keeps (cmd : nat * nat * R) (st : shared) :
  synced st -> fst (pulse_element cmd st) = Ok tt ->
  synced (snd (pulse_element cmd st)).
Proof.
  destruct cmd as [[j i] signal]. unfold synced, pulse_element. intros Hs.
  destruct (mat_get (memristors st) j i) as [c|e] eqn:Hget; cbn; [|discriminate].
  pose proof (component_pulse_in_step c signal (voltage_converter st)) as Hstep.
  destruct (component_pulse c signal (voltage_converter st)) as [[r c'] vc'].
  cbn in Hstep.
  destruct (mat_set_after_get _ j i c c' Hget) as (row & Hrow & Hv & Hset).
  rewrite Hset.
  destruct r as [w|e]; cbn; [|discriminate].
  assert (Hg : gain_is_default c).
  { destruct (Forall2_nth_error_left _ _ _ Hs j row Hrow) as (wrow & _ & Hrows).
    destruct (Forall2_nth_error_left _ _ _ Hrows i c Hv) as (w0 & _ & [_ Hg]).
    exact Hg. }
  destruct (Forall2_mat_set in_step _ _ j i c c' w Hs Hget (Hstep w Hg eq_refl))
    as (ms' & ws' & Hms & Hws & Hrel).
  rewrite Hset in Hms. injection Hms as <-.
  rewrite Hws. cbn. intros _. exact Hrel.
Qed.

Lemma pulse_elements_keep (cmds : list (nat * nat * R)) :
  forall st, synced st -> fst (pulse_elements cmds st) = Ok tt ->
  synced (snd (pulse_elements cmds st)).
Proof.
  induction cmds as [|cmd rest IH]; intros st Hs; simpl.
  - intros _. exact Hs.
  - pose proof (pulse_element_keeps cmd st Hs) as Hone.
    destruct (pulse_element cmd st) as [[[]|e] st']; cbn in *.
    + apply IH. apply Hone. reflexivity.
    + discriminate.
Qed.

(** A call of the rule that returns keeps the invariant. *)
Lemma PulsingRule_call_keeps (self : PulsingRule) (t : R) (x : list R) (st : shared) :
  synced st -> is_ok (fst (PulsingRule_call self t x st)) = true ->
  synced (snd (snd (PulsingRule_call self t x st))).
Proof.
  intros Hs. unfold PulsingRule_call.
  pose proof (pulse_elements_keep (drive self t x (weights st)) st Hs) as Hk.
  destruct (pulse_elements (drive self t x (weights st)) st) as [[[]|e] st'];
    cbn in *.
  - intros _. apply Hk. reflexivity.
  - discriminate.
Qed.

(** The first half of the call, when it produces a value, keeps the
    invariant: an Infer call writes nothing. *)
Lemma forward_keeps (arr : MemristorArray PulsingRule) (t : R) (x : list R) :
  synced (store arr) -> is_ok (fst (forward arr t x)) = true ->
  synced (store (snd (forward arr t x))).
Proof.
  intros Hs. unfold forward. cbn [has_learning_signal has_error_signal rule_call
                                   PulsingRule_LearningRule].
  destruct (consumes_flag (learning_rule arr)).
  - destruct (last_item x) as [flag|e]; cbn; [|discriminate].
    destruct (negb (np_rint flag =? 0)%Z).
    + pose proof (PulsingRule_call_keeps (learning_rule arr) t (removelast x)
                    (store arr) Hs) as Hk.
      destruct (PulsingRule_call (learning_rule arr) t (removelast x) (store arr))
        as [r [lr' st']]. cbn in *. exact Hk.
    + destruct (produces_error (learning_rule arr)); cbn; intros _; exact Hs.
  - pose proof (PulsingRule_call_keeps (learning_rule arr) t x (store arr) Hs) as Hk.
    destruct (PulsingRule_call (learning_rule arr) t x (store arr))
      as [r [lr' st']]. cbn in *. exact Hk.
Qed.

End Invariant.

(** ** Facts about the logging block *)

Section Logging.

Context {B : Type} (P : component -> B -> Prop).
Hypothesis save_stable : forall c b, P c b -> P (component_save_state c) b.

(** Saving one element, whether it works or not, keeps a relation that
    [save_state] does not disturb. *)
Lemma save_state_at_keeps (mb : matrix B) (j i : nat) (ms : matrix component) :
  Forall2 (Forall2 P) ms mb ->
  Forall2 (Forall2 P) (snd (save_state_at j i ms)) mb.
Proof.
  intros Hs. unfold save_state_at.
  destruct (mat_get ms j i) as [c|e] eqn:Hget; cbn; [|exact Hs].
  destruct (Forall2_mat_set_left P ms mb j i c (component_save_state c) Hs Hget
              (save_stable c)) as (ms' & Hset & Hrel).
  rewrite Hset. cbn. exact Hrel.
Qed.

Lemma controller_save_state_keeps (mb : matrix B) (out_size in_size : nat)
    (ms : matrix component) :
  Forall2 (Forall2 P) ms mb ->
  Forall2 (Forall2 P) (snd (controller_save_state out_size in_size ms)) mb.
Proof.
  unfold controller_save_state.
  apply (for_each_keeps (fun ms => Forall2 (Forall2 P) ms mb)).
  intros j ms' Hms'.
  apply (for_each_keeps (fun ms => Forall2 (Forall2 P) ms mb)); [|exact Hms'].
  intros i ms'' Hms''. apply save_state_at_keeps. exact Hms''.
Qed.

End Logging.

(** The logging block, however it ends, leaves the weights, the quantizer
    and the rule alone, and does to the elements nothing but
    [save_state]. *)
Lemma log_call_frame {rule : Type} `{LearningRule rule} (arr : MemristorArray rule) :
  weights (store (snd (log_call arr))) = weights (store arr) /\
  voltage_converter (store (snd (log_call arr))) = voltage_converter (store arr) /\
  learning_rule (snd (log_call arr)) = learning_rule arr /\
  forall (B : Type) (P : component -> B -> Prop) (mb : matrix B),
    (forall c b, P c b -> P (component_save_state c) b) ->
    Forall2 (Forall2 P) (memristors (store arr)) mb ->
    Forall2 (Forall2 P) (memristors (store (snd (log_call arr)))) mb.
Proof.
  unfold log_call.
  destruct (logging arr); [|repeat split; intros; assumption].
  set (self1 := match get_error_signal (learning_rule arr) with
                | Ok e => _ | Raise _ => _ end).
  assert (H1 : store self1 = store arr /\ learning_rule self1 = learning_rule arr)
    by (unfold self1; destruct (get_error_signal (learning_rule arr)); split; reflexivity).
  destruct H1 as [H1 L1].
  set (self2 := with_histories self1 _ _ _).
  assert (H2 : store self2 = store arr) by (unfold self2; cbn; exact H1).
  assert (L2 : learning_rule self2 = learning_rule arr) by (unfold self2; cbn; exact L1).
  assert (Hk : forall (B : Type) (P : component -> B -> Prop) (mb : matrix B),
            (forall c b, P c b -> P (component_save_state c) b) ->
            Forall2 (Forall2 P) (memristors (store arr)) mb ->
            Forall2 (Forall2 P)
              (snd (controller_save_state (output_size self2) (input_size self2)
                      (memristors (store self2)))) mb).
  { intros B P mb Hst Hrel. rewrite H2.
    apply controller_save_state_keeps; assumption. }
  destruct (controller_save_state (output_size self2) (input_size self2)
              (memristors (store self2))) as [[u|e] ms].
  - destruct (read_conductances _ _ _) as [cond|e]; cbn; rewrite H1;
      (split; [reflexivity|]); (split; [reflexivity|]);
      (split; [exact L2|]); exact Hk.
  - cbn. rewrite H1.
    split; [reflexivity|]. split; [reflexivity|]. split; [exact L2|]. exact Hk.
Qed.

Section InvariantOfCall.

(** The logging half of the call keeps the invariant, however it ends. *)
Lemma log_call_keeps {rule : Type} `{LearningRule rule} (arr : MemristorArray rule) :
  synced (store arr) -> synced (store (snd (log_call arr))).
Proof.
  intros Hs. unfold synced.
  destruct (log_call_frame arr) as (Hw & _ & _ & Hms).
  rewrite Hw. apply (Hms R in_step); [exact save_state_in_step | exact Hs].
Qed.

End InvariantOfCall.


(** ** Facts about construction *)

Section Construction.

Lemma Memristor_init_fields (l : law) (seed : option Z) (bv g : R) (w : randomness) :
  let m := fst (Memristor_init l seed bv g w) in
  gain m = g /\ model m = l /\ base_voltage m = bv /\ history m = [].
Proof.
  unfold Memristor_init. destruct seed; cbn; repeat split.
Qed.

(** A freshly made element is in step with what [get_state()] reads from
    it. *)
Lemma make_component_in_step (mm : memristor_model) (seed : option Z) (bv : R)
    (w : randomness) (g : R) :
  seed_pins mm seed ->
  component_get_state_default (fst (make_component mm seed bv gain_default w)) = Ok g ->
  in_step (fst (make_component mm seed bv gain_default w)) g.
Proof.
  intros Hpin. destruct mm as [l|c l]; cbn [make_component].
  - pose proof (Memristor_init_fields l seed bv gain_default w) as (Hg & _).
    destruct (Memristor_init l seed bv gain_default w) as [m w']. cbn in *.
    intros Hread. split; [|exact Hg].
    unfold reported_state. rewrite Hg. exact Hread.
  - cbn in Hpin. destruct seed as [s|]; [|contradiction].
    pose proof (MemristorPair_init_seeded c l s bv gain_default w) as [Heq _].
    destruct (MemristorPair_init c l (Some s) bv gain_default w) as [p w']. cbn in *.
    unfold pair_get_state_default, pair_get_state, pair_difference, get_state_default.
    rewrite <- Heq.
    destruct (get_state (mem_one p) "conductance" true pair_gain_default) as [x|e] eqn:Ex;
      cbn; [|discriminate].
    destruct (get_state_gain _ _ _ _ gain_default x Ex) as (u & _ & Hy).
    intros [= <-]. split; [|exact I].
    unfold reported_state, pair_difference, get_state_default.
    rewrite <- Heq, Hy. cbn. f_equal. lra.
Qed.

Lemma init_row_in_step (mm : memristor_model) (seed : option Z) (bv : R) :
  seed_pins mm seed ->
  forall cols w cs gs,
    fst (init_row cols mm seed bv gain_default w) = Ok (cs, gs) ->
    Forall2 in_step cs gs.
Proof.
  intros Hpin. induction cols as [|cols IH]; intros w cs gs; simpl.
  - intros [= <- <-]. constructor.
  - pose proof (make_component_in_step mm seed bv w) as Hstep.
    destruct (make_component mm seed bv gain_default w) as [c w1]. cbn in Hstep.
    destruct (component_get_state_default c) as [g|e]; cbn; [|discriminate].
    specialize (IH w1).
    destruct (init_row cols mm seed bv gain_default w1) as [[[cs' gs']|e] w2]; cbn in *;
      [|discriminate].
    intros [= <- <-]. constructor.
    + apply Hstep; [exact Hpin | reflexivity].
    + apply IH. reflexivity.
Qed.

Lemma init_rows_in_step (mm : memristor_model) (seed : option Z) (bv : R) (cols : nat) :
  seed_pins mm seed ->
  forall rows w ms ws,
    fst (init_rows rows cols mm seed bv gain_default w) = Ok (ms, ws) ->
    Forall2 (Forall2 in_step) ms ws.
Proof.
  intros Hpin. induction rows as [|rows IH]; intros w ms ws; simpl.
  - intros [= <- <-]. constructor.
  - pose proof (init_row_in_step mm seed bv Hpin cols w) as Hrow.
    destruct (init_row cols mm seed bv gain_default w) as [[[cs gs]|e] w1]; cbn in *;
      [|discriminate].
    specialize (IH w1).
    destruct (init_rows rows cols mm seed bv gain_default w1) as [[[ms' ws']|e] w2];
      cbn in *; [|discriminate].
    intros [= <- <-]. constructor.
    + apply Hrow. reflexivity.
    + apply IH. reflexivity.
Qed.

(** Construction establishes the invariant. *)
Lemma MemristorArray_init_synced {rule : Type} (mm : memristor_model) (lr : rule)
    (in_size out_size : nat) (seed : option Z) (vc : converter) (bv : R)
    (w : randomness) (arr : MemristorArray rule) :
  seed_pins mm seed ->
  fst (MemristorArray_init mm lr in_size out_size seed vc bv gain_default w) = Ok arr ->
  synced (store arr).
Proof.
  intros Hpin. unfold MemristorArray_init.
  pose proof (init_rows_in_step mm seed bv in_size Hpin out_size w) as Hrows.
  destruct (init_rows out_size in_size mm seed bv gain_default w) as [[[ms ws]|e] w'];
    cbn in *; [|discriminate].
  intros [= <-]. unfold synced. cbn. apply Hrows. reflexivity.
Qed.

(** The whole call keeps the invariant when its first half produced a
    value. *)
Lemma MemristorArray_call_keeps (arr : MemristorArray PulsingRule) (t : R) (x : list R) :
  synced (store arr) -> is_ok (fst (forward arr t x)) = true ->
  synced (store (snd (MemristorArray_call arr t x))).
Proof.
  intros Hs Hok. unfold MemristorArray_call.
  pose proof (forward_keeps arr t x Hs Hok) as Hf.
  destruct (forward arr t x) as [[ret|e] arr1]; cbn in *; [|discriminate].
  pose proof (log_call_keeps arr1 Hf) as Hl.
  destruct (log_call arr1) as [[u|e] arr2]; cbn in *; exact Hl.
Qed.

(** The array built around one default device, for any gain. *)
Lemma built_device_nondegenerate (g : R) : nondegenerate (built_device g).
Proof. unfold nondegenerate, r_0, r_1. simpl. repeat split; lra. Qed.

Lemma built_array_init (g : R) :
  MemristorArray_init (DeviceModel MemristorAnouk_default) one_pulse_rule 1 1
    (Some 0%Z) (VoltageConverter 1) 1e-1 g two_draws =
  (Ok (built_array g), two_draws).
Proof.
  unfold MemristorArray_init. cbn [init_rows init_row make_component].
  rewrite Memristor_init_seeded.
  change (seeded two_draws 0%Z) with 0.
  fold (built_device g).
  cbn [component_get_state_default]. unfold get_state_default.
  rewrite (get_state_conductance_scaled _ _ (built_device_nondegenerate g)).
  reflexivity.
Qed.

End Construction.

(** ** Evaluating calls on concrete arrays *)

Section Evaluation.

Lemma np_rint_0 : np_rint 0 = 0%Z.
Proof.
  assert (Hup : up 0 = 1%Z) by (symmetry; apply tech_up; simpl; lra).
  assert (Hint : Int_part 0 = 0%Z) by (unfold Int_part; rewrite Hup; reflexivity).
  unfold np_rint, frac_part. rewrite Hint.
  rewrite Rlt_b_true by (simpl; lra). reflexivity.
Qed.

Lemma np_rint_1 : np_rint 1 = 1%Z.
Proof.
  assert (Hup : up 1 = 2%Z) by (symmetry; apply tech_up; simpl; lra).
  assert (Hint : Int_part 1 = 1%Z) by (unfold Int_part; rewrite Hup; reflexivity).
  unfold np_rint, frac_part. rewrite Hint.
  rewrite Rlt_b_true by (simpl; lra). reflexivity.
Qed.

(** In a moving direction one iteration of the loop completes. *)
Lemma one_step_ok (l : law) (r V : R) :
  law_ok l V -> within (law_trend l V) r -> moving (law_trend l V) ->
  exists n r',
    compute_pulse_number l r V = Ok (Some n) /\
    compute_resistance l r (n + 1) V = Ok r'.
Proof.
  intros Hok Hin Hmov.
  destruct l as [a r0 r1 | a c r0 r1 | r0 r1 a b | r0 r1 a b c d];
    simpl in *.
  - destruct (Rlt_b 0 V) eqn:EV; [|contradiction].
    apply Rlt_b_spec in EV. rewrite Rle_b_true by lra.
    destruct Hok as [H1 Ha].
    destruct (lower_branch r r0 r1 a H1 Ha Hin) as (n & p & E1 & E2 & _).
    exists n, (r0 + r1 * p). rewrite E1, E2. split; reflexivity.
  - destruct Hok as (H1 & Ha & Hc).
    destruct (Rlt_b 0 V) eqn:EV.
    + apply Rlt_b_spec in EV. rewrite Rle_b_true by lra.
      destruct (lower_branch r r0 r1 a H1 Ha Hin) as (n & p & E1 & E2 & _).
      exists n, (r0 + r1 * p). rewrite E1, E2. split; reflexivity.
    + destruct (Rlt_b V 0) eqn:EV'; [|contradiction].
      apply Rlt_b_spec in EV'. rewrite Rle_b_false by lra.
      destruct (upper_branch r c Hc Hin) as (n & p & E1 & E2 & _).
      exists n, (r_3 - r_3 * p). rewrite E1, E2. split; reflexivity.
  - destruct Hok as [H1 He].
    destruct (lower_branch r r0 r1 (a + b * V) H1 He Hin) as (n & p & E1 & E2 & _).
    exists n, (r0 + r1 * p). rewrite E1, E2. split; reflexivity.
  - destruct Hok as (H1 & Hp & Hm).
    destruct (Rlt_b 0 V) eqn:EV.
    + apply Rlt_b_spec in EV. rewrite Rle_b_true by lra.
      destruct (lower_branch r r0 r1 (a + b * V) H1 (Hp EV) Hin)
        as (n & p & E1 & E2 & _).
      exists n, (r0 + r1 * p). rewrite E1, E2. split; reflexivity.
    + destruct (Rlt_b V 0) eqn:EV'; [|contradiction].
      apply Rlt_b_spec in EV'. rewrite Rle_b_false by lra.
      destruct (upper_branch r (c + d * - V) (Hm EV') Hin)
        as (n & p & E1 & E2 & _).
      exists n, (r_3 - r_3 * p). rewrite E1, E2. split; reflexivity.
Qed.

(** In a moving direction the loop runs to its end. *)
Lemma pulse_steps_ok (k : nat) (V : R) :
  forall self,
    law_ok (model self) V ->
    within (law_trend (model self) V) (r_curr self) ->
    moving (law_trend (model self) V) ->
    fst (pulse_steps k V self) = Ok tt.
Proof.
  induction k as [|k IH]; intros self Hok Hin Hmov; simpl.
  - reflexivity.
  - destruct (one_step_ok _ _ _ Hok Hin Hmov) as (n & r' & En & Er).
    rewrite En, Er.
    apply (IH (set_r_curr self r')); simpl; try assumption.
    apply follows_within with (r_curr self).
    apply (one_step_follows _ _ _ Hok Hin _ _ En Er).
Qed.

(** A pulse through the baseline quantizer, in a moving direction: one
    step, then the read-out. *)
Lemma pulse_baseline (self : Memristor) (signal : R) (n : Z) :
  signal <> 0 ->
  law_ok (model self) (voltage self signal) ->
  within (law_trend (model self) (voltage self signal)) (r_curr self) ->
  moving (law_trend (model self) (voltage self signal)) ->
  let self' := snd (pulse_steps 1 (voltage self signal) self) in
  pulse self signal (VoltageConverter n) =
    (get_state self' "conductance" true (gain self'), self', VoltageConverter n).
Proof.
  intros Hs Hok Hin Hmov self'. unfold pulse.
  rewrite Req_b_false by exact Hs. cbn [convert].
  change (Z.to_nat 1) with 1%nat. fold (voltage self signal).
  pose proof (pulse_steps_ok 1 _ self Hok Hin Hmov) as Hrun.
  fold self'. destruct (pulse_steps 1 (voltage self signal) self) as [r m].
  cbn in Hrun. subst r. reflexivity.
Qed.

End Evaluation.

(** ** Properties of devices and pairs *)

Section DeviceClaims.

(** C3, amended.  Repeated calls of [pulse] with nonzero signals of one
    sign [sg] move [r_curr] monotonically in the direction the law defines
    for the voltage [sg * base_voltage], and no call takes it across the
    anchor of that direction: with [law_trend] the trajectory is a chain of
    [follows] steps.  Under positive voltage every law falls towards its
    [r_0].  Under negative voltage the two bidirectional laws rise towards
    [r_3], the one-directional power law does not move, and the
    unidirectional empirical law ([MemristorAnouk]) falls towards [r_0] as
    under positive voltage.  The law is a fit of negative exponent with a
    positive scale ([law_ok]) and the device starts on the inner side of
    the anchor ([within]). *)
Theorem pulse_train_monotone (self : Memristor) (vc : converter)
    (signals : list R) (sg : R) :
  Forall (fun s => s <> 0 /\ np_sign s = sg) signals ->
  law_ok (model self) (sg * base_voltage self) ->
  within (law_trend (model self) (sg * base_voltage self)) (r_curr self) ->
  chain (follows (law_trend (model self) (sg * base_voltage self)))
        (r_curr self :: pulse_train signals self vc).
Proof.
  revert self vc.
  induction signals as [|s rest IH]; intros self vc Hall Hok Hin.
  - exact I.
  - inversion Hall as [|? ? [Hs Hsg] Hrest]; subst.
    cbn [pulse_train].
    pose proof (pulse_follows self s vc) as Hstep.
    pose proof (pulse_frame self s vc) as Hframe.
    destruct (pulse self s vc) as [[res self'] vc'] eqn:Ep.
    cbn [fst snd] in Hstep, Hframe.
    destruct Hframe as (_ & _ & Hbv & _ & Hmodel).
    unfold voltage in Hstep.
    specialize (Hstep Hok Hin).
    specialize (IH self' vc' Hrest).
    rewrite Hbv, Hmodel in IH.
    specialize (IH Hok (follows_within _ _ _ Hstep)).
    destruct rest as [|s' rest'].
    + cbn. split; [exact Hstep | exact I].
    + split; [exact Hstep | exact IH].
Qed.

(** Two positive pulses on a default [MemristorAnouk]. *)
Lemma pulse_train_monotone_witness :
  chain (follows (law_trend (model anouk_device) (1 * base_voltage anouk_device)))
        (r_curr anouk_device
           :: pulse_train [1; 2] anouk_device (VoltageConverter 1)).
Proof.
  apply (pulse_train_monotone anouk_device (VoltageConverter 1) [1; 2] 1).
  - repeat constructor; try lra; apply np_sign_pos; lra.
  - simpl. lra.
  - simpl. lra.
Defined.

(** C3, as stated, fails for the unidirectional empirical law under
    negative voltage: one pulse of signal [-1] on a default
    [MemristorAnouk] at [1e8] strictly lowers the resistance, where the
    claim has it non-decreasing. *)
Lemma anouk_negative_pulse_lowers_resistance :
  voltage anouk_device (-1) < 0 /\
  r_curr (snd (fst (pulse anouk_device (-1) (VoltageConverter 1))))
    < r_curr anouk_device.
Proof.
  assert (HV : voltage anouk_device (-1) = -1 * 1e-1)
    by (unfold voltage; rewrite np_sign_neg by lra; reflexivity).
  split; [rewrite HV; lra|].
  assert (Hok : law_ok (model anouk_device) (voltage anouk_device (-1)))
    by (rewrite HV; simpl; lra).
  assert (Hin : within (law_trend (model anouk_device) (voltage anouk_device (-1)))
                  (r_curr anouk_device))
    by (simpl; lra).
  rewrite (pulse_baseline anouk_device (-1) 1) by (try assumption; try exact I; lra).
  cbn [fst snd]. rewrite HV.
  destruct (lower_branch 1e8 100 (2.5 * 10 ^ 8) (-0.128 + -0.522 * (-1 * 1e-1)))
    as (n & p & E1 & E2 & Hb); try lra.
  cbn [pulse_steps anouk_device model r_curr MemristorAnouk_default
       compute_pulse_number compute_resistance].
  rewrite E1. cbn [bind]. rewrite E2. cbn [bind snd set_r_curr r_curr]. lra.
Qed.

(** C7, amended.  [pulse(0)] on a device whose read-out is defined, that
    is whose [r_curr], [r_0] and [r_1] are not zero and whose [r_0] is not
    [r_1], returns the current scaled state, the very value
    [get_state(gain=self.gain)] gives, without raising; the device
    (resistance and history included) and the quantizer are what they
    were: no update step ran and the quantizer was not called, whatever
    object is bound to it. *)
Theorem pulse_zero_is_noop (self : Memristor) (vc : converter) :
  nondegenerate self ->
  pulse self 0 vc =
    (Ok (gain self * (scaled_conductance self + epsilon)), self, vc) /\
  get_state self "conductance" true (gain self) =
    Ok (gain self * (scaled_conductance self + epsilon)).
Proof.
  intros Hnd. rewrite pulse_zero.
  rewrite (get_state_conductance_scaled self (gain self) Hnd).
  split; reflexivity.
Qed.

Lemma anouk_device_nondegenerate : nondegenerate anouk_device.
Proof. unfold nondegenerate, r_0, r_1. simpl. repeat split; lra. Qed.

(** No quantizer at all, and still no error. *)
Lemma pulse_zero_is_noop_witness :
  pulse anouk_device 0 NoConverter =
    (Ok (gain anouk_device * (scaled_conductance anouk_device + epsilon)),
     anouk_device, NoConverter) /\
  get_state anouk_device "conductance" true (gain anouk_device) =
    Ok (gain anouk_device * (scaled_conductance anouk_device + epsilon)).
Proof.
  apply (pulse_zero_is_noop anouk_device NoConverter).
  unfold nondegenerate, r_0, r_1. simpl. repeat split; lra.
Defined.

(** C7, as stated, fails on a device whose anchors coincide.  A freshly
    built [MemristorAnouk(r0=100, r1=100, seed=0)] raises
    [ZeroDivisionError] at [pulse(0)]: no step runs, and the read-out that
    [pulse] ends with divides by [1/r_0 - 1/r_1]. *)
Lemma flat_device_zero_pulse_raises :
  pulse (fst (Memristor_init flat_anouk (Some 0%Z) 1e-1 1e5 two_draws)) 0
        (VoltageConverter 1) =
  (Raise ZeroDivisionError,
   fst (Memristor_init flat_anouk (Some 0%Z) 1e-1 1e5 two_draws),
   VoltageConverter 1).
Proof.
  rewrite pulse_zero. rewrite Memristor_init_seeded. cbn [fst].
  unfold get_state, r_0, r_1, flat_anouk.
  cbn [String.eqb Ascii.eqb Bool.eqb r_curr model law_r_0 law_r_1 gain].
  rewrite !py_div_ok by (cbn; lra). cbn [bind].
  replace (1 / 100 - 1 / 100) with 0 by lra.
  rewrite py_div_zero. reflexivity.
Qed.

(** C4.  The plus-minus policy.  A strictly positive signal leaves
    [mem_two] as it was and does to [mem_one] and the quantizer what
    [mem_one.pulse(signal)] does; a strictly negative signal leaves
    [mem_one] as it was and does to [mem_two] what
    [mem_two.pulse(-signal)] does; a zero signal leaves the pair and the
    quantizer untouched. *)
Theorem plus_minus_pulses_one_side (self : MemristorPair) (signal : R)
    (vc : converter) :
  policy self = MemristorPlusMinus ->
  let after := pair_pulse self signal vc in
  let self' := snd (fst after) in
  (0 < signal ->
     mem_two self' = mem_two self /\
     mem_one self' = snd (fst (pulse (mem_one self) signal vc)) /\
     snd after = snd (pulse (mem_one self) signal vc)) /\
  (signal < 0 ->
     mem_one self' = mem_one self /\
     mem_two self' = snd (fst (pulse (mem_two self) (- signal) vc)) /\
     snd after = snd (pulse (mem_two self) (- signal) vc)) /\
  (signal = 0 -> self' = self /\ snd after = vc).
Proof.
  intros Hpol. unfold pair_pulse. rewrite Hpol. cbn [pair_pulse_body].
  unfold seq_, skip, pulse_one, pulse_two.
  split; [|split]; intros Hs.
  - rewrite (Rlt_b_true 0 signal) by exact Hs.
    rewrite (Rlt_b_false signal 0) by lra.
    destruct (pulse (mem_one self) signal vc) as [[[v|e] m] vc']; cbn;
      repeat split; reflexivity.
  - rewrite (Rlt_b_false 0 signal) by lra.
    rewrite (Rlt_b_true signal 0) by exact Hs.
    destruct (pulse (mem_two self) (- signal) vc) as [[[v|e] m] vc']; cbn;
      repeat split; reflexivity.
  - subst signal.
    rewrite (Rlt_b_false 0 0) by lra. cbn. split; reflexivity.
Qed.

Lemma plus_minus_pulses_one_side_witness :
  let after := pair_pulse anouk_pair 1 (VoltageConverter 1) in
  let self' := snd (fst after) in
  (0 < 1 ->
     mem_two self' = mem_two anouk_pair /\
     mem_one self' = snd (fst (pulse (mem_one anouk_pair) 1 (VoltageConverter 1))) /\
     snd after = snd (pulse (mem_one anouk_pair) 1 (VoltageConverter 1))) /\
  (1 < 0 ->
     mem_one self' = mem_one anouk_pair /\
     mem_two self' = snd (fst (pulse (mem_two anouk_pair) (- 1) (VoltageConverter 1))) /\
     snd after = snd (pulse (mem_two anouk_pair) (- 1) (VoltageConverter 1))) /\
  (1 = 0 -> self' = anouk_pair /\ snd after = VoltageConverter 1).
Proof.
  apply (plus_minus_pulses_one_side anouk_pair 1 (VoltageConverter 1)).
  reflexivity.
Defined.

(** A negative signal on the one-directional power law:
    [compute_pulse_number] returns [None] and [None + 1] raises, whatever
    the parameters, as soon as the quantizer asks for a step. *)
Lemma onedirectional_negative_raises (a r0 r1 : R) (self : Memristor)
    (signal : R) (n : Z) :
  model self = OnedirectionalPowerlawMemristor a r0 r1 ->
  0 < base_voltage self -> signal < 0 ->
  pulse self signal (VoltageConverter n) =
    (Raise TypeError, self, VoltageConverter n).
Proof.
  intros Hm Hbv Hs. unfold pulse.
  rewrite Req_b_false by lra. cbn [convert].
  change (Z.to_nat 1) with 1%nat. cbn [pulse_steps].
  rewrite Hm. cbn [compute_pulse_number].
  rewrite np_sign_neg by exact Hs.
  rewrite Rle_b_false by nra. reflexivity.
Qed.

(** C5, at signal [-1].  The one-directional power-law device does not take
    a negative voltage as a no-op: the call raises [TypeError].  (The
    resistance is as it was.) *)
Theorem onedirectional_negative_pulse_raises :
  pulse onedirectional_device (-1) (VoltageConverter 1) =
    (Raise TypeError, onedirectional_device, VoltageConverter 1).
Proof.
  apply (onedirectional_negative_raises (-0.1) 100 2.5e8).
  - reflexivity.
  - simpl. lra.
  - lra.
Qed.

End DeviceClaims.

(** ** Properties of the quantizer *)

Section QuantizerClaims.

(** C6.  [convert] of the adaptive quantizer.  With [levels >= 0] the
    running range, updated with the signal, is sampled at [levels] points
    (equally spaced when there are two or more), and the call returns the
    1-based rank of the signal among them: the number of samples that do
    not exceed it.  When the signal is the running maximum the rank is
    [levels].  A fresh 10-level instance fed the single signal 5 returns
    10. *)
Theorem levels_convert_is_rank (self : LevelsVoltageConverter) (signal : R) :
  (0 <= levels self)%Z ->
  let self' := observe self signal in
  (exists steps,
     np_linspace (smallest_seen self') (largest_seen self') (levels self) = Ok steps /\
     length steps = Z.to_nat (levels self) /\
     ((2 <= length steps)%nat ->
      forall i, (i < length steps)%nat ->
        nth i steps 0 =
        smallest_seen self' +
        INR i * ((largest_seen self' - smallest_seen self') / INR (length steps - 1))) /\
     LevelsVoltageConverter_call self signal =
       (Ok (Z.of_nat (rank_in_partition steps signal)), self')) /\
  (signal = largest_seen self' ->
   LevelsVoltageConverter_call self signal = (Ok (levels self), self')) /\
  LevelsVoltageConverter_call (LevelsVoltageConverter_init 10) 5 =
    (Ok 10%Z, {| levels := 10; smallest_seen := 0; largest_seen := 5 |}).
Proof.
  assert (Hsat : forall (c : LevelsVoltageConverter) (s : R),
            (0 <= levels c)%Z -> s = largest_seen (observe c s) ->
            LevelsVoltageConverter_call c s = (Ok (levels c), observe c s)).
  { intros c s Hlev Hmax.
    destruct (np_linspace_ok (smallest_seen (observe c s))
                (largest_seen (observe c s)) (levels c) Hlev) as [steps Hlin].
    rewrite (levels_call_rank c s steps Hlin).
    rewrite rank_top.
    - rewrite (np_linspace_length _ _ _ _ Hlin), Z2Nat.id by exact Hlev.
      reflexivity.
    - intros i Hi.
      pose proof (observe_range c s) as [Hlo Hhi].
      pose proof (np_linspace_bounds _ _ _ _ (Rle_trans _ _ _ Hlo Hhi) Hlin i Hi).
      lra. }
  intros Hlev self'. split; [|split].
  - destruct (np_linspace_ok (smallest_seen self') (largest_seen self')
                (levels self) Hlev) as [steps Hlin].
    exists steps. split; [exact Hlin|]. split; [|split].
    + apply (np_linspace_length _ _ _ _ Hlin).
    + intros Hlen i Hi. apply (np_linspace_equal_steps _ _ _ _ Hlin Hlen i Hi).
    + apply levels_call_rank. exact Hlin.
  - intros Hmax. apply Hsat; assumption.
  - rewrite <- (observe_fresh_pos 10 5) by lra.
    apply (Hsat (LevelsVoltageConverter_init 10) 5).
    + simpl. lia.
    + rewrite observe_fresh_pos by lra. reflexivity.
Qed.

(** A 10-level instance that has seen -5 and 10, fed 10 again. *)
Lemma levels_convert_is_rank_witness :
  let self := {| levels := 10; smallest_seen := -5; largest_seen := 10 |} in
  let self' := observe self 10 in
  (exists steps,
     np_linspace (smallest_seen self') (largest_seen self') (levels self) = Ok steps /\
     length steps = Z.to_nat (levels self) /\
     ((2 <= length steps)%nat ->
      forall i, (i < length steps)%nat ->
        nth i steps 0 =
        smallest_seen self' +
        INR i * ((largest_seen self' - smallest_seen self') / INR (length steps - 1))) /\
     LevelsVoltageConverter_call self 10 =
       (Ok (Z.of_nat (rank_in_partition steps 10)), self')) /\
  (10 = largest_seen self' ->
   LevelsVoltageConverter_call self 10 = (Ok (levels self), self')) /\
  LevelsVoltageConverter_call (LevelsVoltageConverter_init 10) 5 =
    (Ok 10%Z, {| levels := 10; smallest_seen := 0; largest_seen := 5 |}).
Proof.
  apply (levels_convert_is_rank
           {| levels := 10; smallest_seen := -5; largest_seen := 10 |} 10).
  simpl. lia.
Defined.

(** C10.  On a fresh instance the signal 0 gets the top count [levels]:
    the range is the single point 0 and the right-inclusive search passes
    every sample.  The count is not monotone in the magnitude of the
    signal there: with two levels or more, a fresh instance fed -1, of
    larger magnitude, returns 1. *)
Theorem fresh_levels_zero_is_top (n : Z) :
  (0 <= n)%Z ->
  LevelsVoltageConverter_call (LevelsVoltageConverter_init n) 0 =
    (Ok n, LevelsVoltageConverter_init n) /\
  ((2 <= n)%Z ->
   LevelsVoltageConverter_call (LevelsVoltageConverter_init n) (-1) =
     (Ok 1%Z, {| levels := n; smallest_seen := -1; largest_seen := 0 |})).
Proof.
  intros Hn. split.
  - destruct (np_linspace_ok 0 0 n Hn) as [steps Hlin].
    assert (Hlin' : np_linspace
              (smallest_seen (observe (LevelsVoltageConverter_init n) 0))
              (largest_seen (observe (LevelsVoltageConverter_init n) 0))
              (levels (LevelsVoltageConverter_init n)) = Ok steps)
      by (rewrite observe_fresh_zero; exact Hlin).
    rewrite (levels_call_rank _ _ _ Hlin'), observe_fresh_zero.
    rewrite rank_top.
    + rewrite (np_linspace_length _ _ _ _ Hlin), Z2Nat.id by exact Hn.
      reflexivity.
    + intros i Hi.
      apply (np_linspace_bounds 0 0 n steps (Rle_refl 0) Hlin i Hi).
  - intros H2.
    assert (Hneg : -1 < 0) by lra.
    assert (Hlin : np_linspace
              (smallest_seen (observe (LevelsVoltageConverter_init n) (-1)))
              (largest_seen (observe (LevelsVoltageConverter_init n) (-1)))
              (levels (LevelsVoltageConverter_init n)) =
              Ok (linspace_samples (-1) 0 (Z.to_nat n - 1))).
    { rewrite (observe_fresh_neg n (-1) Hneg). cbn [smallest_seen largest_seen levels].
      apply np_linspace_many. exact H2. }
    rewrite (levels_call_rank _ _ _ Hlin), (observe_fresh_neg n (-1) Hneg).
    rewrite rank_of_minimum by (try lra; lia). reflexivity.
Qed.

Lemma fresh_levels_zero_is_top_witness :
  LevelsVoltageConverter_call (LevelsVoltageConverter_init 10) 0 =
    (Ok 10%Z, LevelsVoltageConverter_init 10) /\
  ((2 <= 10)%Z ->
   LevelsVoltageConverter_call (LevelsVoltageConverter_init 10) (-1) =
     (Ok 1%Z, {| levels := 10; smallest_seen := -1; largest_seen := 0 |})).
Proof.
  apply (fresh_levels_zero_is_top 10). lia.
Defined.

End QuantizerClaims.

(** ** Properties of construction and of the selectors *)

Section ConstructionClaims.

(** C9, amended.  A pair of either policy constructed with a seed other
    than [None], over a law whose [r_0] and [r_1] are not zero and differ,
    has two members that are the same device, with the same initial
    resistance, so every read-out of the pair, [get_state()] included, is
    exactly 0.  The draw of the generator is not negative, as
    [random.random()] guarantees. *)
Theorem seeded_pair_starts_at_zero (c : pair_class) (l : law) (seed : option Z)
    (bv g : R) (w : randomness) :
  seed <> None ->
  law_r_0 l <> 0 -> law_r_1 l <> 0 -> law_r_0 l <> law_r_1 l ->
  0 <= next_draw seed w ->
  let p := fst (MemristorPair_init c l seed bv g w) in
  mem_one p = mem_two p /\
  r_curr (mem_one p) = r_curr (mem_two p) /\
  pair_get_state_default p = Ok 0 /\
  (forall scaled k,
     pair_get_state p "conductance" scaled k = Ok 0 /\
     pair_get_state p "resistance" scaled k = Ok 0).
Proof.
  intros Hseed H0 H1 Hne Hu p.
  destruct seed as [s|]; [|contradiction]. cbn [next_draw] in Hu.
  destruct (MemristorPair_init_seeded c l s bv g w) as [Heq _].
  fold p in Heq.
  assert (Hone : mem_one p =
            {| history := []; r_curr := 1e8 + (1.1e8 - 1e8) * seeded w s;
               seed := Some s; base_voltage := bv; gain := g; model := l |})
    by reflexivity.
  assert (Hnd : nondegenerate (mem_one p)).
  { rewrite Hone. unfold nondegenerate, r_0, r_1. cbn.
    repeat split; try assumption. nra. }
  assert (Hall : forall scaled k,
            pair_get_state p "conductance" scaled k = Ok 0 /\
            pair_get_state p "resistance" scaled k = Ok 0).
  { intros scaled k. destruct Hnd as (Hc & Hr0 & Hr1 & Hr01).
    split; destruct scaled.
    - eapply pair_of_equals; [exact Heq|].
      apply get_state_conductance_scaled. repeat split; assumption.
    - eapply pair_of_equals; [exact Heq|].
      apply get_state_conductance_unscaled; assumption.
    - eapply pair_of_equals; [exact Heq|].
      apply get_state_resistance_scaled. exact Hr01.
    - eapply pair_of_equals; [exact Heq|].
      apply get_state_resistance_unscaled. }
  split; [exact Heq|]. split; [rewrite Heq; reflexivity|].
  split; [|exact Hall].
  apply (proj1 (Hall true pair_gain_default)).
Qed.

(** A plus-minus pair of default [MemristorAnouk] devices, seed 0. *)
Lemma seeded_pair_starts_at_zero_witness :
  let p := fst (MemristorPair_init MemristorPlusMinus MemristorAnouk_default
                  (Some 0%Z) 1e-1 1e5 two_draws) in
  mem_one p = mem_two p /\
  r_curr (mem_one p) = r_curr (mem_two p) /\
  pair_get_state_default p = Ok 0 /\
  (forall scaled k,
     pair_get_state p "conductance" scaled k = Ok 0 /\
     pair_get_state p "resistance" scaled k = Ok 0).
Proof.
  apply (seeded_pair_starts_at_zero MemristorPlusMinus MemristorAnouk_default
           (Some 0%Z) 1e-1 1e5 two_draws); try (simpl; lra).
  discriminate.
Defined.

(** Why the law is constrained: over a law whose anchors coincide the
    seeded pair does not read 0, its [get_state()] raises
    [ZeroDivisionError] at the first member. *)
Lemma seeded_pair_over_flat_law_raises :
  pair_get_state_default
    (fst (MemristorPair_init MemristorPlusMinus flat_anouk (Some 0%Z)
            1e-1 1e5 two_draws)) = Raise ZeroDivisionError.
Proof.
  unfold MemristorPair_init. rewrite !Memristor_init_seeded. cbn [fst].
  unfold pair_get_state_default, pair_get_state. cbn [mem_one].
  unfold get_state, r_0, r_1, flat_anouk.
  cbn [String.eqb Ascii.eqb Bool.eqb r_curr model law_r_0 law_r_1 gain].
  rewrite !py_div_ok by (cbn; lra). cbn [bind].
  replace (1 / 100 - 1 / 100) with 0 by lra.
  rewrite py_div_zero. reflexivity.
Qed.

(** The unseeded pair: the first member starts at [1e8], the second at
    [1.05e8]. *)
Lemma unseeded_pair_members :
  let p := fst (MemristorPair_init MemristorPlusMinus MemristorAnouk_default
                  None 1e-1 1e5 two_draws) in
  r_curr (mem_one p) = 1e8 /\ r_curr (mem_two p) = 1.05e8 /\
  model (mem_one p) = MemristorAnouk_default /\
  model (mem_two p) = MemristorAnouk_default.
Proof.
  cbn. repeat split; lra.
Qed.

(** C9, as stated, fails without a seed.  With [seed=None], the default,
    each member is initialised from a fresh draw; when the draws differ the
    pair does not start at zero: here [get_state()] is positive. *)
Lemma unseeded_pair_starts_off_zero :
  exists v,
    pair_get_state_default
      (fst (MemristorPair_init MemristorPlusMinus MemristorAnouk_default
              None 1e-1 1e5 two_draws)) = Ok v /\
    0 < v.
Proof.
  set (p := fst (MemristorPair_init MemristorPlusMinus MemristorAnouk_default
                   None 1e-1 1e5 two_draws)).
  destruct unseeded_pair_members as (H1 & H2 & M1 & M2). fold p in H1, H2, M1, M2.
  assert (N1 : nondegenerate (mem_one p)).
  { unfold nondegenerate, r_0, r_1. rewrite H1, M1. simpl. repeat split; lra. }
  assert (N2 : nondegenerate (mem_two p)).
  { unfold nondegenerate, r_0, r_1. rewrite H2, M2. simpl. repeat split; lra. }
  exists (pair_gain_default * (scaled_conductance (mem_one p) + epsilon)
          - pair_gain_default * (scaled_conductance (mem_two p) + epsilon)).
  split.
  - unfold pair_get_state_default, pair_get_state.
    rewrite (get_state_conductance_scaled _ _ N1),
            (get_state_conductance_scaled _ _ N2).
    reflexivity.
  - assert (Hlt : scaled_conductance (mem_two p) < scaled_conductance (mem_one p)).
    { apply scaled_conductance_antitone.
      - rewrite M1, M2. reflexivity.
      - unfold r_0. rewrite M1. simpl. lra.
      - unfold r_0, r_1. rewrite M1. simpl. lra.
      - rewrite H1. lra.
      - rewrite H1, H2. lra. }
    assert (0 < pair_gain_default) by (unfold pair_gain_default; apply pow_lt; lra).
    nra.
Qed.

(** C8, amended.  [get_state] with a selector other than "conductance" and
    "resistance" fails at the call, on a device and on a pair, because
    [ret_val] is never bound.  [get_history] with a selector other than
    "weight", "error" and "conductance" does not fail: it returns [None]. *)
Theorem unknown_selectors {rule : Type} (self : Memristor) (p : MemristorPair)
    (arr : MemristorArray rule) (value select : string) (scaled : bool) (g : R) :
  value <> "conductance"%string -> value <> "resistance"%string ->
  select <> "weight"%string -> select <> "error"%string ->
  select <> "conductance"%string ->
  get_state self value scaled g = Raise UnboundLocalError /\
  pair_get_state p value scaled g = Raise UnboundLocalError /\
  get_history arr select = Ok PyNone.
Proof.
  intros Hc Hr Hw He Hk. split; [|split].
  - apply get_state_unknown; assumption.
  - unfold pair_get_state. rewrite get_state_unknown by assumption. reflexivity.
  - unfold get_history.
    apply String.eqb_neq in Hw, He, Hk. rewrite Hw, He, Hk. reflexivity.
Qed.

Lemma unknown_selectors_witness :
  get_state anouk_device "weight" true 1 = Raise UnboundLocalError /\
  pair_get_state anouk_pair "weight" true 1 = Raise UnboundLocalError /\
  get_history square_array "resistance" = Ok PyNone.
Proof.
  apply (unknown_selectors anouk_device anouk_pair square_array
           "weight" "resistance" true 1); discriminate.
Defined.

(** C8, as stated, fails for [get_history]: the selector "resistance" is
    none of the three it knows, and the call returns [None] without
    failing. *)
Lemma get_history_unknown_returns_none :
  get_history square_array "resistance" = Ok PyNone.
Proof. reflexivity. Qed.

End ConstructionClaims.

(** ** Properties of the array controller *)

Section ArrayClaims.

#[local] Arguments get_state : simpl never.
#[local] Arguments scaled_conductance : simpl never.
#[local] Arguments dot : simpl never.
#[local] Arguments pulse : simpl never.
#[local] Arguments pulse_steps : simpl never.

(** The unscaled read-out that the logging block takes of a default
    [MemristorAnouk] at [1e8]. *)
Lemma anouk_device_unscaled (m : Memristor) :
  r_curr m = 1e8 -> model m = MemristorAnouk_default ->
  get_state m "conductance" false 1 = Ok (1 * (1 / r_curr m + epsilon)).
Proof.
  intros Hr Hm. apply get_state_conductance_unscaled; unfold r_0, r_1;
    rewrite ?Hr, ?Hm; simpl; lra.
Qed.

(** One positive pulse on the built device. *)
Lemma built_device_pulsed (g : R) :
  let m1 := snd (pulse_steps 1 (voltage (built_device g) 1) (built_device g)) in
  pulse (built_device g) 1 (VoltageConverter 1) =
    (Ok (g * (scaled_conductance m1 + epsilon)), m1, VoltageConverter 1) /\
  gain m1 = g /\ model m1 = MemristorAnouk_default /\
  100 < r_curr m1 <= 1e8.
Proof.
  intros m1.
  assert (HV : voltage (built_device g) 1 = 1 * 1e-1)
    by (unfold voltage; rewrite np_sign_pos by lra; reflexivity).
  assert (Hok : law_ok (model (built_device g)) (voltage (built_device g) 1))
    by (rewrite HV; simpl; lra).
  assert (Hin : within (law_trend (model (built_device g)) (voltage (built_device g) 1))
                  (r_curr (built_device g)))
    by (simpl; lra).
  assert (Hmov : moving (law_trend (model (built_device g)) (voltage (built_device g) 1)))
    by exact I.
  pose proof (pulse_steps_follows 1 _ (built_device g) Hok Hin) as Hfol.
  pose proof (pulse_steps_frame 1 (voltage (built_device g) 1) (built_device g))
    as (_ & _ & _ & Hg & Hm).
  fold m1 in Hfol, Hg, Hm. simpl in Hfol, Hg, Hm.
  assert (Hnd : nondegenerate m1).
  { unfold nondegenerate, r_0, r_1. rewrite Hm. simpl. repeat split; lra. }
  split; [|split; [exact Hg | split; [exact Hm | lra]]].
  rewrite (pulse_baseline (built_device g) 1 1) by (try assumption; lra).
  fold m1. rewrite (get_state_conductance_scaled m1 (gain m1) Hnd), Hg.
  reflexivity.
Qed.

(** One call on the built array: the rule pulses element (0, 0), the call
    returns, and the weight is what the pulse returned. *)
Lemma built_array_call (g : R) :
  let m1 := snd (pulse_steps 1 (voltage (built_device g) 1) (built_device g)) in
  is_ok (fst (forward (built_array g) 0 [1])) = true /\
  exists out arr1,
    MemristorArray_call (built_array g) 0 [1] = (Ok out, arr1) /\
    memristors (store arr1) = [[Device (save_state m1)]] /\
    weights (store arr1) = [[g * (scaled_conductance m1 + epsilon)]].
Proof.
  intros m1.
  destruct (built_device_pulsed g) as (Hp & Hg & Hm & Hr). fold m1 in Hp, Hg, Hm, Hr.
  assert (Hf : forward (built_array g) 0 [1] =
            (np_dot 1 [[g * (scaled_conductance m1 + epsilon)]] [1],
             with_rule_store (built_array g) one_pulse_rule
               {| weights := [[g * (scaled_conductance m1 + epsilon)]];
                  memristors := [[Device m1]];
                  voltage_converter := VoltageConverter 1 |})).
  { unfold forward.
    cbn [learning_rule built_array has_learning_signal PulsingRule_LearningRule
         one_pulse_rule consumes_flag rule_call store].
    unfold PulsingRule_call.
    cbn [drive one_pulse_rule pulse_elements pulse_element memristors weights
         voltage_converter mat_get nth_error component_pulse].
    rewrite Hp.
    cbn [mat_set nth_error length Nat.ltb Nat.leb list_set memristors weights
         voltage_converter rule_input_size firstn].
    reflexivity. }
  split; [rewrite Hf; reflexivity|].
  assert (Hread : get_state (save_state m1) "conductance" false 1 =
                  Ok (1 * (1 / r_curr m1 + epsilon))).
  { apply (get_state_conductance_unscaled (save_state m1) 1);
      unfold r_0, r_1; cbn [save_state r_curr model]; rewrite ?Hm; simpl; lra. }
  assert (Hrc : read_conductances 1 1 [[Device (save_state m1)]] =
                Ok [[1 * (1 / r_curr m1 + epsilon)]]).
  { unfold read_conductances, range. cbn [seq for_each].
    unfold conductance_at. cbn [mat_get nth_error component_get_state].
    rewrite Hread.
    cbn [np_zeros repeat mat_set nth_error length Nat.ltb Nat.leb list_set].
    reflexivity. }
  unfold MemristorArray_call. rewrite Hf. unfold np_dot, log_call. cbn.
  rewrite Hrc.
  eexists. eexists. split; [reflexivity|]. split; reflexivity.
Qed.

(** The array invariant where the gains coincide.  For a [MemristorArray]
    built with the default gain [1e5] (and, when its elements are pairs,
    with an int seed) around a rule that pulses elements and stores what
    each pulse returns, immediately after construction and immediately
    after every invocation that got as far as producing its value,
    [weights] and [memristors] have one shape and, for all [j], [i],
    [weights[j, i]] is the live read-out of [memristors[j, i]]: the scaled
    conductance at gain [1e5] of a single device, the difference of the two
    members' scaled conductances at gain [1e5] of a pair. *)
Theorem reachable_arrays_are_synced (arr : MemristorArray PulsingRule) :
  reachable arr -> synced (store arr).
Proof.
  induction 1 as [mm lr n m seed vc bv w arr Hpin Hinit | arr t x Hreach IH Hok].
  - apply (MemristorArray_init_synced mm lr n m seed vc bv w arr Hpin Hinit).
  - apply MemristorArray_call_keeps; assumption.
Qed.

(** The array built around one default device, after one learning call. *)
Lemma reachable_arrays_are_synced_witness :
  synced (store (snd (MemristorArray_call (built_array gain_default) 0 [1]))).
Proof.
  apply (reachable_arrays_are_synced
           (snd (MemristorArray_call (built_array gain_default) 0 [1]))).
  apply after_call.
  - apply (after_init (DeviceModel MemristorAnouk_default) one_pulse_rule 1 1
             (Some 0%Z) (VoltageConverter 1) 1e-1 two_draws).
    + exact I.
    + rewrite built_array_init. reflexivity.
  - apply (proj1 (built_array_call gain_default)).
Defined.

(** C1, at gain [1e3].  An array of one default [MemristorAnouk] built
    with [gain=1e3].  After construction the weight is [get_state()], read
    at the default gain [1e5], and exceeds the current scaled state of the
    device at its own gain, which is what [pulse(0)] returns.  After one
    call in which the rule pulses the element, the weight is what [pulse]
    returned, at the device's own gain, and is below what [get_state()] now
    reads.  Whichever of the two gains the scaled conductance is taken at,
    the weight differs from it at one of the two moments. *)
Theorem weights_out_of_step :
  exists (w0 g0 : R) (out : list R) (arr1 : MemristorArray PulsingRule)
         (m1 : Memristor) (w1 g1 : R),
    MemristorArray_init (DeviceModel MemristorAnouk_default) one_pulse_rule 1 1
      (Some 0%Z) (VoltageConverter 1) 1e-1 1e3 two_draws =
      (Ok (built_array 1e3), two_draws) /\
    memristors (store (built_array 1e3)) = [[Device (built_device 1e3)]] /\
    weights (store (built_array 1e3)) = [[w0]] /\
    get_state_default (built_device 1e3) = Ok w0 /\
    pulse (built_device 1e3) 0 (VoltageConverter 1) =
      (Ok g0, built_device 1e3, VoltageConverter 1) /\
    g0 < w0 /\
    MemristorArray_call (built_array 1e3) 0 [1] = (Ok out, arr1) /\
    memristors (store arr1) = [[Device m1]] /\
    weights (store arr1) = [[w1]] /\
    get_state_default m1 = Ok g1 /\
    w1 < g1.
Proof.
  destruct (built_array_call 1e3) as (_ & out & arr1 & Hcall & Hms & Hws).
  destruct (built_device_pulsed 1e3) as (_ & Hg & Hm & Hr).
  set (m1 := snd (pulse_steps 1 (voltage (built_device 1e3) 1) (built_device 1e3))) in *.
  assert (Hgain : 1e3 < gain_default) by (unfold gain_default; lra).
  assert (Hs0 : 0 < scaled_conductance (built_device 1e3)).
  { apply scaled_conductance_pos; unfold r_0, r_1; simpl; lra. }
  assert (Hs1 : 0 < scaled_conductance (save_state m1)).
  { apply scaled_conductance_pos; unfold r_0, r_1;
      cbn [save_state r_curr model]; rewrite ?Hm; simpl; lra. }
  assert (Hnd1 : nondegenerate (save_state m1)).
  { unfold nondegenerate, r_0, r_1. cbn [save_state r_curr model].
    rewrite Hm. simpl. repeat split; lra. }
  pose proof epsilon_pos as Heps.
  exists (gain_default * (scaled_conductance (built_device 1e3) + epsilon)),
         (1e3 * (scaled_conductance (built_device 1e3) + epsilon)),
         out, arr1, (save_state m1),
         (1e3 * (scaled_conductance (save_state m1) + epsilon)),
         (gain_default * (scaled_conductance (save_state m1) + epsilon)).
  split; [apply built_array_init|].
  split; [reflexivity|]. split; [reflexivity|].
  split; [apply (get_state_conductance_scaled _ _ (built_device_nondegenerate 1e3))|].
  split.
  { rewrite pulse_zero.
    rewrite (get_state_conductance_scaled _ _ (built_device_nondegenerate 1e3)).
    reflexivity. }
  split; [nra|].
  split; [exact Hcall|]. split; [exact Hms|]. split; [exact Hws|].
  split; [apply (get_state_conductance_scaled _ _ Hnd1) | nra].
Qed.

(** The 2x2 example: weights [[1, 2], [3, 4]], activities [1, 1], flag 0. *)
Lemma infer_call_on_square_array :
  exists arr1,
    MemristorArray_call square_array 0 [1; 1; 0] = (Ok [3; 7], arr1) /\
    weights (store arr1) = [[1; 2]; [3; 4]].
Proof.
  assert (Hf : forward square_array 0 [1; 1; 0] = (Ok [3; 7], square_array)).
  { unfold forward. cbn [learning_rule square_array has_learning_signal
                         PulsingRule_LearningRule idle_rule consumes_flag
                         last_item last].
    rewrite np_rint_0. cbn. unfold np_dot. cbn. unfold dot. cbn.
    f_equal. f_equal. f_equal; [lra|]. f_equal. lra. }
  assert (Hrc : exists c,
            read_conductances 2 2
              [[Device (save_state anouk_device); Device (save_state anouk_device)];
               [Device (save_state anouk_device); Device (save_state anouk_device)]]
            = Ok c).
  { unfold read_conductances, range. cbn [seq for_each].
    unfold conductance_at. cbn [mat_get nth_error component_get_state].
    rewrite anouk_device_unscaled by reflexivity.
    cbn [np_zeros repeat mat_set nth_error length Nat.ltb Nat.leb list_set].
    eexists. reflexivity. }
  destruct Hrc as [c Hrc].
  unfold MemristorArray_call. rewrite Hf. unfold log_call. cbn.
  rewrite Hrc. eexists. split; reflexivity.
Qed.

(** C2, at a 2x1 array.  In Infer mode the product [[1, 2]] is computed,
    but the call does not return it: the loop that fills [conductances]
    indexes [memristors[j, i]] with [i] over the outputs and [j] over the
    inputs, and raises [IndexError] at [[0, 1]]. *)
Theorem infer_call_on_tall_array_raises :
  fst (forward tall_array 0 [1; 0]) = Ok [1; 2] /\
  fst (MemristorArray_call tall_array 0 [1; 0]) = Raise IndexError.
Proof.
  assert (Hf : forward tall_array 0 [1; 0] = (Ok [1; 2], tall_array)).
  { unfold forward. cbn [learning_rule tall_array has_learning_signal
                         PulsingRule_LearningRule idle_rule consumes_flag
                         last_item last].
    rewrite np_rint_0. cbn [Z.eqb negb has_error_signal produces_error].
    cbn. unfold np_dot. cbn. unfold dot. cbn.
    f_equal. f_equal. f_equal; [lra|]. f_equal. lra. }
  split; [rewrite Hf; reflexivity|].
  unfold MemristorArray_call. rewrite Hf.
  unfold log_call. cbn.
  assert (Hrc : read_conductances 2 1
           [[Device (save_state anouk_device)];
            [Device (save_state anouk_device)]] = Raise IndexError).
  { unfold read_conductances, range. cbn [seq for_each].
    unfold conductance_at at 1. cbn [mat_get nth_error component_get_state].
    rewrite anouk_device_unscaled by reflexivity.
    cbn [np_zeros repeat mat_set nth_error length Nat.ltb Nat.leb list_set].
    unfold conductance_at. cbn [mat_get nth_error]. reflexivity. }
  rewrite Hrc. reflexivity.
Qed.

(** The Infer mode, for every array and every rule with a learning-phase
    flag: when the last element of the input rounds to 0, the value the
    call computes is the product of [weights] with the stripped input, and
    that is what the call returns if it returns; the rule is not called;
    and whether the call returns or raises, [weights] and the quantizer are
    what they were and every element holds the resistances it held. *)
Theorem infer_call_reads_only {rule : Type} `{LearningRule rule}
    (arr : MemristorArray rule) (t : R) (x : list R) (flag : R) :
  has_learning_signal (learning_rule arr) = true ->
  last_item x = Ok flag -> np_rint flag = 0%Z ->
  let after := snd (MemristorArray_call arr t x) in
  forward arr t x =
    (np_dot (input_size arr) (weights (store arr)) (stripped arr x), arr) /\
  (forall ret, fst (MemristorArray_call arr t x) = Ok ret ->
     np_dot (input_size arr) (weights (store arr)) (stripped arr x) = Ok ret) /\
  weights (store after) = weights (store arr) /\
  voltage_converter (store after) = voltage_converter (store arr) /\
  learning_rule after = learning_rule arr /\
  Forall2 (Forall2 same_resistances) (memristors (store after)) (memristors (store arr)).
Proof.
  intros Hflag Hlast Hrint after.
  assert (Hf : forward arr t x =
            (np_dot (input_size arr) (weights (store arr)) (stripped arr x), arr)).
  { unfold forward, stripped. rewrite Hflag, Hlast, Hrint. cbn [Z.eqb negb].
    destruct (has_error_signal (learning_rule arr)); reflexivity. }
  split; [exact Hf|].
  assert (Hrefl : Forall2 (Forall2 same_resistances) (memristors (store arr))
                    (memristors (store arr))).
  { induction (memristors (store arr)) as [|row rows IH]; constructor; [|exact IH].
    induction row as [|c row IHrow]; constructor; [reflexivity | exact IHrow]. }
  assert (Hstable : forall c b, same_resistances c b ->
                               same_resistances (component_save_state c) b).
  { intros [m|p] b Hcb; exact Hcb. }
  unfold after, MemristorArray_call. rewrite Hf.
  destruct (np_dot (input_size arr) (weights (store arr)) (stripped arr x))
    as [ret|e] eqn:Edot.
  - destruct (log_call_frame arr) as (Hw & Hvc & Hlr & Hms).
    specialize (Hms component same_resistances (memristors (store arr)) Hstable Hrefl).
    destruct (log_call arr) as [[u|e] arr2]; cbn in *.
    + split; [intros ret' [= <-]; reflexivity|]. repeat split; assumption.
    + split; [intros ret' Hc; discriminate|]. repeat split; assumption.
  - cbn. split; [intros ret' Hc; discriminate|]. repeat split; try reflexivity.
    exact Hrefl.
Qed.

(** The 2x2 example as an instance. *)
Lemma infer_call_reads_only_witness :
  let after := snd (MemristorArray_call square_array 0 [1; 1; 0]) in
  forward square_array 0 [1; 1; 0] =
    (np_dot (input_size square_array) (weights (store square_array))
            (stripped square_array [1; 1; 0]), square_array) /\
  (forall ret, fst (MemristorArray_call square_array 0 [1; 1; 0]) = Ok ret ->
     np_dot (input_size square_array) (weights (store square_array))
            (stripped square_array [1; 1; 0]) = Ok ret) /\
  weights (store after) = weights (store square_array) /\
  voltage_converter (store after) = voltage_converter (store square_array) /\
  learning_rule after = learning_rule square_array /\
  Forall2 (Forall2 same_resistances) (memristors (store after))
          (memristors (store square_array)).
Proof.
  apply (infer_call_reads_only square_array 0 [1; 1; 0] 0).
  - reflexivity.
  - reflexivity.
  - apply np_rint_0.
Defined.

End ArrayClaims.


(** * Further properties of the code *)

(** ** Device laws and pulses *)

Section LawInverses.

Lemma Rpower_inverse' (y e : R) : 0 < y -> e <> 0 -> Rpower (Rpower y e) (1 / e) = y.
Proof.
  intros Hy He. rewrite Rpower_mult.
  replace (e * (1 / e)) with 1 by (field; exact He).
  apply Rpower_1. exact Hy.
Qed.

(** The two anchored branches as round trips. *)
Lemma lower_round_trip (Res r0 r1 e : R) :
  0 < r1 -> e <> 0 -> r0 < Res ->
  exists n, invert_lower Res r0 r1 e = Ok n /\ 0 < n /\
            py_pow n e = Ok ((Res - r0) / r1).
Proof.
  intros H1 He Hres.
  assert (Hx : 0 < (Res - r0) / r1) by (apply Rdiv_lt_0_compat; lra).
  exists (Rpower ((Res - r0) / r1) (1 / e)).
  split; [|split].
  - unfold invert_lower. rewrite py_div_ok by lra. cbn [bind].
    rewrite py_div_ok by exact He. cbn [bind]. apply py_pow_pos. exact Hx.
  - apply Rpower_pos.
  - rewrite py_pow_pos by apply Rpower_pos.
    rewrite Rpower_inverse by assumption. reflexivity.
Qed.

Lemma lower_trip_round (n r0 r1 e : R) :
  0 < r1 -> e <> 0 -> 0 < n ->
  py_pow n e = Ok (Rpower n e) /\
  r0 < r0 + r1 * Rpower n e /\
  invert_lower (r0 + r1 * Rpower n e) r0 r1 e = Ok n.
Proof.
  intros H1 He Hn. pose proof (Rpower_pos n e) as Hp.
  split; [apply py_pow_pos; exact Hn|]. split; [nra|].
  unfold invert_lower. rewrite py_div_ok by lra. cbn [bind].
  rewrite py_div_ok by exact He. cbn [bind].
  replace ((r0 + r1 * Rpower n e - r0) / r1) with (Rpower n e) by (field; lra).
  rewrite py_pow_pos by exact Hp.
  rewrite Rpower_inverse' by assumption. reflexivity.
Qed.

Lemma upper_round_trip (Res e : R) :
  e <> 0 -> Res < r_3 ->
  exists n, invert_upper Res e = Ok n /\ 0 < n /\
            py_pow n e = Ok ((r_3 - Res) / r_3).
Proof.
  intros He Hres. pose proof r_3_pos as H3.
  assert (Hx : 0 < (r_3 - Res) / r_3) by (apply Rdiv_lt_0_compat; lra).
  exists (Rpower ((r_3 - Res) / r_3) (1 / e)).
  split; [|split].
  - unfold invert_upper. rewrite py_div_ok by lra. cbn [bind].
    rewrite py_div_ok by exact He. cbn [bind]. apply py_pow_pos. exact Hx.
  - apply Rpower_pos.
  - rewrite py_pow_pos by apply Rpower_pos.
    rewrite Rpower_inverse by assumption. reflexivity.
Qed.

Lemma upper_trip_round (n e : R) :
  e <> 0 -> 0 < n ->
  py_pow n e = Ok (Rpower n e) /\
  r_3 - r_3 * Rpower n e < r_3 /\
  invert_upper (r_3 - r_3 * Rpower n e) e = Ok n.
Proof.
  intros He Hn. pose proof (Rpower_pos n e) as Hp. pose proof r_3_pos as H3.
  split; [apply py_pow_pos; exact Hn|]. split; [nra|].
  unfold invert_upper. rewrite py_div_ok by lra. cbn [bind].
  rewrite py_div_ok by exact He. cbn [bind].
  replace ((r_3 - (r_3 - r_3 * Rpower n e)) / r_3) with (Rpower n e) by (field; lra).
  rewrite py_pow_pos by exact Hp.
  rewrite Rpower_inverse' by assumption. reflexivity.
Qed.

(** The two directions of a law are inverse to each other on a moving
    branch. *)
Lemma law_inverse (l : law) (V : R) :
  law_ok l V -> moving (law_trend l V) ->
  (forall Res rc, within (law_trend l V) Res ->
     exists n, compute_pulse_number l Res V = Ok (Some n) /\ 0 < n /\
               compute_resistance l rc n V = Ok Res) /\
  (forall n rc, 0 < n ->
     exists Res, compute_resistance l rc n V = Ok Res /\
                 within (law_trend l V) Res /\
                 compute_pulse_number l Res V = Ok (Some n)).
Proof.
  intros Hok Hmov.
  destruct l as [a r0 r1 | a c r0 r1 | r0 r1 a b | r0 r1 a b c d]; simpl in *.
  - destruct (Rlt_b 0 V) eqn:EV; [|contradiction].
    apply Rlt_b_spec in EV. rewrite Rle_b_true by lra.
    destruct Hok as [H1 Ha]. split.
    + intros Res rc Hin.
      destruct (lower_round_trip Res r0 r1 a H1 ltac:(lra) Hin) as (n & E1 & Hn & E2).
      exists n. rewrite E1, E2. cbn [bind]. repeat split; try assumption.
      f_equal. field. lra.
    + intros n rc Hn.
      destruct (lower_trip_round n r0 r1 a H1 ltac:(lra) Hn) as (E1 & Hin & E2).
      exists (r0 + r1 * Rpower n a). rewrite E1, E2. cbn [bind].
      repeat split; assumption.
  - destruct Hok as (H1 & Ha & Hc).
    destruct (Rlt_b 0 V) eqn:EV.
    + apply Rlt_b_spec in EV. rewrite Rle_b_true by lra. split.
      * intros Res rc Hin.
        destruct (lower_round_trip Res r0 r1 a H1 ltac:(lra) Hin) as (n & E1 & Hn & E2).
        exists n. rewrite E1, E2. cbn [bind]. repeat split; try assumption.
        f_equal. field. lra.
      * intros n rc Hn.
        destruct (lower_trip_round n r0 r1 a H1 ltac:(lra) Hn) as (E1 & Hin & E2).
        exists (r0 + r1 * Rpower n a). rewrite E1, E2. cbn [bind].
        repeat split; assumption.
    + destruct (Rlt_b V 0) eqn:EV'; [|contradiction].
      apply Rlt_b_spec in EV'. rewrite Rle_b_false by lra.
      pose proof r_3_pos as H3. split.
      * intros Res rc Hin.
        destruct (upper_round_trip Res c ltac:(lra) Hin) as (n & E1 & Hn & E2).
        exists n. rewrite E1, E2. cbn [bind]. repeat split; try assumption.
        f_equal. field. lra.
      * intros n rc Hn.
        destruct (upper_trip_round n c ltac:(lra) Hn) as (E1 & Hin & E2).
        exists (r_3 - r_3 * Rpower n c). rewrite E1, E2. cbn [bind].
        repeat split; assumption.
  - destruct Hok as [H1 He]. split.
    + intros Res rc Hin.
      destruct (lower_round_trip Res r0 r1 (a + b * V) H1 ltac:(lra) Hin)
        as (n & E1 & Hn & E2).
      exists n. rewrite E1, E2. cbn [bind]. repeat split; try assumption.
      f_equal. field. lra.
    + intros n rc Hn.
      destruct (lower_trip_round n r0 r1 (a + b * V) H1 ltac:(lra) Hn)
        as (E1 & Hin & E2).
      exists (r0 + r1 * Rpower n (a + b * V)). rewrite E1, E2. cbn [bind].
      repeat split; assumption.
  - destruct Hok as (H1 & Hp & Hm).
    destruct (Rlt_b 0 V) eqn:EV.
    + apply Rlt_b_spec in EV. rewrite Rle_b_true by lra.
      specialize (Hp EV). split.
      * intros Res rc Hin.
        destruct (lower_round_trip Res r0 r1 (a + b * V) H1 ltac:(lra) Hin)
          as (n & E1 & Hn & E2).
        exists n. rewrite E1, E2. cbn [bind]. repeat split; try assumption.
        f_equal. field. lra.
      * intros n rc Hn.
        destruct (lower_trip_round n r0 r1 (a + b * V) H1 ltac:(lra) Hn)
          as (E1 & Hin & E2).
        exists (r0 + r1 * Rpower n (a + b * V)). rewrite E1, E2. cbn [bind].
        repeat split; assumption.
    + destruct (Rlt_b V 0) eqn:EV'; [|contradiction].
      apply Rlt_b_spec in EV'. rewrite Rle_b_false by lra.
      specialize (Hm EV'). pose proof r_3_pos as H3. split.
      * intros Res rc Hin.
        destruct (upper_round_trip Res (c + d * - V) ltac:(lra) Hin)
          as (n & E1 & Hn & E2).
        exists n. rewrite E1, E2. cbn [bind]. repeat split; try assumption.
        f_equal. field. lra.
      * intros n rc Hn.
        destruct (upper_trip_round n (c + d * - V) ltac:(lra) Hn) as (E1 & Hin & E2).
        exists (r_3 - r_3 * Rpower n (c + d * - V)). rewrite E1, E2. cbn [bind].
        repeat split; assumption.
Qed.

(** Inverting a resistance and evaluating the law at the pulse number found
    gives the resistance back; evaluating the law at a positive pulse number
    and inverting gives the pulse number back.  [rc] is the [self.r_curr]
    of the moment, which a moving branch does not read. *)
Theorem law_round_trips (l : law) (V : R) :
  law_ok l V -> moving (law_trend l V) ->
  (forall Res rc, within (law_trend l V) Res ->
     exists n, compute_pulse_number l Res V = Ok (Some n) /\ 0 < n /\
               compute_resistance l rc n V = Ok Res) /\
  (forall n rc, 0 < n ->
     exists Res, compute_resistance l rc n V = Ok Res /\
                 within (law_trend l V) Res /\
                 compute_pulse_number l Res V = Ok (Some n)).
Proof. exact (law_inverse l V). Qed.

Lemma law_round_trips_witness :
  (forall Res rc, within (law_trend MemristorAnouk_default 1e-1) Res ->
     exists n, compute_pulse_number MemristorAnouk_default Res 1e-1 = Ok (Some n) /\
               0 < n /\
               compute_resistance MemristorAnouk_default rc n 1e-1 = Ok Res) /\
  (forall n rc, 0 < n ->
     exists Res, compute_resistance MemristorAnouk_default rc n 1e-1 = Ok Res /\
                 within (law_trend MemristorAnouk_default 1e-1) Res /\
                 compute_pulse_number MemristorAnouk_default Res 1e-1 = Ok (Some n)).
Proof.
  apply (law_round_trips MemristorAnouk_default 1e-1).
  - unfold law_ok, MemristorAnouk_default. split; lra.
  - exact I.
Defined.

End LawInverses.

Section PulseTrajectory.

(** [k] completed iterations of the loop advance the pulse number by
    exactly [k]: the resistance reached is the law evaluated [k] pulses past
    the pulse number of the resistance the device started from. *)
Theorem pulse_steps_closed_form (k : nat) (V : R) :
  forall (self : Memristor) (n : R),
    law_ok (model self) V ->
    moving (law_trend (model self) V) ->
    within (law_trend (model self) V) (r_curr self) ->
    compute_pulse_number (model self) (r_curr self) V = Ok (Some n) ->
    pulse_steps k V self =
      (Ok tt, set_r_curr self (r_curr (snd (pulse_steps k V self)))) /\
    forall rc,
      compute_resistance (model self) rc (n + INR k) V =
        Ok (r_curr (snd (pulse_steps k V self))).
Proof.
  induction k as [|k IH]; intros self n Hok Hmov Hin Hn.
  - cbn [pulse_steps snd INR]. rewrite set_r_curr_same. split; [reflexivity|].
    intros rc.
    destruct (law_inverse _ _ Hok Hmov) as [Hrt _].
    destruct (Hrt (r_curr self) rc Hin) as (n' & En & _ & Er).
    rewrite Hn in En. injection En as <-.
    rewrite Rplus_0_r. exact Er.
  - destruct (law_inverse _ _ Hok Hmov) as [Hrt Htr].
    destruct (Hrt (r_curr self) (r_curr self) Hin) as (n' & En & Hpos & _).
    rewrite Hn in En. injection En as <-.
    destruct (Htr (n + 1) (r_curr self) ltac:(lra)) as (R1 & Er & Hin1 & En1).
    cbn [pulse_steps]. rewrite Hn, Er.
    specialize (IH (set_r_curr self R1) (n + 1) Hok Hmov Hin1 En1).
    destruct IH as [IH1 IH2].
    split.
    + rewrite IH1 at 1. reflexivity.
    + intros rc. rewrite S_INR.
      replace (n + (INR k + 1)) with (n + 1 + INR k) by lra.
      apply IH2.
Qed.

Lemma anouk_device_pulse_number :
  exists n, compute_pulse_number (model anouk_device) (r_curr anouk_device)
              (1 * 1e-1) = Ok (Some n).
Proof.
  destruct (lower_round_trip 1e8 100 (2.5 * 10 ^ 8) (-0.128 + -0.522 * (1 * 1e-1)))
    as (n & E & _); try lra.
  exists n.
  cbn [model anouk_device r_curr MemristorAnouk_default compute_pulse_number].
  rewrite E. reflexivity.
Qed.

Lemma pulse_steps_closed_form_witness :
  exists n,
    compute_pulse_number (model anouk_device) (r_curr anouk_device) (1 * 1e-1)
      = Ok (Some n) /\
    pulse_steps 3 (1 * 1e-1) anouk_device =
      (Ok tt, set_r_curr anouk_device
                (r_curr (snd (pulse_steps 3 (1 * 1e-1) anouk_device)))) /\
    forall rc,
      compute_resistance (model anouk_device) rc (n + INR 3) (1 * 1e-1) =
        Ok (r_curr (snd (pulse_steps 3 (1 * 1e-1) anouk_device))).
Proof.
  destruct anouk_device_pulse_number as [n Hn].
  exists n. split; [exact Hn|].
  apply (pulse_steps_closed_form 3 (1 * 1e-1) anouk_device n).
  - simpl. lra.
  - exact I.
  - simpl. lra.
  - exact Hn.
Defined.

(** A strict step. *)
Lemma one_step_advances (l : law) (r V : R) :
  law_ok l V -> within (law_trend l V) r -> moving (law_trend l V) ->
  forall n r',
    compute_pulse_number l r V = Ok (Some n) ->
    compute_resistance l r (n + 1) V = Ok r' ->
    advances (law_trend l V) r r'.
Proof.
  intros Hok Hin Hmov n r' Hn Hr.
  destruct l as [a r0 r1 | a c r0 r1 | r0 r1 a b | r0 r1 a b c d];
    simpl in *.
  - destruct (Rlt_b 0 V) eqn:EV; [|contradiction].
    apply Rlt_b_spec in EV. rewrite Rle_b_true in Hn by lra.
    destruct Hok as [H1 Ha].
    destruct (lower_branch r r0 r1 a H1 Ha Hin) as (n0 & p & E1 & E2 & Hb).
    rewrite E1 in Hn. simpl in Hn. injection Hn as <-.
    rewrite E2 in Hr. simpl in Hr. injection Hr as <-. simpl. lra.
  - destruct Hok as (H1 & Ha & Hc).
    destruct (Rlt_b 0 V) eqn:EV.
    + apply Rlt_b_spec in EV. rewrite Rle_b_true in Hn by lra.
      destruct (lower_branch r r0 r1 a H1 Ha Hin) as (n0 & p & E1 & E2 & Hb).
      rewrite E1 in Hn. simpl in Hn. injection Hn as <-.
      rewrite E2 in Hr. simpl in Hr. injection Hr as <-. simpl. lra.
    + destruct (Rlt_b V 0) eqn:EV'; [|contradiction].
      apply Rlt_b_spec in EV'. rewrite Rle_b_false in Hn by lra.
      destruct (upper_branch r c Hc Hin) as (n0 & p & E1 & E2 & Hb).
      rewrite E1 in Hn. simpl in Hn. injection Hn as <-.
      rewrite E2 in Hr. simpl in Hr. injection Hr as <-. simpl. lra.
  - destruct Hok as [H1 He].
    destruct (lower_branch r r0 r1 (a + b * V) H1 He Hin) as (n0 & p & E1 & E2 & Hb).
    rewrite E1 in Hn. simpl in Hn. injection Hn as <-.
    rewrite E2 in Hr. simpl in Hr. injection Hr as <-. simpl. lra.
  - destruct Hok as (H1 & Hp & Hm).
    destruct (Rlt_b 0 V) eqn:EV.
    + apply Rlt_b_spec in EV. rewrite Rle_b_true in Hn by lra.
      destruct (lower_branch r r0 r1 (a + b * V) H1 (Hp EV) Hin)
        as (n0 & p & E1 & E2 & Hb).
      rewrite E1 in Hn. simpl in Hn. injection Hn as <-.
      rewrite E2 in Hr. simpl in Hr. injection Hr as <-. simpl. lra.
    + destruct (Rlt_b V 0) eqn:EV'; [|contradiction].
      apply Rlt_b_spec in EV'. rewrite Rle_b_false in Hn by lra.
      destruct (upper_branch r (c + d * - V) (Hm EV') Hin)
        as (n0 & p & E1 & E2 & Hb).
      rewrite E1 in Hn. simpl in Hn. injection Hn as <-.
      rewrite E2 in Hr. simpl in Hr. injection Hr as <-. simpl. lra.
Qed.

Lemma advances_then_follows (t : trend) (r1 r2 r3 : R) :
  advances t r1 r2 -> follows t r2 r3 -> advances t r1 r3.
Proof. destruct t; simpl; intros; lra. Qed.

Lemma advances_within (t : trend) (r r' : R) : advances t r r' -> within t r'.
Proof. destruct t; simpl; intros; lra || contradiction. Qed.

(** One pulse of at least one step in a moving direction. *)
Lemma pulse_advances (self : Memristor) (signal : R) (vc vc' : converter)
    (k : Z) :
  signal <> 0 -> convert vc signal = (Ok k, vc') -> (1 <= k)%Z ->
  law_ok (model self) (voltage self signal) ->
  within (law_trend (model self) (voltage self signal)) (r_curr self) ->
  moving (law_trend (model self) (voltage self signal)) ->
  let after := pulse self signal vc in
  advances (law_trend (model self) (voltage self signal))
           (r_curr self) (r_curr (device_after after)) /\
  fst (fst after) =
    get_state (device_after after) "conductance" true (gain self) /\
  converter_after after = vc'.
Proof.
  intros Hs Hconv Hk Hok Hin Hmov after.
  unfold after, pulse, device_after, converter_after.
  rewrite Req_b_false by exact Hs. rewrite Hconv. fold (voltage self signal).
  pose proof (pulse_steps_ok (Z.to_nat k) _ self Hok Hin Hmov) as Hrun.
  pose proof (pulse_steps_frame (Z.to_nat k) (voltage self signal) self)
    as (_ & _ & _ & Hgain & _).
  assert (Hadv : advances (law_trend (model self) (voltage self signal))
                   (r_curr self)
                   (r_curr (snd (pulse_steps (Z.to_nat k) (voltage self signal) self)))).
  { destruct (Z.to_nat k) as [|k'] eqn:Ek; [lia|].
    cbn [pulse_steps].
    destruct (one_step_ok _ _ _ Hok Hin Hmov) as (n & r' & En & Er).
    rewrite En, Er.
    pose proof (one_step_advances _ _ _ Hok Hin Hmov _ _ En Er) as Hone.
    apply advances_then_follows with r'; [exact Hone|].
    apply (pulse_steps_follows k' _ (set_r_curr self r')); simpl.
    - exact Hok.
    - apply advances_within with (r_curr self). exact Hone. }
  destruct (pulse_steps (Z.to_nat k) (voltage self signal) self) as [[u|e] m'];
    cbn in *; [|discriminate].
  rewrite Hgain. repeat split. exact Hadv.
Qed.



(** [pulse] writes [r_curr] and nothing else: the history, the seed, the
    base voltage, the gain and the law of the device are what they were,
    however the call ends. *)
Theorem pulse_writes_only_resistance (self : Memristor) (signal : R)
    (vc : converter) :
  device_after (pulse self signal vc) =
    set_r_curr self (r_curr (device_after (pulse self signal vc))).
Proof.
  pose proof (pulse_frame self signal vc) as (Hh & Hs & Hb & Hg & Hm).
  unfold device_after.
  destruct (snd (fst (pulse self signal vc))) as [h r s b g m].
  cbn in *. subst. reflexivity.
Qed.

End PulseTrajectory.

(** ** Read-outs and pairs *)

Section ReadOutScaling.

(** The scaled read-outs inside the range of the law. *)
Lemma scaled_views_in_range (self : Memristor) (g : R) :
  0 < g -> 0 < r_0 self -> r_0 self < r_curr self -> r_curr self <= r_1 self ->
  exists c r,
    get_state self "conductance" true g = Ok c /\
    get_state self "resistance" true g = Ok r /\
    g * epsilon <= c < g * (1 + epsilon) /\
    g * epsilon < r <= g * (1 + epsilon).
Proof.
  intros Hg H0 Hlo Hhi.
  assert (Hnd : nondegenerate self) by (unfold nondegenerate; repeat split; lra).
  exists (g * (scaled_conductance self + epsilon)),
         (g * ((r_curr self - r_0 self) / (r_1 self - r_0 self) + epsilon)).
  split; [apply get_state_conductance_scaled; exact Hnd|].
  split; [apply get_state_resistance_scaled; lra|].
  assert (Hden : 0 < 1 / r_0 self - 1 / r_1 self).
  { assert (/ r_1 self < / r_0 self) by (apply Rinv_lt_contravar; nra). lra. }
  assert (Hsc : 0 <= scaled_conductance self < 1).
  { unfold scaled_conductance. split.
    - apply Rmult_le_pos; [|apply Rlt_le, Rinv_0_lt_compat; exact Hden].
      destruct Hhi as [Hlt|Heq].
      + assert (/ r_1 self < / r_curr self) by (apply Rinv_lt_contravar; nra). lra.
      + rewrite Heq. lra.
    - apply Rmult_lt_reg_r with (1 / r_0 self - 1 / r_1 self); [exact Hden|].
      unfold Rdiv at 1. rewrite Rmult_assoc, Rinv_l by lra.
      assert (/ r_curr self < / r_0 self) by (apply Rinv_lt_contravar; nra). lra. }
  assert (Hrs : 0 < (r_curr self - r_0 self) / (r_1 self - r_0 self) <= 1).
  { split.
    - apply Rdiv_lt_0_compat; lra.
    - apply Rmult_le_reg_r with (r_1 self - r_0 self); [lra|].
      unfold Rdiv. rewrite Rmult_assoc, Rinv_l by lra. lra. }
  pose proof epsilon_pos. split; split; nra.
Qed.

(** Inside the range of its law, [r_0 < r_curr <= r_1], the scaled
    read-outs of a device are defined and, for a positive gain, lie
    within [gain * eps] and [gain * (1 + eps)]: the conductance view is
    below [gain * (1 + eps)], the resistance view is above [gain * eps]. *)
Theorem get_state_scaled_range (self : Memristor) (g : R) :
  0 < g -> 0 < r_0 self -> r_0 self < r_curr self -> r_curr self <= r_1 self ->
  exists c r,
    get_state self "conductance" true g = Ok c /\
    get_state self "resistance" true g = Ok r /\
    g * epsilon <= c < g * (1 + epsilon) /\
    g * epsilon < r <= g * (1 + epsilon).
Proof. exact (scaled_views_in_range self g). Qed.

Lemma get_state_scaled_range_witness :
  exists c r,
    get_state anouk_device "conductance" true 1e5 = Ok c /\
    get_state anouk_device "resistance" true 1e5 = Ok r /\
    1e5 * epsilon <= c < 1e5 * (1 + epsilon) /\
    1e5 * epsilon < r <= 1e5 * (1 + epsilon).
Proof.
  apply (get_state_scaled_range anouk_device 1e5); unfold r_0, r_1; simpl; lra.
Defined.

(** The gain only scales a read-out: whether [get_state] returns does not
    depend on it, and the value returned is proportional to it. *)
Theorem get_state_linear_in_gain (self : Memristor) (value : string)
    (scaled : bool) (g k x : R) :
  get_state self value scaled g = Ok x ->
  exists y, get_state self value scaled k = Ok y /\ g * y = k * x.
Proof.
  intros Hx. destruct (get_state_gain self value scaled g k x Hx) as (u & -> & Hy).
  exists (k * u). split; [exact Hy | lra].
Qed.

Lemma get_state_linear_in_gain_witness :
  exists y, get_state anouk_device "resistance" false 2 = Ok y /\
            1 * y = 2 * (1 * (r_curr anouk_device + epsilon)).
Proof.
  apply (get_state_linear_in_gain anouk_device "resistance" false 1 2).
  reflexivity.
Defined.

(** What a pair's [pulse] returns is ten times what its [get_state()]
    reads right after: the first takes the members at their default gain
    [1e5], the second at the pair's default gain [10**4]. *)
Theorem pair_pulse_is_ten_times_get_state (self : MemristorPair) (signal : R)
    (vc : converter) (w : R) :
  fst (fst (pair_pulse self signal vc)) = Ok w ->
  pair_get_state_default (snd (fst (pair_pulse self signal vc))) = Ok (w / 10).
Proof.
  intros Hw. apply pair_pulse_reports in Hw.
  set (p := snd (fst (pair_pulse self signal vc))) in *.
  unfold pair_difference, get_state_default in Hw.
  unfold pair_get_state_default, pair_get_state.
  destruct (get_state (mem_one p) "conductance" true gain_default) as [x1|e] eqn:E1;
    cbn [bind] in Hw; [|discriminate].
  destruct (get_state (mem_two p) "conductance" true gain_default) as [x2|e] eqn:E2;
    cbn [bind] in Hw; [|discriminate].
  injection Hw as <-.
  destruct (get_state_gain _ _ _ _ pair_gain_default x1 E1) as (u1 & -> & ->).
  destruct (get_state_gain _ _ _ _ pair_gain_default x2 E2) as (u2 & -> & ->).
  cbn [bind]. f_equal. unfold gain_default, pair_gain_default. simpl. lra.
Qed.


(** The complementary policy does not see the sign of the signal: a
    signal and its opposite do the same to the pair and to the quantizer,
    and return the same.  Either way [mem_one] is pulsed with the
    magnitude and [mem_two] with its opposite. *)
Theorem complementary_ignores_sign (self : MemristorPair) (signal : R)
    (vc : converter) :
  policy self = MemristorComplementary ->
  pair_pulse self signal vc = pair_pulse self (- signal) vc /\
  (signal <> 0 ->
   mem_one (snd (fst (pair_pulse self signal vc))) =
     device_after (pulse (mem_one self) (Rabs signal) vc)).
Proof.
  intros Hpol.
  assert (Hbody : forall s, 0 < s ->
            pair_pulse_body MemristorComplementary s (self, vc) =
            seq_ (pulse_one s) (pulse_two (- s)) (self, vc) /\
            pair_pulse_body MemristorComplementary (- s) (self, vc) =
            seq_ (pulse_one s) (pulse_two (- s)) (self, vc)).
  { intros s Hs. cbn [pair_pulse_body].
    rewrite (Rlt_b_true 0 s), (Rlt_b_false s 0), (Rlt_b_false 0 (- s)),
            (Rlt_b_true (- s) 0) by lra.
    rewrite Ropp_involutive. split.
    - unfold seq_ at 1.
      destruct (seq_ (pulse_one s) (pulse_two (- s)) (self, vc)) as [[[]|e] st];
        reflexivity.
    - unfold seq_ at 1, skip. reflexivity. }
  assert (Hone : forall s, 0 < s ->
            mem_one (fst (snd (seq_ (pulse_one s) (pulse_two (- s)) (self, vc)))) =
            device_after (pulse (mem_one self) s vc)).
  { intros s Hs. unfold seq_, pulse_one, pulse_two, device_after.
    destruct (pulse (mem_one self) s vc) as [[[v|e] m] vc1]; cbn.
    - destruct (pulse (mem_two self) (- s) vc1) as [[[v2|e2] m2] vc2]; reflexivity.
    - reflexivity. }
  unfold pair_pulse. rewrite Hpol.
  destruct (Rtotal_order signal 0) as [Hneg | [Hz | Hpos]].
  - destruct (Hbody (- signal) ltac:(lra)) as [Ha Hb].
    pose proof (Hone (- signal) ltac:(lra)) as H1.
    rewrite Ropp_involutive in Ha, Hb, H1. rewrite Ha, Hb.
    split; [reflexivity|]. intros _.
    rewrite Rabs_left by exact Hneg.
    rewrite <- H1.
    destruct (seq_ (pulse_one (- signal)) (pulse_two signal) (self, vc))
      as [[u|e] [p' vc']]; reflexivity.
  - subst signal. rewrite Ropp_0. split; [reflexivity | intros Hc; lra].
  - destruct (Hbody signal Hpos) as [Ha Hb]. rewrite Ha, Hb.
    split; [reflexivity|]. intros _.
    rewrite Rabs_right by lra.
    rewrite <- (Hone signal) by lra.
    destruct (seq_ (pulse_one signal) (pulse_two (- signal)) (self, vc))
      as [[u|e] [p' vc']]; reflexivity.
Qed.

Lemma complementary_ignores_sign_witness :
  let self := {| policy := MemristorComplementary; mem_one := anouk_device;
                 mem_two := anouk_device; pair_seed := Some 0%Z |} in
  pair_pulse self 1 (VoltageConverter 1) = pair_pulse self (- 1) (VoltageConverter 1) /\
  (1 <> 0 ->
   mem_one (snd (fst (pair_pulse self 1 (VoltageConverter 1)))) =
     device_after (pulse (mem_one self) (Rabs 1) (VoltageConverter 1))).
Proof.
  apply (complementary_ignores_sign
           {| policy := MemristorComplementary; mem_one := anouk_device;
              mem_two := anouk_device; pair_seed := Some 0%Z |} 1 (VoltageConverter 1)).
  reflexivity.
Defined.

End ReadOutScaling.

(** ** The adaptive quantizer *)

Section QuantizerCounts.

Lemma observe_min_max (self : LevelsVoltageConverter) (signal : R) :
  observe self signal =
  {| levels := levels self;
     smallest_seen := Rmin (smallest_seen self) signal;
     largest_seen := Rmax (largest_seen self) signal |}.
Proof.
  unfold observe, Rmin, Rmax.
  destruct (Rlt_b signal (smallest_seen self)) eqn:E1; cbn;
    destruct (Rlt_b (largest_seen self) signal) eqn:E2; cbn;
    destruct (Rle_dec (smallest_seen self) signal) as [L1|L1];
    destruct (Rle_dec (largest_seen self) signal) as [L2|L2];
    repeat match goal with
           | H : Rlt_b _ _ = true |- _ => apply Rlt_b_spec in H
           | H : Rlt_b ?x ?y = false |- _ =>
               assert (~ x < y) by (intros Hc; apply Rlt_b_true in Hc; congruence);
               clear H
           end;
    try (exfalso; lra);
    destruct self as [lv lo hi]; cbn in *; f_equal; lra.
Qed.

(** The running extremes after any sequence of calls on a fresh instance
    are the least and the greatest of 0 and the signals seen, whatever the
    calls returned. *)
Theorem running_extremes (n : Z) (signals : list R) :
  snd (feed signals (LevelsVoltageConverter_init n)) =
  {| levels := n;
     smallest_seen := fold_left Rmin signals 0;
     largest_seen := fold_left Rmax signals 0 |}.
Proof.
  unfold LevelsVoltageConverter_init.
  generalize 0 at 1 3 as lo. generalize 0 as hi.
  induction signals as [|s rest IH]; intros hi lo; cbn [feed fold_left snd].
  - reflexivity.
  - unfold LevelsVoltageConverter_call. rewrite observe_min_max.
    cbn [levels smallest_seen largest_seen].
    specialize (IH (Rmax hi s) (Rmin lo s)).
    destruct (feed rest _) as [ns c]. cbn [snd] in *. exact IH.
Qed.

Lemma rank_le_length (steps : list R) (key : R) :
  (rank_in_partition steps key <= length steps)%nat.
Proof. unfold rank_in_partition. apply filter_length_le. Qed.

Lemma rank_monotone (steps : list R) (s1 s2 : R) :
  s1 <= s2 -> (rank_in_partition steps s1 <= rank_in_partition steps s2)%nat.
Proof.
  intros Hs. unfold rank_in_partition.
  induction steps as [|x steps IH]; cbn [filter].
  - lia.
  - destruct (Rle_b x s1) eqn:E1.
    + apply Rle_b_spec in E1. rewrite (Rle_b_true x s2) by lra. cbn. lia.
    + destruct (Rle_b x s2); cbn; lia.
Qed.

Lemma np_linspace_first (start stop : R) (num : Z) :
  (1 <= num)%Z ->
  exists first rest, np_linspace start stop num = Ok (first :: rest) /\ first = start.
Proof.
  intros H. unfold np_linspace.
  destruct (num <? 0)%Z eqn:E; [apply Z.ltb_lt in E; lia|].
  destruct (Z.to_nat num) as [|[|d]] eqn:En; try lia.
  - exists start, []. split; reflexivity.
  - unfold linspace_samples. cbn [seq map app].
    eexists. eexists. split; [reflexivity|]. simpl. lra.
Qed.

(** With at least one level the count is defined and lies between 1 and
    [levels]: every nonzero pulse through the adaptive quantizer takes at
    least one step and at most [levels]. *)
Theorem levels_count_bounds (self : LevelsVoltageConverter) (signal : R) :
  (1 <= levels self)%Z ->
  exists n, fst (LevelsVoltageConverter_call self signal) = Ok n /\
            (1 <= n <= levels self)%Z.
Proof.
  intros Hlev.
  destruct (np_linspace_first (smallest_seen (observe self signal))
              (largest_seen (observe self signal)) (levels self) Hlev)
    as (first & rest & Hlin & Hfirst).
  rewrite (levels_call_rank self signal _ Hlin). cbn [fst].
  eexists. split; [reflexivity|].
  pose proof (rank_le_length (first :: rest) signal) as Hle.
  rewrite (np_linspace_length _ _ _ _ Hlin) in Hle.
  split; [|lia].
  unfold rank_in_partition. cbn [filter].
  rewrite Rle_b_true by (rewrite Hfirst; apply observe_range).
  cbn [length]. lia.
Qed.

Lemma levels_count_bounds_witness :
  exists n, fst (LevelsVoltageConverter_call (LevelsVoltageConverter_init 10) (-3))
              = Ok n /\
            (1 <= n <= levels (LevelsVoltageConverter_init 10))%Z.
Proof.
  apply (levels_count_bounds (LevelsVoltageConverter_init 10) (-3)).
  simpl. lia.
Defined.

(** Two signals inside the running range leave the range as it is, and the
    larger one gets the count that is at least as large: for a range that
    no longer moves the count is monotone in the signal. *)
Theorem levels_count_monotone (self : LevelsVoltageConverter) (s1 s2 : R) :
  (0 <= levels self)%Z ->
  smallest_seen self <= s1 -> s1 <= s2 -> s2 <= largest_seen self ->
  exists n1 n2,
    LevelsVoltageConverter_call self s1 = (Ok n1, self) /\
    LevelsVoltageConverter_call self s2 = (Ok n2, self) /\
    (n1 <= n2)%Z.
Proof.
  intros Hlev Hlo H12 Hhi.
  assert (Hobs : forall s, smallest_seen self <= s <= largest_seen self ->
                           observe self s = self).
  { intros s [Ha Hb]. rewrite observe_min_max.
    rewrite Rmin_left by exact Ha. rewrite Rmax_left by exact Hb.
    destruct self; reflexivity. }
  destruct (np_linspace_ok (smallest_seen self) (largest_seen self) (levels self) Hlev)
    as [steps Hlin].
  exists (Z.of_nat (rank_in_partition steps s1)),
         (Z.of_nat (rank_in_partition steps s2)).
  split; [|split].
  - rewrite (levels_call_rank self s1 steps);
      rewrite Hobs by lra; [reflexivity | exact Hlin].
  - rewrite (levels_call_rank self s2 steps);
      rewrite Hobs by lra; [reflexivity | exact Hlin].
  - apply Nat2Z.inj_le. apply rank_monotone. exact H12.
Qed.

Lemma levels_count_monotone_witness :
  exists n1 n2,
    LevelsVoltageConverter_call
      {| levels := 10; smallest_seen := -5; largest_seen := 10 |} 1
      = (Ok n1, {| levels := 10; smallest_seen := -5; largest_seen := 10 |}) /\
    LevelsVoltageConverter_call
      {| levels := 10; smallest_seen := -5; largest_seen := 10 |} 2
      = (Ok n2, {| levels := 10; smallest_seen := -5; largest_seen := 10 |}) /\
    (n1 <= n2)%Z.
Proof.
  apply (levels_count_monotone
           {| levels := 10; smallest_seen := -5; largest_seen := 10 |} 1 2);
    simpl; try lia; lra.
Defined.

End QuantizerCounts.


(** ** Construction *)

Section ArrayConstruction.

(** A device starts between [1e8] and [1.1e8] when the draw is in the unit
    interval; for a law whose range holds that interval, its first
    [get_state()] is defined and lies within [gain * eps] and
    [gain * (1 + eps)] for the default gain. *)
Theorem initial_state_in_range (l : law) (seed : option Z) (bv g : R)
    (w : randomness) :
  0 <= next_draw seed w <= 1 ->
  0 < law_r_0 l -> law_r_0 l < 1e8 -> 1.1e8 <= law_r_1 l ->
  let m := fst (Memristor_init l seed bv g w) in
  1e8 <= r_curr m <= 1.1e8 /\
  exists v, get_state_default m = Ok v /\
            gain_default * epsilon <= v < gain_default * (1 + epsilon).
Proof.
  intros Hd H0 Hlo Hhi m.
  assert (Hr : r_curr m = 1e8 + (1.1e8 - 1e8) * next_draw seed w)
    by (unfold m, Memristor_init; destruct seed; reflexivity).
  assert (Hm : model m = l)
    by (unfold m, Memristor_init; destruct seed; reflexivity).
  assert (Hrange : 1e8 <= r_curr m <= 1.1e8) by (rewrite Hr; nra).
  split; [exact Hrange|].
  destruct (scaled_views_in_range m gain_default) as (c & r & Hc & _ & Hb & _);
    unfold r_0, r_1; rewrite ?Hm; try lra.
  - unfold gain_default. lra.
  - exists c. split; [exact Hc | exact Hb].
Qed.

Lemma initial_state_in_range_witness :
  let m := fst (Memristor_init MemristorAnouk_default None 1e-1 1e5 two_draws) in
  1e8 <= r_curr m <= 1.1e8 /\
  exists v, get_state_default m = Ok v /\
            gain_default * epsilon <= v < gain_default * (1 + epsilon).
Proof.
  apply (initial_state_in_range MemristorAnouk_default None 1e-1 1e5 two_draws);
    simpl; lra.
Defined.

Lemma make_component_seeded (mm : memristor_model) (s : Z) (bv g : R) (w : randomness) :
  snd (make_component mm (Some s) bv g w) = w.
Proof.
  destruct mm as [l|c l]; cbn [make_component].
  - rewrite Memristor_init_seeded. reflexivity.
  - pose proof (MemristorPair_init_seeded c l s bv g w) as [_ Hw].
    destruct (MemristorPair_init c l (Some s) bv g w). exact Hw.
Qed.

Lemma init_row_seeded (mm : memristor_model) (s : Z) (bv g : R) (w : randomness) :
  forall cols cs gs w',
    init_row cols mm (Some s) bv g w = (Ok (cs, gs), w') ->
    w' = w /\
    cs = repeat (fst (make_component mm (Some s) bv g w)) cols /\
    forall v, component_get_state_default (fst (make_component mm (Some s) bv g w)) = Ok v ->
              gs = repeat v cols.
Proof.
  induction cols as [|cols IH]; intros cs gs w'; cbn [init_row repeat].
  - intros [= <- <- <-]. repeat split.
  - pose proof (make_component_seeded mm s bv g w) as Hw.
    destruct (make_component mm (Some s) bv g w) as [c w1] eqn:Emk.
    cbn [snd fst] in *. subst w1.
    destruct (component_get_state_default c) as [v0|e]; [|discriminate].
    destruct (init_row cols mm (Some s) bv g w) as [[[cs' gs']|e] w2] eqn:Erow;
      [|discriminate].
    intros [= <- <- <-].
    destruct (IH cs' gs' w2 eq_refl) as (-> & -> & Hgs).
    split; [reflexivity|]. split; [reflexivity|].
    intros v [= <-]. rewrite (Hgs v0 eq_refl). reflexivity.
Qed.

Lemma init_rows_seeded (mm : memristor_model) (s : Z) (bv g : R) (w : randomness)
    (cols : nat) :
  forall rows ms ws w',
    init_rows rows cols mm (Some s) bv g w = (Ok (ms, ws), w') ->
    w' = w /\
    ms = repeat (repeat (fst (make_component mm (Some s) bv g w)) cols) rows /\
    forall v, component_get_state_default (fst (make_component mm (Some s) bv g w)) = Ok v ->
              ws = repeat (repeat v cols) rows.
Proof.
  induction rows as [|rows IH]; intros ms ws w'; cbn [init_rows repeat].
  - intros [= <- <- <-]. repeat split.
  - destruct (init_row cols mm (Some s) bv g w) as [[[cs gs]|e] w1] eqn:Erow;
      [|discriminate].
    destruct (init_row_seeded mm s bv g w cols cs gs w1 Erow) as (-> & -> & Hgs).
    destruct (init_rows rows cols mm (Some s) bv g w) as [[[ms' ws']|e] w2] eqn:Erows;
      [|discriminate].
    intros [= <- <- <-].
    destruct (IH ms' ws' w2 eq_refl) as (-> & -> & Hws).
    split; [reflexivity|]. split; [reflexivity|].
    intros v Hv. rewrite (Hgs v Hv), (Hws v Hv). reflexivity.
Qed.

(** Every element of an array is made with the seed of the array.  With an
    int seed the elements are therefore all the same, and so are the
    weights: the matrix starts constant, at the first read-out of that one
    element. *)
Theorem seeded_array_is_uniform {rule : Type} (mm : memristor_model) (lr : rule)
    (in_size out_size : nat) (s : Z) (vc : converter) (bv g : R) (w : randomness)
    (arr : MemristorArray rule) (w' : randomness) :
  MemristorArray_init mm lr in_size out_size (Some s) vc bv g w = (Ok arr, w') ->
  let c := fst (make_component mm (Some s) bv g w) in
  memristors (store arr) = repeat (repeat c in_size) out_size /\
  (forall v, component_get_state_default c = Ok v ->
             weights (store arr) = repeat (repeat v in_size) out_size) /\
  ((0 < in_size)%nat -> (0 < out_size)%nat ->
   exists v, component_get_state_default c = Ok v).
Proof.
  unfold MemristorArray_init.
  destruct (init_rows out_size in_size mm (Some s) bv g w) as [[[ms ws]|e] w1] eqn:E;
    [|discriminate].
  intros Hinit. injection Hinit as <- <-. cbn [store memristors weights].
  set (c := fst (make_component mm (Some s) bv g w)).
  destruct (init_rows_seeded mm s bv g w in_size out_size ms ws w1 E) as (_ & Hms & Hws).
  split; [exact Hms|]. split; [exact Hws|].
  intros Hin Hout.
  destruct out_size as [|o]; [lia|]. destruct in_size as [|i]; [lia|].
  cbn [init_rows init_row] in E. fold c in E.
  destruct (make_component mm (Some s) bv g w) as [c0 w0] eqn:Emk.
  cbn [fst] in c. subst c.
  destruct (component_get_state_default c0) as [v|e0]; [|discriminate].
  exists v. reflexivity.
Qed.

(** A 3x2 array of default [MemristorAnouk] devices built with seed 0. *)
Lemma grid_init :
  exists arr,
    MemristorArray_init (DeviceModel MemristorAnouk_default) idle_rule 2 3
      (Some 0%Z) (VoltageConverter 1) 1e-1 1e5 two_draws = (Ok arr, two_draws).
Proof.
  unfold MemristorArray_init. cbn [init_rows init_row make_component].
  repeat (rewrite Memristor_init_seeded;
          change (seeded two_draws 0%Z) with 0;
          fold (built_device 1e5);
          cbn [component_get_state_default]; unfold get_state_default;
          rewrite (get_state_conductance_scaled _ _ (built_device_nondegenerate 1e5))).
  eexists. reflexivity.
Qed.

(** The six elements of the 3x2 array are one and the same, and so are its
    six weights. *)
Lemma seeded_array_is_uniform_witness :
  exists arr,
    MemristorArray_init (DeviceModel MemristorAnouk_default) idle_rule 2 3
      (Some 0%Z) (VoltageConverter 1) 1e-1 1e5 two_draws = (Ok arr, two_draws) /\
    let c := fst (make_component (DeviceModel MemristorAnouk_default) (Some 0%Z)
                    1e-1 1e5 two_draws) in
    memristors (store arr) = repeat (repeat c 2) 3 /\
    (forall v, component_get_state_default c = Ok v ->
               weights (store arr) = repeat (repeat v 2) 3) /\
    ((0 < 2)%nat -> (0 < 3)%nat ->
     exists v, component_get_state_default c = Ok v).
Proof.
  destruct grid_init as (arr & Hinit).
  exists arr. split; [exact Hinit|].
  apply (seeded_array_is_uniform (DeviceModel MemristorAnouk_default) idle_rule
           2 3 0%Z (VoltageConverter 1) 1e-1 1e5 two_draws arr two_draws).
  exact Hinit.
Defined.

Lemma init_row_shape (mm : memristor_model) (seed : option Z) (bv g : R) :
  forall cols w cs gs w',
    init_row cols mm seed bv g w = (Ok (cs, gs), w') ->
    length cs = cols /\ length gs = cols.
Proof.
  induction cols as [|cols IH]; intros w cs gs w'; cbn [init_row].
  - intros [= <- <- <-]. split; reflexivity.
  - destruct (make_component mm seed bv g w) as [c w1].
    destruct (component_get_state_default c) as [v|e]; [|discriminate].
    destruct (init_row cols mm seed bv g w1) as [[[cs' gs']|e] w2] eqn:E;
      [|discriminate].
    intros [= <- <- <-]. destruct (IH _ _ _ _ E) as [H1 H2].
    cbn [length]. split; congruence.
Qed.

Lemma init_rows_shape (mm : memristor_model) (seed : option Z) (bv g : R) (cols : nat) :
  forall rows w ms ws w',
    init_rows rows cols mm seed bv g w = (Ok (ms, ws), w') ->
    shape rows cols ms /\ shape rows cols ws.
Proof.
  unfold shape.
  induction rows as [|rows IH]; intros w ms ws w'; cbn [init_rows].
  - intros [= <- <- <-]. repeat split; constructor.
  - destruct (init_row cols mm seed bv g w) as [[[cs gs]|e] w1] eqn:Erow;
      [|discriminate].
    destruct (init_rows rows cols mm seed bv g w1) as [[[ms' ws']|e] w2] eqn:E;
      [|discriminate].
    intros [= <- <- <-].
    destruct (init_row_shape _ _ _ _ _ _ _ _ _ Erow) as [Hc Hg].
    destruct (IH _ _ _ _ E) as [[L1 F1] [L2 F2]].
    cbn [length]. repeat split; try congruence; constructor; assumption.
Qed.

(** What construction yields, whenever it succeeds: the sizes asked for,
    [weights] and [memristors] of shape [(out_size, in_size)], logging on,
    empty histories, and the quantizer it was given. *)
Theorem construction_shape {rule : Type} (mm : memristor_model) (lr : rule)
    (in_size out_size : nat) (seed : option Z) (vc : converter) (bv g : R)
    (w : randomness) (arr : MemristorArray rule) (w' : randomness) :
  MemristorArray_init mm lr in_size out_size seed vc bv g w = (Ok arr, w') ->
  input_size arr = in_size /\ output_size arr = out_size /\
  shape out_size in_size (weights (store arr)) /\
  shape out_size in_size (memristors (store arr)) /\
  logging arr = true /\
  weight_history arr = [] /\ error_history arr = [] /\
  conductance_history arr = [] /\
  voltage_converter (store arr) = vc.
Proof.
  unfold MemristorArray_init.
  destruct (init_rows out_size in_size mm seed bv g w) as [[[ms ws]|e] w1] eqn:E;
    [|discriminate].
  intros [= <- <-]. cbn.
  destruct (init_rows_shape _ _ _ _ _ _ _ _ _ _ E) as [Hm Hw].
  repeat split; try reflexivity; try apply Hm; try apply Hw.
Qed.

(** The 3x2 array of default devices. *)
Lemma construction_shape_witness :
  exists arr,
    MemristorArray_init (DeviceModel MemristorAnouk_default) idle_rule 2 3
      (Some 0%Z) (VoltageConverter 1) 1e-1 1e5 two_draws = (Ok arr, two_draws) /\
    input_size arr = 2%nat /\ output_size arr = 3%nat /\
    shape 3 2 (weights (store arr)) /\
    shape 3 2 (memristors (store arr)) /\
    logging arr = true /\
    weight_history arr = [] /\ error_history arr = [] /\
    conductance_history arr = [] /\
    voltage_converter (store arr) = VoltageConverter 1.
Proof.
  destruct grid_init as (arr & Hinit).
  exists arr. split; [exact Hinit|].
  apply (construction_shape (DeviceModel MemristorAnouk_default) idle_rule
           2 3 (Some 0%Z) (VoltageConverter 1) 1e-1 1e5 two_draws arr two_draws).
  exact Hinit.
Defined.

End ArrayConstruction.

(** ** Further properties of the logging block *)

Section LoopLemmas.

Context {S : Type}.

Lemma for_each_app (body : nat -> S -> result unit * S) (l1 l2 : list nat) (s : S) :
  for_each (l1 ++ l2) body s =
  match for_each l1 body s with
  | (Ok _, s') => for_each l2 body s'
  | (Raise e, s') => (Raise e, s')
  end.
Proof.
  revert s. induction l1 as [|k l1 IH]; intros s; cbn [app for_each].
  - reflexivity.
  - destruct (body k s) as [[u|e] s']; [apply IH | reflexivity].
Qed.

(** A loop over [range] every iteration of which returns and takes the
    invariant one index further returns, with the invariant at the end. *)
Lemma for_each_seq_inv (Inv : nat -> S -> Prop) (body : nat -> S -> result unit * S) :
  forall n a s,
    Inv a s ->
    (forall k s, (a <= k < a + n)%nat -> Inv k s ->
                 exists s', body k s = (Ok tt, s') /\ Inv (Datatypes.S k) s') ->
    exists s', for_each (seq a n) body s = (Ok tt, s') /\ Inv (a + n)%nat s'.
Proof.
  induction n as [|n IH]; intros a s Hs Hstep; cbn [seq for_each].
  - exists s. split; [reflexivity|]. rewrite Nat.add_0_r. exact Hs.
  - destruct (Hstep a s ltac:(lia) Hs) as (s1 & E1 & H1). rewrite E1.
    destruct (IH (Datatypes.S a) s1 H1) as (s2 & E2 & H2).
    { intros k s' Hk. apply Hstep. lia. }
    exists s2. split; [exact E2|].
    replace (a + Datatypes.S n)%nat with (Datatypes.S a + n)%nat by lia. exact H2.
Qed.

End LoopLemmas.

Section CellLoops.

Context {S V : Type}.
Variable get : S -> nat -> nat -> result V.
Variable good : S -> Prop.
Variable body : nat -> nat -> S -> result unit * S.
Variable new : nat -> nat -> V -> V.
Variables na nb : nat.

Hypothesis step : forall s a b old,
  good s -> (a < na)%nat -> (b < nb)%nat -> get s a b = Ok old ->
  exists s', body a b s = (Ok tt, s') /\ good s' /\
             get s' a b = Ok (new a b old) /\
             forall a' b', (a' <> a \/ b' <> b) -> get s' a' b' = get s a' b'.

(** Two nested loops that visit every cell of a block once, each visit
    returning and rewriting that cell only, return; at the end every cell
    of the block is rewritten. *)
Lemma cell_loops (s0 : S) :
  good s0 ->
  (forall a b, (a < na)%nat -> (b < nb)%nat -> exists old, get s0 a b = Ok old) ->
  exists s',
    for_each (range na) (fun a => for_each (range nb) (fun b => body a b)) s0
      = (Ok tt, s') /\
    good s' /\
    forall a b old, (a < na)%nat -> (b < nb)%nat -> get s0 a b = Ok old ->
                    get s' a b = Ok (new a b old).
Proof.
  intros Hgood Hdom.
  pose (Inv2 := fun (a b : nat) (s : S) =>
    good s /\
    forall a' b' old, (a' < na)%nat -> (b' < nb)%nat -> get s0 a' b' = Ok old ->
      ((a' < a \/ (a' = a /\ b' < b))%nat -> get s a' b' = Ok (new a' b' old)) /\
      (~ (a' < a \/ (a' = a /\ b' < b))%nat -> get s a' b' = Ok old)).
  assert (Hinner : forall a s, (a < na)%nat -> Inv2 a 0%nat s ->
            exists s', for_each (range nb) (fun b => body a b) s = (Ok tt, s') /\
                       Inv2 (Datatypes.S a) 0%nat s').
  { intros a s Ha Hs.
    destruct (for_each_seq_inv (Inv2 a) (fun b => body a b) nb 0 s Hs)
      as (s' & E & Hs').
    - intros k s1 Hk [Hg1 H1].
      destruct (Hdom a k Ha ltac:(lia)) as [old Hold].
      destruct (H1 a k old Ha ltac:(lia) Hold) as [_ Hcur].
      specialize (Hcur ltac:(lia)).
      destruct (step s1 a k old Hg1 Ha ltac:(lia) Hcur) as (s2 & E2 & Hg2 & Hnew & Hoth).
      exists s2. split; [exact E2|]. split; [exact Hg2|].
      intros a' b' old' Ha' Hb' Hold'.
      destruct (H1 a' b' old' Ha' Hb' Hold') as [Hv Hn].
      destruct (Nat.eq_dec a' a) as [->|Hna];
        [destruct (Nat.eq_dec b' k) as [->|Hnb]|].
      + rewrite Hold in Hold'. injection Hold' as <-.
        split; [intros _; exact Hnew | intros Hc; exfalso; apply Hc; lia].
      + rewrite (Hoth a b' (or_intror Hnb)).
        split; [intros Hc; apply Hv; lia | intros Hc; apply Hn; lia].
      + rewrite (Hoth a' b' (or_introl Hna)).
        split; [intros Hc; apply Hv; lia | intros Hc; apply Hn; lia].
    - exists s'. split; [exact E|]. destruct Hs' as [Hg' H']. split; [exact Hg'|].
      intros a' b' old Ha' Hb' Hold.
      destruct (H' a' b' old Ha' Hb' Hold) as [Hv Hn].
      split; [intros Hc; apply Hv; lia | intros Hc; apply Hn; lia]. }
  destruct (for_each_seq_inv (fun a => Inv2 a 0%nat)
              (fun a => for_each (range nb) (fun b => body a b)) na 0 s0)
    as (s' & E & [Hg' H']).
  - split; [exact Hgood|]. intros a' b' old _ _ Hold.
    split; [intros Hc; exfalso; lia | intros _; exact Hold].
  - intros k s Hk Hs. apply Hinner; [lia | exact Hs].
  - exists s'. split; [exact E|]. split; [exact Hg'|].
    intros a b old Ha Hb Hold.
    destruct (H' a b old Ha Hb Hold) as [Hv _]. apply Hv. cbn. lia.
Qed.

End CellLoops.

Section ListCells.

Context {A : Type}.

Lemma nth_error_list_set_other (l : list A) (i k : nat) (v : A) :
  k <> i -> nth_error (list_set l i v) k = nth_error l k.
Proof.
  revert i k. induction l as [|x l IH]; intros [|i] [|k] Hk; cbn; try reflexivity.
  - contradiction.
  - apply IH. lia.
Qed.

Lemma Forall_list_set (P : A -> Prop) (l : list A) (i : nat) (v : A) :
  Forall P l -> P v -> Forall P (list_set l i v).
Proof.
  intros Hl Hv. revert i. induction Hl as [|x l Hx Hl IH]; intros [|i]; cbn;
    constructor; auto.
Qed.

End ListCells.

Section MatrixCells.

Context {A : Type}.

(** After [m[j, i] = v] the cell holds [v] and the others what they held. *)
Lemma mat_get_mat_set (m m' : matrix A) (j i : nat) (v : A) :
  mat_set m j i v = Ok m' ->
  mat_get m' j i = Ok v /\
  forall j' i', (j' <> j \/ i' <> i) -> mat_get m' j' i' = mat_get m j' i'.
Proof.
  unfold mat_set. destruct (nth_error m j) as [row|] eqn:Hr; [|discriminate].
  destruct (i <? length row)%nat eqn:Hi; [|discriminate].
  intros [= <-]. apply Nat.ltb_lt in Hi.
  assert (Hj : (j < length m)%nat) by (apply nth_error_Some; rewrite Hr; discriminate).
  split.
  - unfold mat_get. rewrite (nth_error_list_set_same m j _ Hj).
    rewrite (nth_error_list_set_same row i v Hi). reflexivity.
  - intros j' i' Hne. unfold mat_get.
    destruct (Nat.eq_dec j' j) as [->|Hnj].
    + rewrite (nth_error_list_set_same m j _ Hj), Hr. cbv beta iota.
      rewrite nth_error_list_set_other by (destruct Hne; [contradiction | assumption]).
      reflexivity.
    + rewrite nth_error_list_set_other by exact Hnj. reflexivity.
Qed.

Lemma shape_mat_set (rows cols : nat) (m m' : matrix A) (j i : nat) (v : A) :
  shape rows cols m -> mat_set m j i v = Ok m' -> shape rows cols m'.
Proof.
  intros [Hlen Hrows]. unfold mat_set.
  destruct (nth_error m j) as [row|] eqn:Hr; [|discriminate].
  destruct (i <? length row)%nat; [|discriminate].
  intros [= <-]. split.
  - rewrite list_set_length. exact Hlen.
  - apply Forall_list_set; [exact Hrows|].
    rewrite list_set_length.
    apply nth_error_In in Hr. rewrite Forall_forall in Hrows. apply Hrows. exact Hr.
Qed.

Lemma shape_row (rows cols : nat) (m : matrix A) (j : nat) (row : list A) :
  shape rows cols m -> nth_error m j = Some row -> length row = cols.
Proof.
  intros [_ Hrows] Hr. apply nth_error_In in Hr.
  rewrite Forall_forall in Hrows. apply Hrows. exact Hr.
Qed.

(** Inside the shape every cell can be read. *)
Lemma mat_get_inside (rows cols : nat) (m : matrix A) (j i : nat) :
  shape rows cols m -> (j < rows)%nat -> (i < cols)%nat ->
  exists v, mat_get m j i = Ok v.
Proof.
  intros Hs Hj Hi. unfold mat_get.
  destruct (nth_error m j) as [row|] eqn:Hr.
  - pose proof (shape_row _ _ _ _ _ Hs Hr) as Hlen.
    destruct (nth_error row i) as [v|] eqn:Hv; [exists v; reflexivity|].
    apply nth_error_None in Hv. lia.
  - apply nth_error_None in Hr. destruct Hs as [Hlen _]. lia.
Qed.

(** Outside of it reading raises [IndexError]. *)
Lemma mat_get_outside (rows cols : nat) (m : matrix A) (j i : nat) :
  shape rows cols m -> (rows <= j \/ cols <= i)%nat ->
  mat_get m j i = Raise IndexError.
Proof.
  intros Hs Hout. unfold mat_get.
  destruct (nth_error m j) as [row|] eqn:Hr; [|reflexivity].
  pose proof (shape_row _ _ _ _ _ Hs Hr) as Hlen.
  assert (Hj : (j < length m)%nat) by (apply nth_error_Some; rewrite Hr; discriminate).
  destruct Hs as [Hm _].
  destruct (nth_error row i) as [v|] eqn:Hv; [|reflexivity].
  assert (Hi : (i < length row)%nat) by (apply nth_error_Some; rewrite Hv; discriminate).
  lia.
Qed.

Lemma mat_get_in_matrix (P : A -> Prop) (m : matrix A) (j i : nat) (v : A) :
  Forall (Forall P) m -> mat_get m j i = Ok v -> P v.
Proof.
  intros Hm Hg. apply mat_get_ok in Hg. destruct Hg as (row & Hr & Hv).
  apply nth_error_In in Hr, Hv.
  rewrite Forall_forall in Hm. specialize (Hm row Hr).
  rewrite Forall_forall in Hm. apply Hm. exact Hv.
Qed.

End MatrixCells.

Lemma shape_np_zeros (rows cols : nat) : shape rows cols (np_zeros rows cols).
Proof.
  unfold shape, np_zeros. split; [apply repeat_length|].
  apply Forall_forall. intros row Hin. apply repeat_spec in Hin. subst row.
  apply repeat_length.
Qed.

Section LoggingLoops.

(** [save_state] on every element returns on an array of the declared
    shape, and saves every element in place. *)
Lemma controller_save_state_ok (out_size in_size : nat) (ms : matrix component) :
  shape out_size in_size ms ->
  exists ms',
    controller_save_state out_size in_size ms = (Ok tt, ms') /\
    shape out_size in_size ms' /\
    forall j i c, mat_get ms j i = Ok c ->
                  mat_get ms' j i = Ok (component_save_state c).
Proof.
  intros Hs. unfold controller_save_state.
  destruct (cell_loops (fun m j i => mat_get m j i) (shape out_size in_size)
              (fun j i => save_state_at j i) (fun _ _ c => component_save_state c)
              out_size in_size) with (s0 := ms) as (ms' & E & Hs' & Hcells).
  - intros s j i old Hgs Hj Hi Hold. unfold save_state_at. rewrite Hold.
    destruct (mat_set_after_get s j i old (component_save_state old) Hold)
      as (row & _ & _ & Hset).
    rewrite Hset. eexists. split; [reflexivity|].
    split; [apply (shape_mat_set _ _ _ _ _ _ _ Hgs Hset)|].
    apply (mat_get_mat_set _ _ _ _ _ Hset).
  - exact Hs.
  - intros j i Hj Hi. apply (mat_get_inside _ _ _ _ _ Hs Hj Hi).
  - exists ms'. split; [exact E|]. split; [exact Hs'|].
    intros j i c Hc. apply Hcells; [| |exact Hc].
    + destruct (Nat.lt_ge_cases j out_size) as [H|H]; [exact H|].
      rewrite (mat_get_outside _ _ _ _ _ Hs (or_introl H)) in Hc. discriminate.
    + destruct (Nat.lt_ge_cases i in_size) as [H|H]; [exact H|].
      rewrite (mat_get_outside _ _ _ _ _ Hs (or_intror H)) in Hc. discriminate.
Qed.

Lemma save_state_readable (c : component) : readable c -> readable (component_save_state c).
Proof. destruct c as [m|p]; intros H; exact H. Qed.

(** The filling loop on a block of [na] columns and [nb] rows that lies
    inside the array: it returns, and every cell of the block holds the
    unscaled conductance of the element at its place. *)
Lemma fill_block (out_size in_size na nb : nat) (ms : matrix component) (acc : matrix R) :
  shape out_size in_size ms -> Forall (Forall readable) ms ->
  shape out_size in_size acc ->
  (na <= in_size)%nat -> (nb <= out_size)%nat ->
  exists acc',
    for_each (range na)
      (fun i => for_each (range nb) (fun j => conductance_at ms j i)) acc
      = (Ok tt, acc') /\
    shape out_size in_size acc' /\
    forall j i c, (i < na)%nat -> (j < nb)%nat -> mat_get ms j i = Ok c ->
      exists g, component_get_state c "conductance" false 1 = Ok g /\
                mat_get acc' j i = Ok g.
Proof.
  intros Hs Hread Hacc Hna Hnb.
  pose (G := fun (i j : nat) (_ : R) =>
    match mat_get ms j i with
    | Ok c => match component_get_state c "conductance" false 1 with
              | Ok g => g
              | Raise _ => 0
              end
    | Raise _ => 0
    end).
  destruct (cell_loops (fun m i j => mat_get m j i) (shape out_size in_size)
              (fun i j => conductance_at ms j i) G na nb) with (s0 := acc)
    as (acc' & E & Hs' & Hcells).
  - intros s i j old Hgs Hi Hj Hold. unfold conductance_at.
    destruct (mat_get_inside _ _ ms j i Hs ltac:(lia) ltac:(lia)) as [c Hc].
    destruct (mat_get_in_matrix readable ms j i c Hread Hc) as [g Hg].
    rewrite Hc, Hg.
    destruct (mat_set_after_get s j i old g Hold) as (row & _ & _ & Hset).
    rewrite Hset. eexists. split; [reflexivity|].
    split; [apply (shape_mat_set _ _ _ _ _ _ _ Hgs Hset)|].
    destruct (mat_get_mat_set _ _ _ _ _ Hset) as [Hsame Hoth].
    split.
    + rewrite Hsame. unfold G. rewrite Hc, Hg. reflexivity.
    + intros i' j' Hne. apply Hoth. tauto.
  - exact Hacc.
  - intros i j Hi Hj. apply (mat_get_inside _ _ _ _ _ Hacc); lia.
  - exists acc'. split; [exact E|]. split; [exact Hs'|].
    intros j i c Hi Hj Hc.
    destruct (mat_get_in_matrix readable ms j i c Hread Hc) as [g Hg].
    exists g. split; [exact Hg|].
    destruct (mat_get_inside _ _ acc j i Hacc ltac:(lia) ltac:(lia)) as [old Hold].
    rewrite (Hcells i j old Hi Hj Hold). unfold G. rewrite Hc, Hg. reflexivity.
Qed.

End LoggingLoops.

Section LoggingBlock.

Lemma read_conductances_square (n : nat) (ms : matrix component) :
  shape n n ms -> Forall (Forall readable) ms ->
  exists cs,
    read_conductances n n ms = Ok cs /\ shape n n cs /\
    forall j i c, mat_get ms j i = Ok c ->
      exists g, component_get_state c "conductance" false 1 = Ok g /\
                mat_get cs j i = Ok g.
Proof.
  intros Hs Hread. unfold read_conductances.
  destruct (fill_block n n n n ms (np_zeros n n) Hs Hread (shape_np_zeros n n)
              (Nat.le_refl n) (Nat.le_refl n)) as (cs & E & Hcs & Hcells).
  rewrite E. exists cs. split; [reflexivity|]. split; [exact Hcs|].
  intros j i c Hc. apply Hcells; [| |exact Hc].
  - destruct (Nat.lt_ge_cases i n) as [H|H]; [exact H|].
    rewrite (mat_get_outside _ _ _ _ _ Hs (or_intror H)) in Hc. discriminate.
  - destruct (Nat.lt_ge_cases j n) as [H|H]; [exact H|].
    rewrite (mat_get_outside _ _ _ _ _ Hs (or_introl H)) in Hc. discriminate.
Qed.

(** More rows than columns: the columns of the array are filled, and the
    first read of the next column is out of range. *)
Lemma read_conductances_tall (out_size in_size : nat) (ms : matrix component) :
  shape out_size in_size ms -> Forall (Forall readable) ms ->
  (0 < in_size)%nat -> (in_size < out_size)%nat ->
  read_conductances out_size in_size ms = Raise IndexError.
Proof.
  intros Hs Hread Hin Hlt. unfold read_conductances, range.
  assert (Hsplit : seq 0 out_size = seq 0 in_size ++ seq in_size (out_size - in_size))
    by (rewrite <- seq_app; f_equal; lia).
  rewrite Hsplit, for_each_app.
  destruct (fill_block out_size in_size in_size in_size ms (np_zeros out_size in_size)
              Hs Hread (shape_np_zeros _ _) (Nat.le_refl _) ltac:(lia))
    as (acc & E & Hacc & _).
  unfold range in E. rewrite E.
  destruct (out_size - in_size)%nat as [|d] eqn:Ed; [lia|].
  destruct in_size as [|k]; [lia|].
  cbn [seq for_each Nat.add]. unfold conductance_at at 1.
  rewrite (mat_get_outside _ _ ms 0 (S k) Hs) by (right; lia).
  reflexivity.
Qed.

(** More columns than rows: the first column is filled down to the last
    row, and the read below it is out of range. *)
Lemma read_conductances_wide (out_size in_size : nat) (ms : matrix component) :
  shape out_size in_size ms -> Forall (Forall readable) ms ->
  (0 < out_size)%nat -> (out_size < in_size)%nat ->
  read_conductances out_size in_size ms = Raise IndexError.
Proof.
  intros Hs Hread Hout Hlt. unfold read_conductances.
  destruct (fill_block out_size in_size 1 out_size ms (np_zeros out_size in_size)
              Hs Hread (shape_np_zeros _ _) ltac:(lia) (Nat.le_refl _))
    as (acc & E & Hacc & _).
  unfold range in E. cbn [seq for_each] in E.
  destruct (for_each (seq 0 out_size) (fun j => conductance_at ms j 0)
              (np_zeros out_size in_size)) as [[u|e] acc0] eqn:E0; [|discriminate].
  injection E as ->.
  unfold range.
  assert (Houter : seq 0 out_size = 0%nat :: seq 1 (out_size - 1))
    by (destruct out_size; [lia | cbn [seq]; f_equal; f_equal; lia]).
  rewrite Houter. cbn [for_each].
  assert (Hsplit : seq 0 in_size = seq 0 out_size ++ seq out_size (in_size - out_size))
    by (rewrite <- seq_app; f_equal; lia).
  rewrite Hsplit at 1.
  rewrite (for_each_app (fun j => conductance_at ms j 0)), E0.
  destruct (in_size - out_size)%nat as [|d] eqn:Ed; [lia|].
  cbn [seq for_each]. unfold conductance_at at 1.
  rewrite (mat_get_outside _ _ ms out_size 0 Hs) by (left; lia).
  reflexivity.
Qed.

(** The logging block, unfolded once: the snapshot of the weights and the
    error signal, if the rule has one, are appended first; then the
    elements are saved; then the conductances are read. *)
Lemma log_call_logging {rule : Type} `{LearningRule rule} (arr : MemristorArray rule) :
  logging arr = true ->
  let eh := match get_error_signal (learning_rule arr) with
            | Ok e => error_history arr ++ [e]
            | Raise _ => error_history arr
            end in
  let logged := with_histories arr (weight_history arr ++ [weights (store arr)]) eh
                               (conductance_history arr) in
  log_call arr =
    match controller_save_state (output_size arr) (input_size arr)
                                (memristors (store arr)) with
    | (Raise e, ms) => (Raise e, with_memristors logged ms)
    | (Ok _, ms) =>
        match read_conductances (output_size arr) (input_size arr) ms with
        | Raise e => (Raise e, with_memristors logged ms)
        | Ok cs =>
            (Ok tt, with_histories (with_memristors logged ms)
                      (weight_history arr ++ [weights (store arr)]) eh
                      (conductance_history arr ++ [cs]))
        end
    end.
Proof.
  intros Hlog eh logged. unfold log_call. rewrite Hlog. unfold logged, eh.
  destruct (get_error_signal (learning_rule arr)) as [e|x]; reflexivity.
Qed.

Lemma get_state_after_save (c : component) (value : string) (scaled : bool) (g : R) :
  component_get_state (component_save_state c) value scaled g =
  component_get_state c value scaled g.
Proof. destruct c as [m|p]; reflexivity. Qed.

(** The first half of the call leaves the sizes, the logging flag and the
    three histories alone, whatever the rule does. *)
Lemma forward_frame {rule : Type} `{LearningRule rule} (arr : MemristorArray rule)
    (t : R) (x : list R) :
  let arr1 := snd (forward arr t x) in
  logging arr1 = logging arr /\ input_size arr1 = input_size arr /\
  output_size arr1 = output_size arr /\
  weight_history arr1 = weight_history arr /\
  error_history arr1 = error_history arr /\
  conductance_history arr1 = conductance_history arr.
Proof.
  unfold forward.
  destruct (has_learning_signal (learning_rule arr)).
  - destruct (last_item x) as [flag|e]; [|cbn; repeat split].
    destruct (negb (np_rint flag =? 0)%Z).
    + destruct (rule_call (learning_rule arr) t (removelast x) (store arr))
        as [ret [lr' st']]. cbn. repeat split.
    + destruct (has_error_signal (learning_rule arr)); cbn; repeat split.
  - destruct (rule_call (learning_rule arr) t x (store arr)) as [ret [lr' st']].
    cbn. repeat split.
Qed.

(** On a square array of the declared shape whose elements can all be
    read, the logging block returns.  It appends the weights as they are
    to [weight_history] and saves every element in place; the matrix it
    appends to [conductance_history] has the shape of the array and
    holds, at every place, the unscaled conductance of the element at that
    place. *)
Theorem square_logging_records {rule : Type} `{LearningRule rule}
    (arr : MemristorArray rule) :
  logging arr = true -> output_size arr = input_size arr ->
  shape (output_size arr) (input_size arr) (memristors (store arr)) ->
  Forall (Forall readable) (memristors (store arr)) ->
  exists arr' cs,
    log_call arr = (Ok tt, arr') /\
    weights (store arr') = weights (store arr) /\
    weight_history arr' = weight_history arr ++ [weights (store arr)] /\
    conductance_history arr' = conductance_history arr ++ [cs] /\
    shape (output_size arr) (input_size arr) cs /\
    forall j i c, mat_get (memristors (store arr)) j i = Ok c ->
      mat_get (memristors (store arr')) j i = Ok (component_save_state c) /\
      exists g, component_get_state c "conductance" false 1 = Ok g /\
                mat_get cs j i = Ok g.
Proof.
  intros Hlog Hsq Hs Hread.
  destruct (controller_save_state_ok _ _ _ Hs) as (ms' & Esave & Hs' & Hsaved).
  assert (Hread' : Forall (Forall readable) ms').
  { apply Forall_forall. intros row Hrow. apply Forall_forall. intros c' Hc'.
    apply In_nth_error in Hrow. destruct Hrow as [j Hj].
    apply In_nth_error in Hc'. destruct Hc' as [i Hi].
    assert (Hg' : mat_get ms' j i = Ok c')
      by (apply mat_get_ok; exists row; split; assumption).
    destruct (mat_get_inside _ _ (memristors (store arr)) j i Hs) as [c Hc].
    - destruct (Nat.lt_ge_cases j (output_size arr)) as [Hlt|Hge]; [exact Hlt|].
      rewrite (mat_get_outside _ _ _ _ _ Hs' (or_introl Hge)) in Hg'. discriminate.
    - destruct (Nat.lt_ge_cases i (input_size arr)) as [Hlt|Hge]; [exact Hlt|].
      rewrite (mat_get_outside _ _ _ _ _ Hs' (or_intror Hge)) in Hg'. discriminate.
    - rewrite (Hsaved j i c Hc) in Hg'. injection Hg' as <-.
      apply save_state_readable.
      apply (mat_get_in_matrix readable _ j i c Hread Hc). }
  rewrite Hsq in Hs', Esave |- *.
  destruct (read_conductances_square _ ms' Hs' Hread') as (cs & Eread & Hcs & Hcells).
  rewrite (log_call_logging arr Hlog). cbv zeta. rewrite Hsq, Esave, Eread.
  eexists. exists cs. split; [reflexivity|].
  cbn [with_histories with_memristors with_rule_store store weights memristors
       weight_history conductance_history].
  split; [reflexivity|]. split; [reflexivity|]. split; [reflexivity|].
  split; [exact Hcs|].
  intros j i c Hc. split; [apply Hsaved; exact Hc|].
  destruct (Hcells j i _ (Hsaved j i c Hc)) as (g & Hg & Hget).
  exists g. rewrite get_state_after_save in Hg. split; assumption.
Qed.

Lemma anouk_readable : readable (Device anouk_device).
Proof.
  eexists. cbn [component_get_state].
  apply get_state_conductance_unscaled; unfold r_0, r_1; simpl; lra.
Qed.

Lemma square_array_shape :
  shape 2 2 (memristors (store square_array)) /\
  Forall (Forall readable) (memristors (store square_array)).
Proof.
  split; [split; [reflexivity | repeat constructor]|].
  repeat constructor; apply anouk_readable.
Qed.

Lemma square_logging_records_witness :
  exists arr' cs,
    log_call square_array = (Ok tt, arr') /\
    weights (store arr') = weights (store square_array) /\
    weight_history arr' = weight_history square_array ++ [weights (store square_array)] /\
    conductance_history arr' = conductance_history square_array ++ [cs] /\
    shape (output_size square_array) (input_size square_array) cs /\
    forall j i c, mat_get (memristors (store square_array)) j i = Ok c ->
      mat_get (memristors (store arr')) j i = Ok (component_save_state c) /\
      exists g, component_get_state c "conductance" false 1 = Ok g /\
                mat_get cs j i = Ok g.
Proof.
  apply (square_logging_records square_array).
  - reflexivity.
  - reflexivity.
  - apply square_array_shape.
  - apply square_array_shape.
Defined.

(** Saving keeps the elements readable. *)
Lemma controller_save_state_readable (out_size in_size : nat) (ms : matrix component) :
  shape out_size in_size ms -> Forall (Forall readable) ms ->
  exists ms',
    controller_save_state out_size in_size ms = (Ok tt, ms') /\
    shape out_size in_size ms' /\ Forall (Forall readable) ms'.
Proof.
  intros Hs Hread.
  destruct (controller_save_state_ok _ _ _ Hs) as (ms' & Esave & Hs' & Hsaved).
  exists ms'. split; [exact Esave|]. split; [exact Hs'|].
  apply Forall_forall. intros row Hrow. apply Forall_forall. intros c' Hc'.
  apply In_nth_error in Hrow. destruct Hrow as [j Hj].
  apply In_nth_error in Hc'. destruct Hc' as [i Hi].
  assert (Hg' : mat_get ms' j i = Ok c')
    by (apply mat_get_ok; exists row; split; assumption).
  destruct (mat_get_inside _ _ ms j i Hs) as [c Hc].
  - destruct (Nat.lt_ge_cases j out_size) as [Hlt|Hge]; [exact Hlt|].
    rewrite (mat_get_outside _ _ _ _ _ Hs' (or_introl Hge)) in Hg'. discriminate.
  - destruct (Nat.lt_ge_cases i in_size) as [Hlt|Hge]; [exact Hlt|].
    rewrite (mat_get_outside _ _ _ _ _ Hs' (or_intror Hge)) in Hg'. discriminate.
  - rewrite (Hsaved j i c Hc) in Hg'. injection Hg' as <-.
    apply save_state_readable.
    apply (mat_get_in_matrix readable _ j i c Hread Hc).
Qed.

(** An array that is not square does not get through a call with logging
    on.  Whenever the first half of the call has produced its value, and
    the elements it leaves have the declared shape and can be read, the
    loop that fills [conductances] raises [IndexError]; by then the weights
    are in [weight_history] and nothing is in [conductance_history], so the
    two histories differ in length from the first call on. *)
Theorem nonsquare_call_raises {rule : Type} `{LearningRule rule}
    (arr arr1 : MemristorArray rule) (t : R) (x ret : list R) :
  forward arr t x = (Ok ret, arr1) ->
  logging arr = true ->
  shape (output_size arr) (input_size arr) (memristors (store arr1)) ->
  Forall (Forall readable) (memristors (store arr1)) ->
  (0 < input_size arr)%nat -> (0 < output_size arr)%nat ->
  output_size arr <> input_size arr ->
  let after := snd (MemristorArray_call arr t x) in
  fst (MemristorArray_call arr t x) = Raise IndexError /\
  weight_history after = weight_history arr ++ [weights (store arr1)] /\
  conductance_history after = conductance_history arr.
Proof.
  intros Hf Hlog Hs Hread Hin Hout Hne after.
  destruct (forward_frame arr t x) as (Fl & Fi & Fo & Fw & _ & Fc).
  rewrite Hf in Fl, Fi, Fo, Fw, Fc. cbn [snd] in Fl, Fi, Fo, Fw, Fc.
  rewrite <- Fi, <- Fo in Hs.
  destruct (controller_save_state_readable _ _ _ Hs Hread) as (ms' & Esave & Hs' & Hread').
  assert (Eread : read_conductances (output_size arr1) (input_size arr1) ms'
                  = Raise IndexError).
  { destruct (Nat.lt_ge_cases (input_size arr1) (output_size arr1)) as [Hlt|Hge].
    - apply read_conductances_tall; [assumption | assumption | lia | exact Hlt].
    - apply read_conductances_wide; [assumption | assumption | lia | lia]. }
  assert (Hlog1 : logging arr1 = true) by (rewrite Fl; exact Hlog).
  unfold after, MemristorArray_call. rewrite Hf.
  rewrite (log_call_logging arr1 Hlog1). cbv zeta. rewrite Esave, Eread.
  cbn [fst snd with_histories with_memristors with_rule_store
       weight_history conductance_history store weights].
  rewrite Fw, Fc. repeat split.
Qed.

Lemma tall_array_forward : forward tall_array 0 [1; 0] = (Ok [1; 2], tall_array).
Proof.
  unfold forward. cbn [learning_rule tall_array has_learning_signal
                       PulsingRule_LearningRule idle_rule consumes_flag
                       last_item last].
  rewrite np_rint_0. cbn [Z.eqb negb has_error_signal produces_error].
  cbn. unfold np_dot. cbn. unfold dot. cbn.
  f_equal. f_equal. f_equal; [lra|]. f_equal. lra.
Qed.

Lemma nonsquare_call_raises_witness :
  let after := snd (MemristorArray_call tall_array 0 [1; 0]) in
  fst (MemristorArray_call tall_array 0 [1; 0]) = Raise IndexError /\
  weight_history after = weight_history tall_array ++ [weights (store tall_array)] /\
  conductance_history after = conductance_history tall_array.
Proof.
  apply (nonsquare_call_raises tall_array tall_array 0 [1; 0] [1; 2]).
  - exact tall_array_forward.
  - reflexivity.
  - split; [reflexivity | repeat constructor].
  - repeat constructor; apply anouk_readable.
  - cbn. lia.
  - cbn. lia.
  - cbn. lia.
Defined.

(** A call that returns has logged exactly once.  With logging on,
    [weight_history] has gained the weights that the call leaves and
    [conductance_history] one matrix; [error_history] has gained the error
    signal if the rule has one to give, and nothing otherwise.  With
    logging off the three histories are what they were. *)
Theorem returning_call_logs_once {rule : Type} `{LearningRule rule}
    (arr arr' : MemristorArray rule) (t : R) (x ret : list R) :
  MemristorArray_call arr t x = (Ok ret, arr') ->
  (logging arr = true ->
     weight_history arr' = weight_history arr ++ [weights (store arr')] /\
     (exists cs, conductance_history arr' = conductance_history arr ++ [cs]) /\
     error_history arr' =
       match get_error_signal (learning_rule arr') with
       | Ok e => error_history arr ++ [e]
       | Raise _ => error_history arr
       end) /\
  (logging arr = false ->
     weight_history arr' = weight_history arr /\
     conductance_history arr' = conductance_history arr /\
     error_history arr' = error_history arr).
Proof.
  unfold MemristorArray_call.
  destruct (forward_frame arr t x) as (Fl & _ & _ & Fw & Fe & Fc).
  destruct (forward arr t x) as [[ret1|e] arr1]; [|discriminate].
  cbn [snd] in Fl, Fw, Fe, Fc.
  destruct (log_call arr1) as [[u|e] arr2] eqn:Elog; [|discriminate].
  intros [= <- <-]. split; intros Hlog; rewrite Hlog in Fl.
  - rewrite (log_call_logging arr1 Fl) in Elog. cbv zeta in Elog.
    destruct (controller_save_state _ _ _) as [[u1|e1] ms']; [|discriminate].
    destruct (read_conductances _ _ _) as [cs|e2]; [|discriminate].
    injection Elog as Earr. subst arr2.
    cbn [with_histories with_memristors with_rule_store weight_history
         conductance_history error_history store weights learning_rule].
    rewrite Fw, Fe, Fc.
    split; [reflexivity|]. split; [exists cs; reflexivity | reflexivity].
  - unfold log_call in Elog. rewrite Fl in Elog. injection Elog as Earr. subst arr2.
    repeat split; assumption.
Qed.

Lemma returning_call_logs_once_witness :
  exists arr',
    MemristorArray_call square_array 0 [1; 1; 0] = (Ok [3; 7], arr') /\
    (logging square_array = true ->
       weight_history arr' = weight_history square_array ++ [weights (store arr')] /\
       (exists cs, conductance_history arr' = conductance_history square_array ++ [cs]) /\
       error_history arr' =
         match get_error_signal (learning_rule arr') with
         | Ok e => error_history square_array ++ [e]
         | Raise _ => error_history square_array
         end) /\
    (logging square_array = false ->
       weight_history arr' = weight_history square_array /\
       conductance_history arr' = conductance_history square_array /\
       error_history arr' = error_history square_array).
Proof.
  destruct infer_call_on_square_array as (arr1 & Hcall & _).
  exists arr1. split; [exact Hcall|].
  apply (returning_call_logs_once square_array arr1 0 [1; 1; 0] [3; 7] Hcall).
Defined.

(** [np.rint] gives 0 exactly on the closed interval from -1/2 to 1/2:
    both halves round to the even neighbour. *)
Lemma np_rint_zero (x : R) : np_rint x = 0%Z <-> - (1 / 2) <= x <= 1 / 2.
Proof.
  unfold np_rint.
  destruct (base_fp x) as [Hf0 Hf1].
  assert (Hx : x = IZR (Int_part x) + frac_part x) by (unfold frac_part; lra).
  set (n := Int_part x) in *. set (f := frac_part x) in *.
  assert (Hint : forall lo hi : Z, IZR lo < IZR n < IZR hi -> (lo < n < hi)%Z)
    by (intros lo hi [H1 H2]; split; apply lt_IZR; assumption).
  destruct (Rlt_b f (1 / 2)) eqn:E1.
  - apply Rlt_b_spec in E1. split.
    + intros Hn. rewrite Hn in Hx. lra.
    + intros [Hlo Hhi].
      assert (Hn : (-1 < n < 1)%Z) by (apply Hint; lra). lia.
  - assert (N1 : ~ f < 1 / 2) by (intros Hc; apply Rlt_b_spec in Hc; congruence).
    destruct (Rlt_b (1 / 2) f) eqn:E2.
    + apply Rlt_b_spec in E2. split.
      * intros Hn. assert (Hn' : n = (-1)%Z) by lia. rewrite Hn' in Hx. lra.
      * intros [Hlo Hhi].
        assert (Hn : (-2 < n < 0)%Z) by (apply Hint; lra). lia.
    + assert (N2 : ~ 1 / 2 < f) by (intros Hc; apply Rlt_b_spec in Hc; congruence).
      assert (Hhalf : f = 1 / 2) by lra.
      split.
      * destruct (Z.even n) eqn:Ev; intros Hn.
        -- rewrite Hn in Hx. lra.
        -- assert (Hn' : n = (-1)%Z) by lia. rewrite Hn' in Hx. lra.
      * intros [Hlo Hhi].
        assert (Hn : (-2 < n < 1)%Z) by (apply Hint; lra).
        assert (Hcases : n = (-1)%Z \/ n = 0%Z) by lia.
        destruct Hcases as [-> | ->]; reflexivity.
Qed.

(** The learning switch.  With a rule that takes the flag, the first half
    of the call is the plain product with the weights when the last input
    lies between -1/2 and 1/2, both ends included, and the call of the
    rule on the other inputs when it lies outside. *)
Theorem learning_flag_threshold {rule : Type} `{LearningRule rule}
    (arr : MemristorArray rule) (t : R) (x : list R) (flag : R) :
  has_learning_signal (learning_rule arr) = true ->
  last_item x = Ok flag ->
  (- (1 / 2) <= flag <= 1 / 2 ->
     forward arr t x =
       (np_dot (input_size arr) (weights (store arr)) (stripped arr x), arr)) /\
  (flag < - (1 / 2) \/ 1 / 2 < flag ->
     forward arr t x =
       let '(ret, (lr', st')) :=
         rule_call (learning_rule arr) t (removelast x) (store arr) in
       (ret, with_rule_store arr lr' st')).
Proof.
  intros Hflag Hlast. unfold forward, stripped. rewrite Hflag, Hlast.
  split; intros Hrange.
  - apply np_rint_zero in Hrange. rewrite Hrange. cbn [Z.eqb negb].
    destruct (has_error_signal (learning_rule arr)); reflexivity.
  - destruct (np_rint flag =? 0)%Z eqn:E; [|reflexivity].
    apply Z.eqb_eq in E. apply np_rint_zero in E. lra.
Qed.

Lemma learning_flag_threshold_witness :
  (- (1 / 2) <= 0 <= 1 / 2 ->
     forward square_array 0 [1; 1; 0] =
       (np_dot (input_size square_array) (weights (store square_array))
               (stripped square_array [1; 1; 0]), square_array)) /\
  (0 < - (1 / 2) \/ 1 / 2 < 0 ->
     forward square_array 0 [1; 1; 0] =
       let '(ret, (lr', st')) :=
         rule_call (learning_rule square_array) 0 (removelast [1; 1; 0])
                   (store square_array) in
       (ret, with_rule_store square_array lr' st')).
Proof.
  apply (learning_flag_threshold square_array 0 [1; 1; 0] 0).
  - reflexivity.
  - reflexivity.
Defined.

(** An inference call that fails before the logging block leaves the array
    as it was and logs nothing: an empty input raises [IndexError] at the
    flag, and an input whose activities do not have the length of a row of
    [weights] raises [ValueError] at the product. *)
Theorem failed_inference_logs_nothing {rule : Type} `{LearningRule rule}
    (arr : MemristorArray rule) (t : R) :
  has_learning_signal (learning_rule arr) = true ->
  MemristorArray_call arr t [] = (Raise IndexError, arr) /\
  forall x flag,
    last_item x = Ok flag -> - (1 / 2) <= flag <= 1 / 2 ->
    length (stripped arr x) <> input_size arr ->
    MemristorArray_call arr t x = (Raise ValueError, arr).
Proof.
  intros Hflag. split.
  - unfold MemristorArray_call, forward. rewrite Hflag. reflexivity.
  - intros x flag Hlast Hrange Hlen.
    apply np_rint_zero in Hrange.
    unfold MemristorArray_call, forward. rewrite Hflag, Hlast, Hrange.
    cbn [Z.eqb negb]. unfold stripped in Hlen. unfold np_dot.
    apply Nat.eqb_neq in Hlen. rewrite Nat.eqb_sym in Hlen.
    destruct (has_error_signal (learning_rule arr)); rewrite Hlen; reflexivity.
Qed.

Lemma failed_inference_logs_nothing_witness :
  MemristorArray_call square_array 0 [] = (Raise IndexError, square_array) /\
  forall x flag,
    last_item x = Ok flag -> - (1 / 2) <= flag <= 1 / 2 ->
    length (stripped square_array x) <> input_size square_array ->
    MemristorArray_call square_array 0 x = (Raise ValueError, square_array).
Proof.
  apply (failed_inference_logs_nothing square_array 0). reflexivity.
Defined.

End LoggingBlock.

(** ** The signed update of a plus-minus pair *)

Section PairDirection.

Lemma law_trend_positive (l : law) (V : R) :
  0 < V -> law_trend l V = Falling (law_r_0 l).
Proof.
  intros HV. destruct l; cbn [law_trend law_r_0];
    rewrite ?(Rlt_b_true 0 V) by exact HV; reflexivity.
Qed.

(** A positive pulse of at least one step on a working device returns,
    lowers the resistance short of [r_0] and raises the read-out. *)
Lemma working_pulse (m : Memristor) (s : R) (vc vc' : converter) (k : Z) :
  working m -> 0 < s -> convert vc s = (Ok k, vc') -> (1 <= k)%Z ->
  exists m' v,
    pulse m s vc = (Ok v, m', vc') /\
    get_state_default m = Ok (gain_default * (scaled_conductance m + epsilon)) /\
    get_state_default m' = Ok (gain_default * (scaled_conductance m' + epsilon)) /\
    scaled_conductance m < scaled_conductance m'.
Proof.
  intros (Hbv & H0 & H01 & Hr & Hok) Hs Hconv Hk.
  assert (HV : voltage m s = base_voltage m)
    by (unfold voltage; rewrite np_sign_pos by exact Hs; lra).
  assert (Htrend : law_trend (model m) (voltage m s) = Falling (r_0 m))
    by (rewrite HV; apply law_trend_positive; exact Hbv).
  destruct (pulse_advances m s vc vc' k) as (Hadv & Hret & Hvc); try assumption.
  - lra.
  - rewrite HV. exact Hok.
  - rewrite Htrend. exact Hr.
  - rewrite Htrend. exact I.
  - rewrite Htrend in Hadv. cbn [advances] in Hadv.
    pose proof (pulse_frame m s vc) as (_ & _ & _ & _ & Hm).
    unfold device_after, converter_after in *.
    destruct (pulse m s vc) as [[r m'] vc1] eqn:Ep. cbn [fst snd] in *.
    assert (Hnd : nondegenerate m) by (unfold nondegenerate; repeat split; lra).
    assert (Hnd' : nondegenerate m').
    { unfold nondegenerate, r_0, r_1 in *. rewrite Hm. repeat split; lra. }
    subst vc1. rewrite Hret.
    rewrite (get_state_conductance_scaled m' (gain m) Hnd').
    eexists m', _. split; [reflexivity|].
    unfold get_state_default.
    split; [apply get_state_conductance_scaled; exact Hnd|].
    split; [apply get_state_conductance_scaled; exact Hnd'|].
    apply scaled_conductance_antitone; [exact Hm | | | |];
      unfold r_0, r_1 in *; rewrite ?Hm; lra.
Qed.

(** The signed update.  On a plus-minus pair of working devices, a pulse
    for which the quantizer asks at least one step returns, and what it
    returns is above the read-out before the call when the signal is
    positive and below it when the signal is negative. *)
Theorem plus_minus_moves_weight (self : MemristorPair) (signal : R)
    (vc vc' : converter) (k : Z) :
  policy self = MemristorPlusMinus ->
  working (mem_one self) -> working (mem_two self) ->
  signal <> 0 -> convert vc (Rabs signal) = (Ok k, vc') -> (1 <= k)%Z ->
  exists w w',
    pair_difference self = Ok w /\
    fst (fst (pair_pulse self signal vc)) = Ok w' /\
    (0 < signal -> w < w') /\ (signal < 0 -> w' < w).
Proof.
  intros Hpol Hone Htwo Hs Hconv Hk.
  assert (Hg : 0 < gain_default) by (unfold gain_default; lra).
  unfold pair_pulse. rewrite Hpol. cbn [pair_pulse_body].
  unfold seq_, skip, pulse_one, pulse_two.
  destruct (Rtotal_order signal 0) as [Hneg | [Hz | Hpos]]; [|contradiction|].
  - rewrite Rabs_left in Hconv by exact Hneg.
    rewrite (Rlt_b_false 0 signal) by lra.
    rewrite (Rlt_b_true signal 0) by exact Hneg.
    destruct (working_pulse (mem_two self) (- signal) vc vc' k Htwo ltac:(lra) Hconv Hk)
      as (m' & v & Ep & G2 & G2' & Hup).
    destruct (working_pulse (mem_one self) (- signal) vc vc' k Hone ltac:(lra) Hconv Hk)
      as (_ & _ & _ & G1 & _ & _).
    rewrite Ep. cbn [bind fst snd].
    unfold pair_difference. cbn [set_mem_two mem_one mem_two].
    rewrite G1, G2, G2'. cbn [bind].
    eexists _, _. split; [reflexivity|]. split; [reflexivity|].
    split; intros Hc; [lra | nra].
  - rewrite Rabs_right in Hconv by lra.
    rewrite (Rlt_b_true 0 signal) by exact Hpos.
    rewrite (Rlt_b_false signal 0) by lra.
    destruct (working_pulse (mem_one self) signal vc vc' k Hone Hpos Hconv Hk)
      as (m' & v & Ep & G1 & G1' & Hup).
    destruct (working_pulse (mem_two self) signal vc vc' k Htwo Hpos Hconv Hk)
      as (_ & _ & _ & G2 & _ & _).
    rewrite Ep. cbn [bind fst snd].
    unfold pair_difference. cbn [set_mem_one mem_one mem_two].
    rewrite G1, G2, G1'. cbn [bind].
    eexists _, _. split; [reflexivity|]. split; [reflexivity|].
    split; intros Hc; [nra | lra].
Qed.

Lemma anouk_device_working : working anouk_device.
Proof. unfold working, r_0, r_1. simpl. repeat split; lra. Qed.

Lemma plus_minus_moves_weight_witness :
  exists w w',
    pair_difference anouk_pair = Ok w /\
    fst (fst (pair_pulse anouk_pair 1 (VoltageConverter 1))) = Ok w' /\
    (0 < 1 -> w < w') /\ (1 < 0 -> w' < w).
Proof.
  apply (plus_minus_moves_weight anouk_pair 1 (VoltageConverter 1)
           (VoltageConverter 1) 1%Z).
  - reflexivity.
  - exact anouk_device_working.
  - exact anouk_device_working.
  - lra.
  - reflexivity.
  - lia.
Defined.

(** One positive pulse on the plus-minus pair of default devices returns a
    positive value. *)
Lemma anouk_pair_pulsed :
  exists w, 0 < w /\
            fst (fst (pair_pulse anouk_pair 1 (VoltageConverter 1))) = Ok w.
Proof.
  assert (Hg : 0 < gain_default) by (unfold gain_default; lra).
  destruct (working_pulse anouk_device 1 (VoltageConverter 1) (VoltageConverter 1) 1%Z
              anouk_device_working ltac:(lra) eq_refl ltac:(lia))
    as (m' & v & Ep & G & G' & Hup).
  unfold pair_pulse. cbn [policy anouk_pair pair_pulse_body].
  unfold seq_, skip, pulse_one, pulse_two.
  rewrite (Rlt_b_true 0 1) by lra. rewrite (Rlt_b_false 1 0) by lra.
  cbn [mem_one anouk_pair]. rewrite Ep. cbn [bind fst snd].
  unfold pair_difference. cbn [set_mem_one mem_one mem_two anouk_pair].
  rewrite G, G'. cbn [bind].
  eexists. split; [|reflexivity]. nra.
Qed.

(** The pair of default devices after one positive pulse: the value
    returned is positive, and [get_state()] reads a tenth of it. *)
Lemma pair_pulse_is_ten_times_get_state_witness :
  exists w,
    0 < w /\
    fst (fst (pair_pulse anouk_pair 1 (VoltageConverter 1))) = Ok w /\
    pair_get_state_default (snd (fst (pair_pulse anouk_pair 1 (VoltageConverter 1))))
      = Ok (w / 10).
Proof.
  destruct anouk_pair_pulsed as (w & Hpos & Hw).
  exists w. split; [exact Hpos|]. split; [exact Hw|].
  apply (pair_pulse_is_ten_times_get_state anouk_pair 1 (VoltageConverter 1) w).
  exact Hw.
Defined.

End PairDirection.
